(** * go-ds-gcs: the caching datastore adapter over Google Cloud Storage

    A shallow embedding of [gcsds.go] and [metadata.go] together with the
    library calls they rely on ([path.Clean]/[path.Join], [strings.HasPrefix],
    [strings.TrimPrefix], [ds.NewKey], the hashicorp LRU cache and the GCS
    client), followed by the properties of the adapter.

    Conventions.
    - Go [string] and [[]byte] are byte sequences: [string] and [list byte].
      A nil slice is the empty list.
    - Go [int] is taken at the 64-bit width of the platforms the plugin is
      built for; [int64(x)] and [int(x)] are written with their wrap-around.
    - [error] values are an inductive type; [nil] is [None].
    - The receiver [*GCSDatastore], the remote bucket and the process log are
      threaded through a state monad [M]. *)

From Stdlib Require Import ZArith List String Ascii Strings.Byte Bool Lia Permutation.
From stdpp Require Import base option list gmap strings fin_maps.

Local Open Scope string_scope.
Local Open Scope list_scope.
Local Open Scope Z_scope.

(** ** Machine integers *)

Module GoInt.

Definition wrap (w : Z) (z : Z) : Z :=
  (z + 2 ^ (w - 1)) mod 2 ^ w - 2 ^ (w - 1).

(** [int64(x)] *)
Definition int64 (z : Z) : Z := wrap 64 z.
(** [int(x)], on a 64-bit target *)
Definition int (z : Z) : Z := wrap 64 z.

Definition max_int : Z := 2 ^ 63 - 1.
Definition min_int : Z := - 2 ^ 63.

(** [len(s)] for a slice or a string *)
Definition len {A} (l : list A) : Z := Z.of_nat (length l).

End GoInt.

Abbreviation bytes := (list byte).

(** ** Package [strings] *)

Module Strings.

(** [strings.HasPrefix(s, prefix)] *)
Definition HasPrefix (s prefix : string) : bool := String.prefix prefix s.

(** [strings.TrimPrefix(s, prefix)]: [s] without the leading [prefix], or
    [s] itself when it does not start with [prefix]. *)
Definition TrimPrefix (s prefix : string) : string :=
  if HasPrefix s prefix
  then String.substring (String.length prefix)
                        (String.length s - String.length prefix) s
  else s.

End Strings.

(** ** Package [path] *)

Module Path.

Local Open Scope nat_scope.

(** [lazybuf]: the output buffer of [Clean]; only [buf[0:w]] is live. *)
Record lazybuf := { buf : list ascii; w : nat }.

Definition index (b : lazybuf) (i : nat) : ascii := nth i (buf b) zero.

Definition append (b : lazybuf) (c : ascii) : lazybuf :=
  {| buf := firstn (w b) (buf b) ++ [c]; w := S (w b) |}.

Definition lazybuf_string (b : lazybuf) : string :=
  string_of_list_ascii (firstn (w b) (buf b)).

Definition is_slash (c : ascii) : bool := Ascii.eqb c "/"%char.
Definition is_dot (c : ascii) : bool := Ascii.eqb c "."%char.

(** [for out.w > dotdot && out.index(out.w) != '/' { out.w-- }] *)
Fixpoint backtrack (fuel : nat) (b : lazybuf) (dotdot : nat) : lazybuf :=
  match fuel with
  | O => b
  | S fuel' =>
      if (dotdot <? w b) && negb (is_slash (index b (w b)))
      then backtrack fuel' {| buf := buf b; w := w b - 1 |} dotdot
      else b
  end.

(** [for ; r < n && path[r] != '/'; r++ { out.append(path[r]) }] *)
Fixpoint copy_element (fuel : nat) (p : list ascii) (r : nat) (out : lazybuf)
  : nat * lazybuf :=
  match fuel with
  | O => (r, out)
  | S fuel' =>
      if (r <? length p) && negb (is_slash (nth r p zero))
      then copy_element fuel' p (S r) (append out (nth r p zero))
      else (r, out)
  end.

(** The main loop [for r < n { switch ... }] of [Clean]; every round
    advances [r], so [length p] rounds always suffice. *)
Fixpoint clean_loop (fuel : nat) (p : list ascii) (rooted : bool)
         (r dotdot : nat) (out : lazybuf) : lazybuf :=
  match fuel with
  | O => out
  | S fuel' =>
      let n := length p in
      if negb (r <? n) then out
      else if is_slash (nth r p zero) then
        (* empty path element *)
        clean_loop fuel' p rooted (r + 1) dotdot out
      else if is_dot (nth r p zero)
              && ((r + 1 =? n) || is_slash (nth (r + 1) p zero)) then
        (* . element *)
        clean_loop fuel' p rooted (r + 1) dotdot out
      else if is_dot (nth r p zero) && is_dot (nth (r + 1) p zero)
              && ((r + 2 =? n) || is_slash (nth (r + 2) p zero)) then
        (* .. element: remove to last / *)
        if dotdot <? w out then
          (* can backtrack *)
          let out1 := {| buf := buf out; w := w out - 1 |} in
          clean_loop fuel' p rooted (r + 2) dotdot
                     (backtrack (w out1) out1 dotdot)
        else if negb rooted then
          (* cannot backtrack, but not rooted, so append .. element *)
          let out1 := if 0 <? w out then append out "/"%char else out in
          let out2 := append (append out1 "."%char) "."%char in
          clean_loop fuel' p rooted (r + 2) (w out2) out2
        else
          clean_loop fuel' p rooted (r + 2) dotdot out
      else
        (* real path element: add slash if needed, copy element *)
        let out1 :=
          if (rooted && negb (w out =? 1)) || (negb rooted && negb (w out =? 0))
          then append out "/"%char else out in
        let '(r', out2) := copy_element n p r out1 in
        clean_loop fuel' p rooted r' dotdot out2
  end.

(** [path.Clean] *)
Definition Clean (path : string) : string :=
  let p := list_ascii_of_string path in
  match p with
  | [] => "."%string
  | c :: _ =>
      let rooted := is_slash c in
      let out0 := {| buf := []; w := 0 |} in
      let '(out, r, dotdot) :=
        if rooted then (append out0 "/"%char, 1, 1) else (out0, 0, 0) in
      let out' := clean_loop (length p) p rooted r dotdot out in
      if w out' =? 0 then "."%string else lazybuf_string out'
  end.

(** The loop of [path.Join]: non-empty elements separated by ['/']. *)
Fixpoint join_buf (elem : list string) (acc : string) : string :=
  match elem with
  | [] => acc
  | e :: rest =>
      let acc' :=
        if Nat.ltb 0 (String.length acc) || negb (String.eqb e "")
        then String.append
               (if Nat.ltb 0 (String.length acc)
                then String.append acc "/" else acc) e
        else acc in
      join_buf rest acc'
  end.

(** [path.Join] *)
Definition Join (elem : list string) : string :=
  let size := fold_left (fun n e => n + String.length e) elem 0 in
  if size =? 0 then ""%string else Clean (join_buf elem "").

End Path.


(** ** Errors *)

(** Go [error] values. The three sentinels are the ones the adapter compares
    against with [==]; every other error (transport failures, [fmt.Errorf])
    carries its message. *)
Inductive error :=
| ErrNotFound                  (* ds.ErrNotFound *)
| ErrObjectNotExist            (* storage.ErrObjectNotExist *)
| IteratorDone                 (* iterator.Done *)
| Errorf (msg : string).       (* fmt.Errorf(msg), errors.New(msg) *)

#[global] Instance error_eq_dec : EqDecision error.
Proof. solve_decision. Defined.

(** [err == sentinel] *)
Definition err_is (err : option error) (sentinel : error) : bool :=
  bool_decide (err = Some sentinel).

(** ** Package [ds] (go-datastore): keys *)

Module DS.

(** [ds.Key] *)
Record Key := { String : string }.

(** [Key.Clean] *)
Definition Clean (s : string) : string :=
  match s with
  | EmptyString => "/"
  | String.String c _ =>
      if Ascii.eqb c "/"%char then Path.Clean s
      else Path.Clean (String.append "/" s)
  end.

(** [ds.NewKey] *)
Definition NewKey (s : string) : Key := {| String := Clean s |}.

(** [ds.Batch] is an interface; the adapter never builds a value of it. *)
Inductive Batch := BatchValue.

End DS.

(** ** Package [dsq] (go-datastore/query): the request and result records *)

Module DSQ.

(** [dsq.Filter] and [dsq.Order] are interfaces; these are the
    implementations the query package ships. *)
Inductive Filter :=
| FilterValueCompare (op : string) (value : bytes)
| FilterKeyCompare (op : string) (key : string)
| FilterKeyPrefix (prefix : string).

Inductive Order :=
| OrderByValue
| OrderByValueDescending
| OrderByKey
| OrderByKeyDescending.

(** [dsq.Query] *)
Record Query := {
  Prefix : string;
  Filters : list Filter;
  Orders : list Order;
  Limit : Z;
  Offset : Z;
  KeysOnly : bool;
  ReturnExpirations : bool;
  ReturnsSizes : bool;
}.

(** [dsq.Entry] (the expiration field is never set by the adapter) *)
Record Entry := {
  Key : string;
  Value : bytes;
  Size : Z;
}.

(** [dsq.Result] *)
Record Result := {
  entry : Entry;
  Error : option error;
}.

Definition empty_entry : Entry := {| Key := ""; Value := []; Size := 0 |}.

End DSQ.

(** ** [metadata.go] *)

(** [type Metadata struct] *)
Record Metadata := {
  Key : string;
  Size : Z;   (* int64 *)
}.

#[global] Instance Metadata_eq_dec : EqDecision Metadata.
Proof. solve_decision. Defined.

(** The closure returned by [MetadataCache.Iterator]: it captures [values]
    and the cursor [i]; [l] is [len(values)]. *)
Record MetadataIter := {
  values : list Metadata;
  i : nat;
}.

Module MetadataCache.

(** [type MetadataCache struct { cache map[string]*Metadata }].
    A stored [*Metadata] is never written through after [Put] allocates
    it, so the pointers are modelled by the records they point to. *)
Record t := { cache : gmap string Metadata }.

Definition NewMetadataCache : t := {| cache := ∅ |}.

Definition Has (md : t) (key : string) : bool :=
  match cache md !! key with
  | Some _ => true
  | None => false
  end.

Definition Get (md : t) (key : string) : option Metadata * option error :=
  match cache md !! key with
  | Some v => (Some v, None)
  | None => (None, Some ErrNotFound)
  end.

Definition Put (md : t) (key : string) (size : Z) : t :=
  {| cache := <[key := {| Key := key; Size := size |}]> (cache md) |}.

Definition Delete (md : t) (key : string) : t :=
  {| cache := delete key (cache md) |}.

Definition Size (md : t) : Z := Z.of_nat (size (cache md)).

(** Go leaves the order in which [range] visits a map unspecified. The
    runtime's choice is a [traversal]: it rearranges the entries of the
    map, and [ranges] says that it visits each entry exactly once. *)
Definition traversal : Type :=
  list (string * Metadata) -> list (string * Metadata).

Definition range (order : traversal) (md : t) : list (string * Metadata) :=
  order (map_to_list (cache md)).

Definition ranges (order : traversal) (md : t) : Prop :=
  range order md ≡ₚ map_to_list (cache md).

(** The [for k, v := range md.cache] loop of [Iterator], over the
    entries still to visit. *)
Fixpoint Iterator_loop (visit : list (string * Metadata))
         (prefix : string) (limit : Z)
         (values : list Metadata) (count : Z) : list Metadata :=
  match visit with
  | [] => values
  | (k, v) :: rest =>
      let '(values, count) :=
        if Strings.HasPrefix k prefix
        then (values ++ [v], count + 1)
        else (values, count) in
      if (0 <? limit) && (count =? limit)
      then values   (* break *)
      else Iterator_loop rest prefix limit values count
  end.

(** [Iterator]. Offset not supported, for now. *)
Definition Iterator (order : traversal) (md : t)
           (prefix : string) (limit : Z) : MetadataIter :=
  {| values := Iterator_loop (range order md) prefix limit [] 0; i := 0 |}.

(** One call [f()] of the returned closure. *)
Definition next (it : MetadataIter) : option Metadata * MetadataIter :=
  if (length (values it) <=? i it)%nat
  then (None, it)
  else (values it !! i it, {| values := values it; i := S (i it) |}).

End MetadataCache.

(** ** The LRU data cache ([github.com/hashicorp/golang-lru]) *)

Module LRU.

(** Cached values are [interface{}]; the adapter only ever stores
    [[]byte]. *)
Inductive any :=
| Bytes (b : bytes)
| Other (tag : string).

(** [items] is the eviction list, most recently used first; each key
    occurs at most once. *)
Record Cache := {
  size : Z;
  items : list (string * any);
}.

(** [lru.New]: refuses a non-positive size. *)
Definition New (size : Z) : Cache + error :=
  if size <=? 0
  then inr (Errorf "Must provide a positive size")
  else inl {| size := size; items := [] |}.

Definition find (key : string) (l : list (string * any)) : option any :=
  snd <$> List.find (fun p => String.eqb (fst p) key) l.

Definition drop (key : string) (l : list (string * any))
  : list (string * any) :=
  List.filter (fun p => negb (String.eqb (fst p) key)) l.

(** [Add]: an existing entry is updated and moved to the front; a new one
    is pushed at the front and the oldest evicted when over capacity.
    Returns whether an eviction happened. *)
Definition Add (c : Cache) (key : string) (value : any) : Cache * bool :=
  match find key (items c) with
  | Some _ =>
      ({| size := size c; items := (key, value) :: drop key (items c) |},
       false)
  | None =>
      let pushed := (key, value) :: items c in
      let evict := size c <? GoInt.len pushed in
      ({| size := size c;
          items := if evict then removelast pushed else pushed |},
       evict)
  end.

(** [Get]: a hit moves the entry to the front. *)
Definition Get (c : Cache) (key : string) : (option any * bool) * Cache :=
  match find key (items c) with
  | Some v =>
      ((Some v, true),
       {| size := size c; items := (key, v) :: drop key (items c) |})
  | None => ((None, false), c)
  end.

(** [Remove]: returns whether the key was present. *)
Definition Remove (c : Cache) (key : string) : Cache * bool :=
  match find key (items c) with
  | Some _ => ({| size := size c; items := drop key (items c) |}, true)
  | None => (c, false)
  end.

(** [Peek]: the value of a key, without a change of recency. *)
Definition Peek (c : Cache) (key : string) : option any :=
  find key (items c).

End LRU.

(** ** The remote collaborator and the process environment *)

(** [storage.ObjectAttrs]: the two fields [LoadMetadata] reads. *)
Record ObjectAttrs := {
  Name : string;
  ObjSize : Z;   (* attrs.Size, int64 *)
}.

(** What a [*storage.Reader] delivers to [buf.ReadFrom]: the bytes read
    before end of stream or before the read error, if any. *)
Record Reader := {
  content : bytes;
  read_err : option error;
}.

(** The calls the adapter makes on [*storage.Client], over a bucket state
    [W]. Each may change the remote state and may fail. *)
Class Storage (W : Type) := {
  (** [storage.NewClient(ctx)] *)
  NewClient : W -> option error * W;
  (** [client.Bucket(b).Attrs(ctx)] *)
  BucketAttrs : string -> W -> option error * W;
  (** [w := client.Bucket(b).Object(o).NewWriter(ctx)] with its content
      type, [w.Write(data)], [w.Close()]: the error of [Close] *)
  ObjectWrite : string -> string -> string -> bytes -> W -> option error * W;
  (** [client.Bucket(b).Object(o).Attrs(ctx)]: the error *)
  ObjectProbe : string -> string -> W -> option error * W;
  (** [client.Bucket(b).Object(o).NewReader(ctx)] *)
  ObjectNewReader : string -> string -> W -> (Reader + error) * W;
  (** [client.Bucket(b).Object(o).Delete(ctx)] *)
  ObjectDelete : string -> string -> W -> option error * W;
  (** [client.Bucket(b).Objects(ctx, &storage.Query{Prefix: p})]: the
      answers of the successive [it.Next()] calls; once they are used up
      [Next] answers [iterator.Done]. *)
  Objects : string -> string -> W -> list (ObjectAttrs + error) * W;
}.

(** [log.Printf(format, args...)] *)
Inductive LogArg :=
| LStr (s : string)
| LInt (z : Z)
| LErr (e : error)
| LClock.          (* a value derived from the wall clock *)

Record LogLine := {
  format : string;
  args : list LogArg;
}.

Record Env (W : Type) := {
  world : W;
  logged : list LogLine;
}.
Arguments world {W} _.
Arguments logged {W} _.

(** [type Config struct] *)
Record Config := {
  Bucket : string;
  Prefix : string;
  Workers : Z;
  DataCacheItems : Z;
}.

(** [type GCSDatastore struct]; the [client] field is the remote state of
    the environment. *)
Record GCSDatastore := {
  config : Config;
  mdCache : MetadataCache.t;
  dataCache : LRU.Cache;
}.

Definition set_mdCache (gd : GCSDatastore) (md : MetadataCache.t)
  : GCSDatastore :=
  {| config := config gd; mdCache := md; dataCache := dataCache gd |}.

Definition set_dataCache (gd : GCSDatastore) (c : LRU.Cache)
  : GCSDatastore :=
  {| config := config gd; mdCache := mdCache gd; dataCache := c |}.

(** [dsq.Results] as built by [dsq.ResultsFromIterator]: the query and the
    state of the [Next] closure. *)
Record Results := {
  query : DSQ.Query;
  metadata : MetadataIter;
}.

(** What becomes of a caller. *)
Inductive outcome (A : Type) :=
| Returned (a : A)
| Failed (e : error)
| NilDereference.
Arguments Returned {A} _.
Arguments Failed {A} _.
Arguments NilDereference {A}.

Section Adapter.

Context {W : Type} `{Storage W}.

(** *** The effect monad: remote state and log *)

Definition IO (A : Type) : Type := Env W -> A * Env W.

Definition ret {A} (a : A) : IO A := fun e => (a, e).

Definition bind {A B} (m : IO A) (k : A -> IO B) : IO B :=
  fun e => let '(a, e') := m e in k a e'.

Notation "x <- m ;; k" := (bind m (fun x => k))
  (at level 100, m at next level, right associativity).
Notation "m ;;; k" := (bind m (fun _ => k))
  (at level 100, right associativity).

Definition Printf (fmt : string) (a : list LogArg) : IO unit :=
  fun e => (tt, {| world := world e;
                   logged := logged e ++ [{| format := fmt; args := a |}] |}).

Definition remote {A} (f : W -> A * W) : IO A :=
  fun e => let '(a, w) := f (world e) in
           (a, {| world := w; logged := logged e |}).

(** *** [gcsds.go] *)

(** [GCSPath] *)
Definition GCSPath (gd : GCSDatastore) (key : string) : string :=
  Path.Join [Prefix (config gd); key].

(** [CheckBucket] *)
Definition CheckBucket (gd : GCSDatastore) : IO (option error) :=
  err <- remote (BucketAttrs (Bucket (config gd))) ;;
  match err with
  | Some e =>
      Printf "Failed to get attributes for bucket %s. Missing credentials? %v"
             [LStr (Bucket (config gd)); LErr e] ;;;
      ret (Some e)
  | None => ret None
  end.

(** [NewGCSDatastore] *)
Definition NewGCSDatastore (cfg : Config)
  : IO (option GCSDatastore * option error) :=
  err <- remote NewClient ;;
  match err with
  | Some e =>
      Printf "Failed to create GCS client: %v\n" [LErr e] ;;;
      ret (None, Some e)
  | None =>
      match LRU.New (DataCacheItems cfg) with
      | inr e =>
          Printf "Failed to create LRU cache err: %v\n" [LErr e] ;;;
          ret (None, Some e)
      | inl dataCache =>
          let gd := {| config := cfg;
                       mdCache := MetadataCache.NewMetadataCache;
                       dataCache := dataCache |} in
          err <- CheckBucket gd ;;
          match err with
          | Some e => ret (None, Some e)
          | None => ret (Some gd, None)
          end
      end
  end.

(** The [for] loop of [LoadMetadata] over the answers of [it.Next()]. *)
Fixpoint LoadMetadata_loop (it : list (ObjectAttrs + error))
         (gd : GCSDatastore) (listed : Z)
  : IO (option error * GCSDatastore * Z) :=
  match it with
  | [] => ret (None, gd, listed)          (* err == iterator.Done *)
  | inr e :: rest =>
      if err_is (Some e) IteratorDone
      then ret (None, gd, listed)
      else
        Printf "Failed to load metadata for bucket: %v err: %v"
               [LStr (Bucket (config gd)); LErr e] ;;;
        ret (Some e, gd, listed)
  | inl attrs :: rest =>
      (* Add to cache *)
      let key := Strings.TrimPrefix (Name attrs) (Prefix (config gd)) in
      let gd' :=
        set_mdCache gd (MetadataCache.Put (mdCache gd) key (ObjSize attrs)) in
      LoadMetadata_loop rest gd' (listed + 1)
  end.

(** [LoadMetadata] pre-loads metadata for all objects in the ipfs
    prefix. *)
Definition LoadMetadata (gd : GCSDatastore)
  : IO (option error * GCSDatastore) :=
  it <- remote (Objects (Bucket (config gd)) (Prefix (config gd))) ;;
  r <- LoadMetadata_loop it gd 0 ;;
  let '(err, gd', listed) := r in
  match err with
  | Some e => ret (Some e, gd')
  | None =>
      Printf "Loaded metadata for %d object in %.2f s (%.2f objects/s)\n"
             [LInt listed; LClock; LClock] ;;;
      ret (None, gd')
  end.

(** [Put] *)
Definition Put (gd : GCSDatastore) (k : DS.Key) (value : bytes)
  : IO (option error * GCSDatastore) :=
  let key := DS.String k in
  let path := GCSPath gd key in
  err <- remote (ObjectWrite (Bucket (config gd)) path "text/plain" value) ;;
  match err with
  | Some e =>
      Printf "Unable to close file key: %v size: %v err: %v"
             [LStr key; LInt (GoInt.len value); LErr e] ;;;
      ret (Some e, gd)
  | None =>
      let gd1 :=
        set_mdCache gd
          (MetadataCache.Put (mdCache gd) key
                             (GoInt.int64 (GoInt.len value))) in
      let gd2 :=
        set_dataCache gd1
          (fst (LRU.Add (dataCache gd1) key (LRU.Bytes value))) in
      ret (None, gd2)
  end.

(** [Sync] *)
Definition Sync (gd : GCSDatastore) (prefix : DS.Key)
  : IO (option error * GCSDatastore) :=
  ret (None, gd).

(** The part of [Get] after a cache miss. *)
Definition Get_remote (gd : GCSDatastore) (key : string)
  : IO (bytes * option error * GCSDatastore) :=
  let path := GCSPath gd key in
  err <- remote (ObjectProbe (Bucket (config gd)) path) ;;
  if err_is err ErrObjectNotExist then ret ([], Some ErrNotFound, gd)
  else
    match err with
    | Some e =>
        Printf "Problem getting file from GCS: %v\n" [LErr e] ;;;
        ret ([], Some e, gd)
    | None =>
        (* Read file. *)
        r <- remote (ObjectNewReader (Bucket (config gd)) path) ;;
        match r with
        | inr e =>
            Printf "Problem reading file from GCS: %v\n" [LErr e] ;;;
            ret ([], Some e, gd)
        | inl rd =>
            (* the error of buf.ReadFrom(r) is dropped *)
            let data := content rd in
            let gd' :=
              set_dataCache gd
                (fst (LRU.Add (dataCache gd) key (LRU.Bytes data))) in
            ret (data, None, gd')
        end
    end.

(** [Get] *)
Definition Get (gd : GCSDatastore) (k : DS.Key)
  : IO (bytes * option error * GCSDatastore) :=
  let key := DS.String k in
  let '((value, ok), c) := LRU.Get (dataCache gd) key in
  let gd := set_dataCache gd c in
  if ok then
    match value with
    | Some (LRU.Bytes b) => ret (b, None, gd)    (* value.([]byte) *)
    | _ =>
        Printf "Failed to read cached data value. Fetching from GCS. key: %v"
               [LStr key] ;;;
        Get_remote gd key
    end
  else Get_remote gd key.

(** [Has] *)
Definition Has (gd : GCSDatastore) (k : DS.Key)
  : IO (bool * option error * GCSDatastore) :=
  ret (MetadataCache.Has (mdCache gd) (DS.String k), None, gd).

(** [GetSize] *)
Definition GetSize (gd : GCSDatastore) (k : DS.Key)
  : IO (Z * option error * GCSDatastore) :=
  match MetadataCache.Get (mdCache gd) (DS.String k) with
  | (Some md, None) => ret (GoInt.int (Size md), None, gd)
  | (_, err) =>
      (* TODO: Handle not found error. *)
      ret (-1, err, gd)
  end.

(** [Delete] *)
Definition Delete (gd : GCSDatastore) (k : DS.Key)
  : IO (option error * GCSDatastore) :=
  let key := DS.String k in
  let path := GCSPath gd key in
  err <- remote (ObjectDelete (Bucket (config gd)) path) ;;
  (* Don't error for missing objects. Double deletes are OK. *)
  if bool_decide (err <> None) && negb (err_is err ErrObjectNotExist)
  then ret (err, gd)
  else
    let gd1 := set_mdCache gd (MetadataCache.Delete (mdCache gd) key) in
    let gd2 := set_dataCache gd1 (fst (LRU.Remove (dataCache gd1) key)) in
    ret (None, gd2).

(** [Query]; [order] is the map traversal the runtime picks for the
    snapshot. *)
Definition Query (order : MetadataCache.traversal) (gd : GCSDatastore)
           (q : DSQ.Query)
  : IO (option Results * option error * GCSDatastore) :=
  if (0 <? GoInt.len (DSQ.Orders q)) || (0 <? GoInt.len (DSQ.Filters q))
  then
    let msg := "GCSDatastore: Orders and Filters not supported" in
    Printf msg [] ;;;
    ret (None, Some (Errorf msg), gd)
  else
    (if negb (DSQ.KeysOnly q)
     then Printf "GCSDatastore: Requested all values for prefix '%v'. This could be expensive."
                 [LStr (DSQ.Prefix q)]
     else ret tt) ;;;
    let metadata :=
      MetadataCache.Iterator order (mdCache gd) (DSQ.Prefix q) (DSQ.Limit q) in
    ret (Some {| query := q; metadata := metadata |}, None, gd).

(** The closure [nextValue] of [Query], which [dsq.ResultsFromIterator]
    installs as the [Next] of the results. *)
Definition nextValue (gd : GCSDatastore) (r : Results)
  : IO (DSQ.Result * bool * Results * GCSDatastore) :=
  let q := query r in
  let '(v, it) := MetadataCache.next (metadata r) in
  let r' := {| query := q; metadata := it |} in
  match v with
  | None =>
      ret ({| DSQ.entry := DSQ.empty_entry; DSQ.Error := Some ErrNotFound |},
           false, r', gd)
  | Some v =>
      (* Always return size, whether it was requested or not. *)
      let entry := {| DSQ.Key := Key v; DSQ.Value := [];
                      DSQ.Size := GoInt.int (Size v) |} in
      if negb (DSQ.KeysOnly q) then
        g <- Get gd (DS.NewKey (Key v)) ;;
        let '(value, err, gd') := g in
        match err with
        | Some e =>
            Printf "GCSDatastore: Error getting value. err: %v" [LErr e] ;;;
            ret ({| DSQ.entry := DSQ.empty_entry; DSQ.Error := Some e |},
                 false, r', gd')
        | None =>
            ret ({| DSQ.entry := {| DSQ.Key := DSQ.Key entry;
                                    DSQ.Value := value;
                                    DSQ.Size := DSQ.Size entry |};
                    DSQ.Error := None |},
                 true, r', gd')
        end
      else
        ret ({| DSQ.entry := entry; DSQ.Error := None |}, true, r', gd)
  end.

(** A consumer of the results, as [Results.Rest] is: it calls [Next]
    until [Next] reports that nothing more comes, and collects the
    entries produced on the way, together with the last answer (which
    carries the error that ended the iteration). [None] when [fuel]
    calls were not enough. *)
Fixpoint drain (fuel : nat) (gd : GCSDatastore) (r : Results)
         (es : list DSQ.Entry)
  : IO (option (list DSQ.Entry * DSQ.Result) * Results * GCSDatastore) :=
  match fuel with
  | O => ret (None, r, gd)
  | S fuel' =>
      x <- nextValue gd r ;;
      let '(res, ok, r', gd') := x in
      if negb ok then ret (Some (es, res), r', gd')
      else drain fuel' gd' r' (es ++ [DSQ.entry res])
  end.

(** [Batch] *)
Definition Batch (gd : GCSDatastore)
  : IO (option DS.Batch * option error * GCSDatastore) :=
  Printf "BATCH.\n" [] ;;;
  ret (None, None, gd).

(** [Close] *)
Definition Close (gd : GCSDatastore) : IO (option error * GCSDatastore) :=
  ret (None, gd).

(** A caller of [Batch] that checks only the error before it uses the
    batch: [b, err := d.Batch(ctx); if err != nil { return err };
    b.Put(...)]. A method call on a nil interface value panics. *)
Definition use_batch (b : option DS.Batch) : outcome unit :=
  match b with
  | None => NilDereference
  | Some _ => Returned tt
  end.

Definition batch_caller (gd : GCSDatastore) : IO (outcome unit) :=
  x <- Batch gd ;;
  let '(b, err, _) := x in
  match err with
  | Some e => ret (Failed e)
  | None => ret (use_batch b)
  end.

End Adapter.

(** ** A bucket held in memory

    An instance of [Storage] on which the adapter can be run: buckets of
    named objects, and a script of injected faults. Each remote call takes
    the next item of the script; [Some e] makes the call fail with [e]
    without touching the objects, [None] (or an exhausted script) lets it
    go through. *)

Module MemGCS.

Record World := {
  buckets : gmap string (gmap string bytes);
  faults : list (option error);
}.

Definition next_fault (w : World) : option error * World :=
  match faults w with
  | [] => (None, w)
  | f :: rest => (f, {| buckets := buckets w; faults := rest |})
  end.

Definition no_bucket : error := Errorf "storage: bucket doesn't exist".

Definition set_bucket (w : World) (b : string) (objs : gmap string bytes)
  : World :=
  {| buckets := <[b := objs]> (buckets w); faults := faults w |}.

Definition mem_NewClient (w : World) : option error * World :=
  next_fault w.

Definition mem_BucketAttrs (b : string) (w : World) : option error * World :=
  let '(f, w) := next_fault w in
  match f with
  | Some e => (Some e, w)
  | None =>
      match buckets w !! b with
      | Some _ => (None, w)
      | None => (Some no_bucket, w)
      end
  end.

Definition mem_ObjectWrite (b o ctype : string) (data : bytes) (w : World)
  : option error * World :=
  let '(f, w) := next_fault w in
  match f with
  | Some e => (Some e, w)
  | None =>
      match buckets w !! b with
      | Some objs => (None, set_bucket w b (<[o := data]> objs))
      | None => (Some no_bucket, w)
      end
  end.

Definition mem_ObjectProbe (b o : string) (w : World)
  : option error * World :=
  let '(f, w) := next_fault w in
  match f with
  | Some e => (Some e, w)
  | None =>
      match buckets w !! b with
      | Some objs =>
          match objs !! o with
          | Some _ => (None, w)
          | None => (Some ErrObjectNotExist, w)
          end
      | None => (Some no_bucket, w)
      end
  end.

Definition mem_ObjectNewReader (b o : string) (w : World)
  : (Reader + error) * World :=
  let '(f, w) := next_fault w in
  match f with
  | Some e => (inr e, w)
  | None =>
      match buckets w !! b with
      | Some objs =>
          match objs !! o with
          | Some data => (inl {| content := data; read_err := None |}, w)
          | None => (inr ErrObjectNotExist, w)
          end
      | None => (inr no_bucket, w)
      end
  end.

Definition mem_ObjectDelete (b o : string) (w : World)
  : option error * World :=
  let '(f, w) := next_fault w in
  match f with
  | Some e => (Some e, w)
  | None =>
      match buckets w !! b with
      | Some objs =>
          match objs !! o with
          | Some _ => (None, set_bucket w b (delete o objs))
          | None => (Some ErrObjectNotExist, w)
          end
      | None => (Some no_bucket, w)
      end
  end.

(** The attributes of the objects whose name starts with [prefix]. *)
Definition listing (prefix : string) (objs : gmap string bytes)
  : list ObjectAttrs :=
  (fun kv => {| Name := fst kv; ObjSize := GoInt.len (snd kv) |})
    <$> filter (fun kv => Strings.HasPrefix (fst kv) prefix = true)
               (map_to_list objs).

Definition mem_Objects (b prefix : string) (w : World)
  : list (ObjectAttrs + error) * World :=
  let '(f, w) := next_fault w in
  match f with
  | Some e => ([inr e], w)
  | None =>
      match buckets w !! b with
      | Some objs =>
          (inl <$> listing prefix objs, w)
      | None => ([inr no_bucket], w)
      end
  end.

#[global] Instance storage : Storage World := {|
  NewClient := mem_NewClient;
  BucketAttrs := mem_BucketAttrs;
  ObjectWrite := mem_ObjectWrite;
  ObjectProbe := mem_ObjectProbe;
  ObjectNewReader := mem_ObjectNewReader;
  ObjectDelete := mem_ObjectDelete;
  Objects := mem_Objects;
|}.

(** A world with one empty bucket and no faults to come. *)
Definition fresh (b : string) : Env World :=
  {| world := {| buckets := {[ b := ∅ ]}; faults := [] |}; logged := [] |}.

(** The same remote state, with a script of faults installed. *)
Definition with_faults (e : Env World) (fs : list (option error))
  : Env World :=
  {| world := {| buckets := buckets (world e); faults := fs |};
     logged := logged e |}.

End MemGCS.

(** * Vocabulary of the properties *)

(** The index holds what [MetadataCache.Put] files: under each key a
    record that names this key, with an [int64] size. *)
Definition index_wf (md : MetadataCache.t) : Prop :=
  forall k v, MetadataCache.cache md !! k = Some v ->
              Key v = k /\ GoInt.min_int <= Size v <= GoInt.max_int.

(** The adapter knows nothing of [key]: neither the index nor the data
    cache holds it. *)
Definition unknown (gd : GCSDatastore) (key : string) : Prop :=
  MetadataCache.cache (mdCache gd) !! key = None
  /\ LRU.Peek (dataCache gd) key = None.

(** The key under which [LoadMetadata] files an object. *)
Definition filed (gd : GCSDatastore) (a : ObjectAttrs) : string :=
  Strings.TrimPrefix (Name a) (Prefix (config gd)).

(** The records a traversal meets under keys that start with [prefix]. *)
Definition prefixed (prefix : string) (visit : list (string * Metadata))
  : list Metadata :=
  (filter (fun kv => Strings.HasPrefix (fst kv) prefix = true) visit).*2.

(** The key and the size an entry shows for a record of the index. *)
Definition shown (m : Metadata) : string * Z := (Key m, GoInt.int (Size m)).

Definition key_size (en : DSQ.Entry) : string * Z :=
  (DSQ.Key en, DSQ.Size en).

Section QueryVocabulary.

Context {W : Type} `{Storage W}.

(** [Query] answers with results, and a consumer that reads them to the
    end gets the entries [es]. *)
Definition produces (order : MetadataCache.traversal) (gd : GCSDatastore)
           (q : DSQ.Query) (e : Env W) (es : list DSQ.Entry) : Prop :=
  exists r gd1 e1 last r2 gd2 e2,
    Query order gd q e = ((Some r, None, gd1), e1)
    /\ drain (S (length (values (metadata r)))) gd1 r [] e1
       = ((Some (es, last), r2, gd2), e2).

(** [k] is a key of the index that starts with [prefix]. *)
Definition indexed_under (gd : GCSDatastore) (prefix k : string) : Prop :=
  is_Some (MetadataCache.cache (mdCache gd) !! k)
  /\ Strings.HasPrefix k prefix = true.

(** The entry carries its key and the size the index has for it. *)
Definition carries_indexed_size (gd : GCSDatastore) (en : DSQ.Entry)
  : Prop :=
  exists m, MetadataCache.cache (mdCache gd) !! DSQ.Key en = Some m
            /\ DSQ.Size en = Size m.

(** The entries are for keys of the index under the prefix, each with
    its indexed size, and at most [Limit] of them when a limit is set. *)
Definition query_sound (gd : GCSDatastore) (q : DSQ.Query)
           (es : list DSQ.Entry) : Prop :=
  Forall (carries_indexed_size gd) es
  /\ (forall k, k ∈ DSQ.Key <$> es -> indexed_under gd (DSQ.Prefix q) k)
  /\ (0 < DSQ.Limit q -> GoInt.len es <= DSQ.Limit q).

(** Without a limit, every key of the index under the prefix has its
    entry. *)
Definition query_complete (gd : GCSDatastore) (q : DSQ.Query)
           (es : list DSQ.Entry) : Prop :=
  DSQ.Limit q <= 0 ->
  forall k, indexed_under gd (DSQ.Prefix q) k -> k ∈ DSQ.Key <$> es.

(** The query produces entries for exactly the indexed keys under the
    prefix when there is no limit, and at most [Limit] of them
    otherwise. *)
Definition query_exact (order : MetadataCache.traversal)
           (gd : GCSDatastore) (q : DSQ.Query) (e : Env W) : Prop :=
  exists es, produces order gd q e es
             /\ query_sound gd q es
             /\ query_complete gd q es.

(** The records of the snapshot [Query] takes of the index for [q]. *)
Definition snapshot (order : MetadataCache.traversal) (gd : GCSDatastore)
           (q : DSQ.Query) : list Metadata :=
  values (MetadataCache.Iterator order (mdCache gd)
                                 (DSQ.Prefix q) (DSQ.Limit q)).

(** [Query] answers with results, and a consumer that reads them to the
    end gets the entries [es] and then [last], the answer that ends the
    reading. *)
Definition reads (order : MetadataCache.traversal) (gd : GCSDatastore)
           (q : DSQ.Query) (e : Env W) (es : list DSQ.Entry)
           (last : DSQ.Result) : Prop :=
  exists r gd1 e1 r2 gd2 e2,
    Query order gd q e = ((Some r, None, gd1), e1)
    /\ drain (S (length (values (metadata r)))) gd1 r [] e1
       = ((Some (es, last), r2, gd2), e2).

(** The values of the records [vs] fetched with [Get] one after the
    other, up to the first that cannot be fetched: the entries of the
    records whose value came, each with the key, the value and the size
    of the record, and the error of the fetch that failed, if one did. *)
Fixpoint fetch (gd : GCSDatastore) (vs : list Metadata) (e : Env W)
  : (list DSQ.Entry * option error) * (GCSDatastore * Env W) :=
  match vs with
  | [] => (([], None), (gd, e))
  | v :: vs' =>
      match Get gd (DS.NewKey (Key v)) e with
      | ((_, Some err, gd'), e') => (([], Some err), (gd', e'))
      | ((value, None, gd'), e') =>
          let '((es, err), st) := fetch gd' vs' e' in
          (({| DSQ.Key := Key v; DSQ.Value := value;
               DSQ.Size := GoInt.int (Size v) |} :: es, err), st)
      end
  end.

(** The values of the snapshot of [q] fetched right after [Query]. *)
Definition fetched (order : MetadataCache.traversal) (gd : GCSDatastore)
           (q : DSQ.Query) (e : Env W) : list DSQ.Entry * option error :=
  fst (fetch gd (snapshot order gd q) (snd (Query order gd q e))).

(** Every value of the snapshot of [q] can be fetched. *)
Definition all_fetched (order : MetadataCache.traversal) (gd : GCSDatastore)
           (q : DSQ.Query) (e : Env W) : Prop :=
  snd (fetched order gd q e) = None.

(** The answer that ends the reading of results that are used up. *)
Definition end_of_results : DSQ.Result :=
  {| DSQ.entry := DSQ.empty_entry; DSQ.Error := Some ErrNotFound |}.

End QueryVocabulary.

(** The error the spec calls UnsupportedQuery: the one [Query] builds with
    [fmt.Errorf]. *)
Definition UnsupportedQuery : error :=
  Errorf "GCSDatastore: Orders and Filters not supported".

(** ** Scenarios of the test suite, on the bucket held in memory *)

Module Scenario.

Definition bucket : string := "test-bucket".

(** The configuration of [GetGCSDatastore] in the tests, with the prefix
    and the cache capacity left open. *)
Definition cfg (prefix : string) (items : Z) : Config :=
  {| Bucket := bucket; Prefix := prefix; Workers := 10;
     DataCacheItems := items |}.

(** The adapter [NewGCSDatastore] builds for a configuration. *)
Definition blank (c : Config) : GCSDatastore :=
  {| config := c;
     mdCache := MetadataCache.NewMetadataCache;
     dataCache := {| LRU.size := DataCacheItems c; LRU.items := [] |} |}.

Definition env0 : Env MemGCS.World := MemGCS.fresh bucket.

Definition hello : bytes := list_byte_of_string "hello".

Definition k1 : DS.Key := DS.NewKey "k1".

(** [Put(k1, "hello")] on a new adapter. *)
Definition after_put : GCSDatastore * Env MemGCS.World :=
  let '((_, gd), e) := Put (blank (cfg "ipfs" 1000)) k1 hello env0 in
  (gd, e).

(** A remote write that fails. *)
Definition env_failing : Env MemGCS.World :=
  MemGCS.with_faults env0 [Some (Errorf "connection reset")].

(** Two keys put through an adapter whose cache holds one item, so that
    the bytes of the first are evicted; the next remote call fails. *)
Definition after_two_puts : GCSDatastore * Env MemGCS.World :=
  let '((_, gd), e) :=
    Put (blank (cfg "ipfs" 1)) (DS.NewKey "a") (list_byte_of_string "x")
        env0 in
  let '((_, gd), e) :=
    Put gd (DS.NewKey "b") (list_byte_of_string "y") e in
  (gd, MemGCS.with_faults e [Some (Errorf "connection reset")]).

(** [dsq.Query{Prefix: "/", KeysOnly: keysOnly}] *)
Definition q_all (keysOnly : bool) : DSQ.Query :=
  {| DSQ.Prefix := "/"; DSQ.Filters := []; DSQ.Orders := [];
     DSQ.Limit := 0; DSQ.Offset := 0; DSQ.KeysOnly := keysOnly;
     DSQ.ReturnExpirations := false; DSQ.ReturnsSizes := false |}.

Definition q_ordered : DSQ.Query :=
  {| DSQ.Prefix := "/"; DSQ.Filters := []; DSQ.Orders := [DSQ.OrderByKey];
     DSQ.Limit := 0; DSQ.Offset := 0; DSQ.KeysOnly := true;
     DSQ.ReturnExpirations := false; DSQ.ReturnsSizes := false |}.

(** The traversal that visits the entries as the map lists them. *)
Definition in_order : MetadataCache.traversal := fun l => l.

(** [metadataCacheWithEntries] of the iterator tests. *)
Definition three_entries : MetadataCache.t :=
  MetadataCache.Put
    (MetadataCache.Put
       (MetadataCache.Put MetadataCache.NewMetadataCache "AA/x" 1001)
       "AB/y" 1002)
    "BB/z" 1003.

(** [getEntries]: the keys the closure yields until it yields nil. *)
Fixpoint getEntries (fuel : nat) (it : MetadataIter) : list (string * Z) :=
  match fuel with
  | O => []
  | S fuel' =>
      match MetadataCache.next it with
      | (Some m, it') => (Key m, Size m) :: getEntries fuel' it'
      | (None, _) => []
      end
  end.

(** The keys a query produces, read to the end. *)
Definition query_keys (gd : GCSDatastore) (q : DSQ.Query)
           (e : Env MemGCS.World) : option (list string) :=
  match Query in_order gd q e with
  | ((Some r, None, gd), e) =>
      match drain (S (length (values (metadata r)))) gd r [] e with
      | ((Some (es, _), _, _), _) => Some (DSQ.Key <$> es)
      | _ => None
      end
  | _ => None
  end.

(** The cache-transparency scenario: capacity one, [Put(A, "x")],
    [Put(B, "y")], then [Get(A)] and [Get(B)]; the outcome is the two
    answers and the objects each [Get] probed remotely, counted by the
    faults it would have consumed. *)
Definition transparency :
  (bytes * option error) * (bytes * option error) * (nat * nat) :=
  let '((_, gd), e) :=
    Put (blank (cfg "ipfs" 1)) (DS.NewKey "A") (list_byte_of_string "x")
        env0 in
  let '((_, gd), e) :=
    Put gd (DS.NewKey "B") (list_byte_of_string "y") e in
  let script := [None; None; None; None] in
  let e := MemGCS.with_faults e script in
  let '((b, berr, _), eb) := Get gd (DS.NewKey "B") e in
  let '((a, aerr, _), ea) := Get gd (DS.NewKey "A") e in
  ((a, aerr), (b, berr),
   (length script - length (MemGCS.faults (world ea)),
    length script - length (MemGCS.faults (world eb))))%nat.

(** [TestReload]: an adapter puts a key and is closed; a second adapter
    over the same bucket and prefix loads the metadata. The outcome is
    the second adapter and the environment after the load, when every
    step succeeded. *)
Definition reload (prefix : string) (k : DS.Key) (v : bytes)
  : option (GCSDatastore * Env MemGCS.World) :=
  let c := cfg prefix 1000 in
  match NewGCSDatastore c env0 with
  | ((Some ds1, None), e) =>
      match Put ds1 k v e with
      | ((None, ds1), e) =>
          let '((_, _), e) := Close ds1 e in
          match NewGCSDatastore c e with
          | ((Some ds2, None), e) =>
              match LoadMetadata ds2 e with
              | ((None, ds2), e) => Some (ds2, e)
              | _ => None
              end
          | _ => None
          end
      | _ => None
      end
  | _ => None
  end.

(** The answers of [Has] and [GetSize] and the indexed keys after the
    reload. *)
Definition reload_view (prefix : string) (k : DS.Key) (v : bytes)
  : option (bool * (Z * option error) * list string) :=
  match reload prefix k v with
  | Some (ds2, e) =>
      let '((has, _, _), _) := Has ds2 k e in
      let '((sz, err, _), _) := GetSize ds2 k e in
      Some (has, (sz, err),
            (map_to_list (MetadataCache.cache (mdCache ds2))).*1)
  | None => None
  end.

End Scenario.

(** ** The plugin ([plugin.go], the version with the cache size) *)

Module Plugin.

Definition defaultWorkers : Z := 100.
Definition defaultPrefix : string := "ipfs/".
(* Use at most 1GB ram for the in memory LRU data cache.
   IPFS blocks are max 256kB, therefore bounded at 40'000 * 256kB. *)
Definition defaultCacheSize : Z := 40000.

(** [type GcsConfig struct { cfg gcsds.Config }] *)
Record GcsConfig := { cfg : Config }.

Section Parser.

(** Go's [float64] and the conversion [int(f)] are left open. *)
Variable float64 : Type.
Variable int_of_float64 : float64 -> Z.

(** The dynamic values of a [map[string]interface{}]: strings, the two
    number types the parser asks for, and values of any other type. *)
Inductive value :=
| VString (s : string)
| VFloat (f : float64)
| VInt (z : Z)
| VOther (type : string).

(** The arguments of a [fmt.Errorf]. *)
Inductive ErrArg :=
| EValue (v : value)
| EInt (z : Z).

(** What a call of the parser comes to: a configuration, an error built
    by [fmt.Errorf], or the panic of a failed type assertion. *)
Inductive parse_result :=
| Parsed (c : GcsConfig)
| Rejected (format : string) (args : list ErrArg)
| ConversionPanic.

(** The function [DatastoreConfigParser] returns, with the lines it logs. *)
Definition ConfigFromMap (m : gmap string value)
  : parse_result * list LogLine :=
  match m !! "bucket" with
  | Some (VString bucket) =>
      (* Optional. *)
      let prefix :=
        match m !! "prefix" with
        | Some (VString s) => Some s
        | Some _ => None              (* v.(string) panics *)
        | None => Some defaultPrefix
        end in
      match prefix with
      | None => (ConversionPanic, [])
      | Some prefix =>
          let workers :=
            match m !! "workers" with
            | Some v =>
                let w :=
                  match v with
                  | VFloat w => inl (int_of_float64 w)
                  | VInt w => inl w
                  | _ => inr (Rejected "gcsds: workers not a number: %T %v"
                                       [EValue v; EValue v])
                  end in
                match w with
                | inl workers =>
                    if workers <=? 0
                    then inr (Rejected "gcsds: workers <= 0: %d"
                                       [EInt workers])
                    else inl workers
                | inr r => inr r
                end
            | None => inl defaultWorkers
            end in
          match workers with
          | inr r => (r, [])
          | inl workers =>
              let cacheSize :=
                match m !! "cachesize" with
                | Some v =>
                    let c :=
                      match v with
                      | VFloat c => inl (int_of_float64 c)
                      | VInt c => inl c
                      | _ =>
                          inr (Rejected "gcsds: cachesize not a number: %T %v"
                                        [EValue v; EValue v])
                      end in
                    match c with
                    | inl cacheSize =>
                        if cacheSize <=? 0
                        then inr (Rejected "gcsds: cachesize <= 0: %d"
                                           [EInt cacheSize])
                        else inl cacheSize
                    | inr r => inr r
                    end
                | None => inl defaultCacheSize
                end in
              match cacheSize with
              | inr r => (r, [])
              | inl cacheSize =>
                  (Parsed {| cfg := {| Bucket := bucket;
                                       Prefix := prefix;
                                       Workers := workers;
                                       DataCacheItems := cacheSize |} |},
                   [{| format := "Parsed GCS config: bucket: %s, prefix: %s, workers: %d, cachesize: %d";
                       args := [LStr bucket; LStr prefix; LInt workers;
                                LInt cacheSize] |}])
              end
          end
      end
  | _ => (Rejected "gcsds: no bucket specified" [], [])
  end.

(** [DatastoreConfigParser]: logs and returns the parser. *)
Definition DatastoreConfigParser
  : (gmap string value -> parse_result * list LogLine) * list LogLine :=
  (ConfigFromMap, [{| format := "Parse configuration.\n"; args := [] |}]).

End Parser.

(** [DiskSpec] *)
Definition DiskSpec (gcsConfig : GcsConfig) : gmap string string :=
  {[ "bucket" := Bucket (cfg gcsConfig); "prefix" := Prefix (cfg gcsConfig) ]}.

Section Create.

Context {W : Type} `{Storage W}.

(** [Create] *)
Definition Create (gcsConfig : GcsConfig) (path : string)
  : IO (option GCSDatastore * option error) :=
  bind (Printf "Create() path: %s\n" [LStr path]) (fun _ =>
  bind (NewGCSDatastore (cfg gcsConfig)) (fun r =>
    match r with
    | (_, Some err) => ret (None, Some err)
    | (None, None) => ret (None, None)   (* not an answer of the constructor *)
    | (Some gd, None) =>
        bind (LoadMetadata gd) (fun r' =>
          match r' with
          | (Some err, _) => ret (None, Some err)
          | (None, gd') => ret (Some gd', None)
          end)
    end)).

End Create.

End Plugin.

(** ** The container entry point ([entrypoint.go]) *)

Module Entrypoint.

(** [type Config struct] of the entry point *)
Record Config := {
  Bucket : string;
  IpfsPath : string;
  Project : string;
  Prefix : string;
  SleepSeconds : Z;
}.

(** [strings.HasSuffix(s, suffix)] *)
Definition HasSuffix (s suffix : string) : bool :=
  (String.length suffix <=? String.length s)%nat
  && String.eqb (String.substring (String.length s - String.length suffix)
                                  (String.length suffix) s)
                suffix.

(** What a function that may call [fail] comes to: its value, or the end
    of the process with the message [fail] was given. *)
Inductive result (A : Type) :=
| Value (a : A)
| Exited (format : string) (args : list LogArg).
Arguments Value {A} _.
Arguments Exited {A} _ _.

(** The test of [listBuckets] for the buckets of the container
    registry. *)
Definition is_artifact_bucket (bucket : string) : bool :=
  Strings.HasPrefix bucket "artifacts."
  && HasSuffix bucket ".a.appspot.com".

(** The loop of [listBuckets] over the answers of [it.Next()] on
    [client.Buckets(ctx, projectID)]: bucket names and errors. *)
Fixpoint listBuckets (it : list (string + error)) (buckets : list string)
  : list string * option error :=
  match it with
  | [] => (buckets, None)                       (* err == iterator.Done *)
  | inr err :: rest =>
      if err_is (Some err) IteratorDone then (buckets, None)
      else (buckets, Some err)
  | inl bucket :: rest =>
      (* Ignore GCR artifact buckets *)
      if is_artifact_bucket bucket
      then listBuckets rest buckets
      else listBuckets rest (buckets ++ [bucket])
  end.

(** [foundPrefixInGCS] over the answers of [it.Next()] on the listing of
    the bucket under the prefix: it looks at the first answer only. *)
Definition foundPrefixInGCS (it : list (ObjectAttrs + error)) : result bool :=
  match it with
  | [] => Value false                            (* err == iterator.Done *)
  | inr err :: _ =>
      if err_is (Some err) IteratorDone then Value false
      else Exited "%v" [LErr err]
  | inl _ :: _ => Value true
  end.

(** The loop [for _, b := range buckets] of [chooseBucket]; [objects b]
    are the answers of the listing of bucket [b] under the prefix. *)
Fixpoint pick_existing (objects : string -> list (ObjectAttrs + error))
         (buckets : list string) : result (option string) :=
  match buckets with
  | [] => Value None
  | b :: rest =>
      match foundPrefixInGCS (objects b) with
      | Exited f a => Exited f a
      | Value true => Value (Some b)
      | Value false => pick_existing objects rest
      end
  end.

(** [chooseBucket] chooses an appropriate bucket to use for IPFS;
    [listing] are the answers of the bucket listing of the project. *)
Definition chooseBucket (cfg : Config) (listing : list (string + error))
           (objects : string -> list (ObjectAttrs + error))
  : result string :=
  if String.eqb (Bucket cfg) "" then
    (* List all available buckets in GCP project. *)
    let '(buckets, _) := listBuckets listing [] in
    match buckets with
    | [] => Exited "No buckets found." []
    | first :: _ =>
        (* Pick any bucket with existing contents *)
        match pick_existing objects buckets with
        | Exited f a => Exited f a
        | Value (Some b) => Value b
        | Value None => Value first    (* Otherwise, just pick the first one. *)
        end
    end
  else Value (Bucket cfg).

Section CheckBucket.

Context {W : Type} `{Storage W}.

(** [fail]: logs the message, sleeps and ends the process. *)
Definition fail {A} (cfg : Config) (format : string) (args : list LogArg)
  : IO (W := W) (result A) :=
  bind (Printf format args) (fun _ =>
  bind (Printf "Sleep %d seconds." [LInt (SleepSeconds cfg)]) (fun _ =>
  ret (Exited format args))).

(** [checkBucket] checks that the bucket is writeable; [cfg] is the
    global configuration, whose prefix names the test object. *)
Definition checkBucket (cfg : Config) (project bucket prefix : string)
  : IO (result unit) :=
  let object := String.append (Prefix cfg) "test" in
  bind (remote (ObjectWrite bucket object "text/plain" [])) (fun err =>
    match err with
    | Some _ =>
        fail cfg "Failed to create file %v in bucket %v."
             [LStr object; LStr bucket]
    | None =>
        (* Clean up test file. *)
        bind (remote (ObjectDelete bucket object)) (fun err =>
          match err with
          | Some _ =>
              bind (Printf "Failed to delete gs://%s/%s"
                           [LStr bucket; LStr object])
                   (fun _ => ret (Value tt))
          | None => ret (Value tt)
          end)
    end).

End CheckBucket.

End Entrypoint.

(** ** Vocabulary of the further properties *)

(** The closure of [MetadataCache.Iterator] called [n] times in a row: its
    answers in order, and the closure afterwards. *)
Fixpoint calls (n : nat) (it : MetadataIter)
  : list (option Metadata) * MetadataIter :=
  match n with
  | O => ([], it)
  | S n' =>
      let '(v, it') := MetadataCache.next it in
      let '(vs, it'') := calls n' it' in
      (v :: vs, it'')
  end.


(** The data cache holds no more items than its capacity. *)
Definition cache_bounded (gd : GCSDatastore) : Prop :=
  GoInt.len (LRU.items (dataCache gd)) <= LRU.size (dataCache gd).

(** The listing of a bucket under the prefix starts with an object. *)
Definition has_contents (it : list (ObjectAttrs + error)) : bool :=
  match it with
  | inl _ :: _ => true
  | _ => false
  end.

(** The listing of a bucket under the prefix starts with an error. *)
Definition listing_fails (it : list (ObjectAttrs + error)) : Prop :=
  exists err rest, it = inr err :: rest /\ err <> IteratorDone.

(** The entry [nextValue] builds for a record when only keys are asked
    for. *)
Definition key_entry (m : Metadata) : DSQ.Entry :=
  {| DSQ.Key := Key m; DSQ.Value := []; DSQ.Size := GoInt.int (Size m) |}.


(** ** Inputs for the further properties *)

Module Examples.

(** A configuration map as the repo's README gives it, with whole numbers
    for the two counts; the stand-in for [float64] are the integers. *)
Definition readme_map : gmap string (Plugin.value Z) :=
  {[ "bucket" := Plugin.VString Z "MYBUCKET";
     "cachesize" := Plugin.VFloat Z 40000;
     "prefix" := Plugin.VString Z "ipfs";
     "type" := Plugin.VString Z "gcsds";
     "workers" := Plugin.VFloat Z 100 ]}.

Definition readme_config : Plugin.GcsConfig :=
  {| Plugin.cfg := {| Bucket := "MYBUCKET"; Prefix := "ipfs";
                      Workers := 100; DataCacheItems := 40000 |} |}.

(** A map without a bucket, and one whose prefix is a number. *)
Definition no_bucket_map : gmap string (Plugin.value Z) :=
  {[ "prefix" := Plugin.VString Z "ipfs" ]}.

Definition bad_prefix_map : gmap string (Plugin.value Z) :=
  {[ "bucket" := Plugin.VString Z "MYBUCKET";
     "prefix" := Plugin.VInt Z 7 ]}.

(** The bucket of the README, empty, in memory. *)
Definition readme_env : Env MemGCS.World := MemGCS.fresh "MYBUCKET".

(** A configuration with a cache size of zero. *)
Definition zero_cache : Config :=
  {| Bucket := Scenario.bucket; Prefix := "ipfs"; Workers := 10;
     DataCacheItems := 0 |}.


(** An adapter whose index holds a key the bucket does not (any more). *)
Definition stale : GCSDatastore :=
  set_mdCache (Scenario.blank (Scenario.cfg "ipfs" 1000))
              (MetadataCache.Put MetadataCache.NewMetadataCache "/gone" 3).

(** A bucket with one object under the prefix, written out of band. *)
Definition one_object : Env MemGCS.World :=
  {| world := {| MemGCS.buckets :=
                   {[ Scenario.bucket :=
                        {[ "ipfs/k1" := Scenario.hello ]} ]};
                 MemGCS.faults := [] |};
     logged := [] |}.

(** An adapter that has read [k1] from that bucket, and the remote
    store after the object was deleted through another adapter. *)
Definition cached_reader : GCSDatastore * Env MemGCS.World :=
  let '((_, _, gd), e) :=
    Get (Scenario.blank (Scenario.cfg "ipfs" 1000)) Scenario.k1 one_object in
  let '((_, _), e) :=
    Delete (Scenario.blank (Scenario.cfg "ipfs" 1000)) Scenario.k1 e in
  (gd, e).

(** The same bucket, with a listing that fails after its first answer:
    the listing of the adapter is given directly. *)
Definition broken_listing : list (ObjectAttrs + error) :=
  [inl {| Name := "ipfs/k1"; ObjSize := 5 |};
   inr (Errorf "connection reset");
   inl {| Name := "ipfs/k2"; ObjSize := 7 |}].

(** A remote whose listing is scripted: it answers every listing with the
    list it holds, and knows no object. *)
Definition scripted_storage : Storage (list (ObjectAttrs + error)) :=
  {| NewClient := fun w => (None, w);
     BucketAttrs := fun _ w => (None, w);
     ObjectWrite := fun _ _ _ _ w => (None, w);
     ObjectProbe := fun _ _ w => (Some ErrObjectNotExist, w);
     ObjectNewReader := fun _ _ w => (inr ErrObjectNotExist, w);
     ObjectDelete := fun _ _ w => (Some ErrObjectNotExist, w);
     Objects := fun _ _ w => (w, w) |}.

Definition broken_env : Env (list (ObjectAttrs + error)) :=
  {| world := broken_listing; logged := [] |}.

(** The query for all keys, with an offset and the sizes asked for. *)
Definition q_offset : DSQ.Query :=
  {| DSQ.Prefix := "/"; DSQ.Filters := []; DSQ.Orders := [];
     DSQ.Limit := 0; DSQ.Offset := 1; DSQ.KeysOnly := true;
     DSQ.ReturnExpirations := false; DSQ.ReturnsSizes := true |}.

(** The entries of the two keys of [Scenario.after_two_puts]. *)
Definition two_entries : list DSQ.Entry :=
  key_entry <$> values (MetadataCache.Iterator
                          Scenario.in_order
                          (mdCache (fst Scenario.after_two_puts)) "/" 0).

(** The entry point without a configured bucket, in a project with a
    registry bucket and two others, of which the second holds data. *)
Definition entry_cfg : Entrypoint.Config :=
  {| Entrypoint.Bucket := ""; Entrypoint.IpfsPath := "/ipfs";
     Entrypoint.Project := "p"; Entrypoint.Prefix := "ipfs/";
     Entrypoint.SleepSeconds := 60 |}.

Definition project_buckets : list (string + error) :=
  [inl "artifacts.p.a.appspot.com"; inl "b1"; inl "b2"].

Definition bucket_objects (b : string) : list (ObjectAttrs + error) :=
  if String.eqb b "b2" then [inl {| Name := "ipfs/k1"; ObjSize := 5 |}] else [].

(** A bucket that holds an object under the name of the test object. *)
Definition test_object_env : Env MemGCS.World :=
  {| world := {| MemGCS.buckets :=
                   {[ Scenario.bucket :=
                        {[ "ipfs/test" := Scenario.hello ]} ]};
                 MemGCS.faults := [] |};
     logged := [] |}.

End Examples.

(** * Properties *)

(** ** Machine integers *)

Section GoIntFacts.

Import GoInt.

Lemma wrap_small z : min_int <= z <= max_int -> wrap 64 z = z.
Proof.
  unfold wrap, min_int, max_int. intros Hz.
  rewrite Z.mod_small; lia.
Qed.

Lemma wrap_range z : min_int <= wrap 64 z <= max_int.
Proof.
  unfold wrap, min_int, max_int.
  pose proof (Z.mod_pos_bound (z + 2 ^ (64 - 1)) (2 ^ 64) ltac:(lia)).
  lia.
Qed.

Lemma int_int64 z : int (int64 z) = int64 z.
Proof. apply wrap_small, wrap_range. Qed.

Lemma len_nonneg {A} (l : list A) : 0 <= len l.
Proof. unfold len. lia. Qed.

(** A slice that fits in memory has a length that survives the round
    trip [int(int64(len(v)))]. *)
Lemma int_int64_len {A} (l : list A) :
  len l <= max_int -> int (int64 (len l)) = len l.
Proof.
  intros Hl. rewrite int_int64. apply wrap_small.
  pose proof (len_nonneg l). unfold min_int. lia.
Qed.

End GoIntFacts.

(** ** Paths and keys *)

Example Clean_examples :
  Path.Clean "ipfs//ABC123" = "ipfs/ABC123"
  /\ Path.Clean "/a/./b/../c/" = "/a/c"
  /\ Path.Clean "../../x" = "../../x"
  /\ Path.Clean "/../x" = "/x"
  /\ Path.Clean "a/b/../../.." = ".."
  /\ Path.Clean "" = "."
  /\ Path.Clean "///" = "/".
Proof. repeat split; reflexivity. Qed.

(** [TestGCSPath] *)
Example TestGCSPath :
  Path.Join ["ipfs"; "ABC123"] = "ipfs/ABC123".
Proof. reflexivity. Qed.

Example NewKey_examples :
  DS.String (DS.NewKey "ABC") = "/ABC"
  /\ DS.String (DS.NewKey "/ABC") = "/ABC"
  /\ DS.String (DS.NewKey "") = "/"
  /\ DS.String (DS.NewKey "/a//b/") = "/a/b".
Proof. repeat split; reflexivity. Qed.

(** ** The LRU cache *)

Section LRUFacts.

Import LRU.

Lemma find_head key v l : find key ((key, v) :: l) = Some v.
Proof. unfold find. simpl. by rewrite String.eqb_refl. Qed.

Lemma find_drop key l : find key (drop key l) = None.
Proof.
  unfold find, drop. induction l as [|[k v] l IH]; simpl; [done|].
  destruct (String.eqb k key) eqn:E; simpl; [done|]. by rewrite E.
Qed.

Lemma find_drop_ne key key' l :
  key <> key' -> find key' (drop key l) = find key' l.
Proof.
  intros Hne. unfold find, drop.
  induction l as [|[k v] l IH]; simpl; [done|].
  destruct (String.eqb k key) eqn:E; simpl.
  - apply String.eqb_eq in E. subst k.
    destruct (String.eqb key key') eqn:E'; [|done].
    apply String.eqb_eq in E'. done.
  - destruct (String.eqb k key'); [done|]. apply IH.
Qed.

(** The entry just added is the most recent one, and a cache that holds
    at least one item does not evict it. *)
Lemma Peek_Add c key v :
  0 < size c -> Peek (fst (Add c key v)) key = Some v.
Proof.
  intros Hpos. unfold Peek, Add.
  destruct (find key (items c)) eqn:E; simpl.
  - apply find_head.
  - destruct (items c) as [|p l] eqn:El.
    + unfold GoInt.len. simpl.
      destruct (size c <? _) eqn:Hlt; [apply Z.ltb_lt in Hlt; lia|].
      apply find_head.
    + destruct (size c <? GoInt.len ((key, v) :: p :: l)); apply find_head.
Qed.

Lemma size_Add c key v : size (fst (Add c key v)) = size c.
Proof. unfold Add. by destruct (find key (items c)). Qed.

Lemma Get_hit c key v :
  Peek c key = Some v ->
  Get c key = ((Some v, true),
               {| size := size c; items := (key, v) :: drop key (items c) |}).
Proof. unfold Peek, Get. by intros ->. Qed.

Lemma Get_miss c key :
  Peek c key = None -> Get c key = ((None, false), c).
Proof. unfold Peek, Get. by intros ->. Qed.

Lemma Peek_Remove c key : Peek (fst (Remove c key)) key = None.
Proof.
  unfold Peek, Remove. destruct (find key (items c)) eqn:E; simpl.
  - apply find_drop.
  - done.
Qed.

Lemma size_Remove c key : size (fst (Remove c key)) = size c.
Proof. unfold Remove. by destruct (find key (items c)). Qed.

Lemma New_positive n c : New n = inl c -> 0 < size c /\ items c = [].
Proof.
  unfold New. destruct (n <=? 0) eqn:E; [done|].
  intros [= <-]. simpl. apply Z.leb_gt in E. done.
Qed.

End LRUFacts.

(** ** The metadata index *)

Section MetadataCacheFacts.

Lemma index_wf_New : index_wf MetadataCache.NewMetadataCache.
Proof. intros k v. simpl. by rewrite lookup_empty. Qed.

Lemma index_wf_Put md key sz :
  GoInt.min_int <= sz <= GoInt.max_int ->
  index_wf md -> index_wf (MetadataCache.Put md key sz).
Proof.
  intros Hsz Hwf k v. simpl. rewrite lookup_insert.
  case_decide; [intros [= <-]; by subst | apply Hwf].
Qed.

Lemma index_wf_Delete md key :
  index_wf md -> index_wf (MetadataCache.Delete md key).
Proof.
  intros Hwf k v. simpl. rewrite lookup_delete.
  case_decide; [done | apply Hwf].
Qed.

Lemma Has_Put md key sz :
  MetadataCache.Has (MetadataCache.Put md key sz) key = true.
Proof. unfold MetadataCache.Has. simpl. by rewrite lookup_insert_eq. Qed.

Lemma Get_Put md key sz :
  MetadataCache.Get (MetadataCache.Put md key sz) key
  = (Some {| Key := key; Size := sz |}, None).
Proof. unfold MetadataCache.Get. simpl. by rewrite lookup_insert_eq. Qed.

Lemma Has_Delete md key :
  MetadataCache.Has (MetadataCache.Delete md key) key = false.
Proof. unfold MetadataCache.Has. simpl. by rewrite lookup_delete_eq. Qed.

Lemma Has_false md key :
  MetadataCache.cache md !! key = None -> MetadataCache.Has md key = false.
Proof. unfold MetadataCache.Has. by intros ->. Qed.

Lemma Get_false md key :
  MetadataCache.cache md !! key = None ->
  MetadataCache.Get md key = (None, Some ErrNotFound).
Proof. unfold MetadataCache.Get. by intros ->. Qed.

(** [TestEntry] *)
Example TestEntry :
  let md := MetadataCache.NewMetadataCache in
  MetadataCache.Has md "/k" = false
  /\ MetadataCache.Has (MetadataCache.Put md "/k" 1000) "/k" = true
  /\ MetadataCache.Get (MetadataCache.Put md "/k" 1000) "/k"
     = (Some {| Key := "/k"; Size := 1000 |}, None)
  /\ MetadataCache.Has
       (MetadataCache.Delete (MetadataCache.Put md "/k" 1000) "/k") "/k"
     = false.
Proof. repeat split; vm_compute; reflexivity. Qed.

End MetadataCacheFacts.

(** ** The adapter: put, get, has, size, delete *)

Ltac io_simpl := unfold bind, ret, remote, Printf in *; simpl in *.

Section AdapterFacts.

Context {W : Type} `{Storage W}.

Lemma set_dataCache_same gd : set_dataCache gd (dataCache gd) = gd.
Proof. by destruct gd. Qed.

(** What [Put] does, by the answer of the remote write. *)
Lemma Put_unfold gd k v (e : Env W) :
  Put gd k v e =
  let '(err, w) :=
    ObjectWrite (Bucket (config gd)) (GCSPath gd (DS.String k))
                "text/plain" v (world e) in
  match err with
  | Some err =>
      ((Some err, gd),
       {| world := w;
          logged := logged e ++
            [{| format := "Unable to close file key: %v size: %v err: %v";
                args := [LStr (DS.String k); LInt (GoInt.len v); LErr err] |}]
       |})
  | None =>
      ((None,
        set_dataCache
          (set_mdCache gd
             (MetadataCache.Put (mdCache gd) (DS.String k)
                                (GoInt.int64 (GoInt.len v))))
          (fst (LRU.Add (dataCache gd) (DS.String k) (LRU.Bytes v)))),
       {| world := w; logged := logged e |})
  end.
Proof.
  unfold Put. io_simpl.
  destruct (ObjectWrite _ _ _ _ _) as [[err|] w]; reflexivity.
Qed.

(** C1. After a [Put(k, v)] that returned success, and with nothing in
    between, [Has(k)] is true, [GetSize(k)] is [len(v)] and [Get(k)]
    returns exactly the bytes [v]. The cache capacity is positive, as
    [NewGCSDatastore] guarantees, and [v] is a slice Go can hold. *)
Theorem put_then_read (gd gd1 : GCSDatastore) (k : DS.Key) (v : bytes)
        (e e1 : Env W) :
  0 < LRU.size (dataCache gd) ->
  GoInt.len v <= GoInt.max_int ->
  Put gd k v e = ((None, gd1), e1) ->
  Has gd1 k e1 = ((true, None, gd1), e1)
  /\ GetSize gd1 k e1 = ((GoInt.len v, None, gd1), e1)
  /\ exists gd2,
      Get gd1 k e1 = ((v, None, gd2), e1)
      /\ mdCache gd2 = mdCache gd1.
Proof.
  intros Hcap Hlen HPut. rewrite Put_unfold in HPut.
  destruct (ObjectWrite _ _ _ _ _) as [[err|] w]; [discriminate|].
  injection HPut as <- <-.
  split; [|split].
  - unfold Has, ret. simpl. by rewrite Has_Put.
  - unfold GetSize, ret. simpl. rewrite Get_Put. simpl.
    by rewrite int_int64_len.
  - unfold Get. simpl.
    rewrite (Get_hit _ _ (LRU.Bytes v)) by by apply Peek_Add.
    eexists. split; reflexivity.
Qed.

(** C5. When the remote write of [Put(k, v)] reports an error, [Put]
    returns that very error and the adapter is as before: neither the
    index nor the data cache has changed. *)
Theorem put_failure_changes_nothing (gd : GCSDatastore) (k : DS.Key)
        (v : bytes) (e : Env W) (err : error) (w : W) :
  ObjectWrite (Bucket (config gd)) (GCSPath gd (DS.String k))
              "text/plain" v (world e) = (Some err, w) ->
  exists gd' e',
    Put gd k v e = ((Some err, gd'), e')
    /\ mdCache gd' = mdCache gd
    /\ dataCache gd' = dataCache gd
    /\ world e' = w.
Proof.
  intros Hw. rewrite Put_unfold, Hw. do 2 eexists. repeat split.
Qed.

(** Conversely, a [Put] that returns an error has left the adapter
    alone, whatever the remote did. *)
Lemma Put_error_frame gd k v (e : Env W) err gd' e' :
  Put gd k v e = ((Some err, gd'), e') -> gd' = gd.
Proof.
  rewrite Put_unfold.
  destruct (ObjectWrite _ _ _ _ _) as [[err0|] w]; [|discriminate].
  by intros [= _ <- _].
Qed.

(** C9. [Sync] returns nil and changes nothing: the index, the data
    cache, the remote store and the log are as before. *)
Theorem sync_is_a_no_op (gd : GCSDatastore) (prefix : DS.Key) (e : Env W) :
  Sync gd prefix e = ((None, gd), e).
Proof. reflexivity. Qed.

(** C10. [Batch] returns a nil batch with a nil error, a caller that
    checks only the error then dereferences nil, and the call leaves the
    adapter and the remote store as they were (it writes one log
    line). *)
Theorem batch_returns_nil (gd : GCSDatastore) (e : Env W) :
  exists e',
    Batch gd e = ((None, None, gd), e')
    /\ world e' = world e
    /\ batch_caller gd e = (NilDereference, e').
Proof. eexists. repeat split. Qed.

(** What [Delete] does, by the answer of the remote delete. *)
Lemma Delete_unfold gd k (e : Env W) :
  Delete gd k e =
  let '(err, w) :=
    ObjectDelete (Bucket (config gd)) (GCSPath gd (DS.String k)) (world e) in
  let e' := {| world := w; logged := logged e |} in
  match err with
  | None | Some ErrObjectNotExist =>
      ((None,
        set_dataCache
          (set_mdCache gd (MetadataCache.Delete (mdCache gd) (DS.String k)))
          (fst (LRU.Remove (dataCache gd) (DS.String k)))),
       e')
  | Some err => ((Some err, gd), e')
  end.
Proof.
  unfold Delete. io_simpl.
  destruct (ObjectDelete _ _ _) as [[[]|] w]; reflexivity.
Qed.

(** C4. [Delete(k)] succeeds when the remote delete succeeds or reports
    that the object does not exist; [k] is then gone from the index and
    from the data cache, [Has(k)] is false, and a second [Delete(k)]
    succeeds again under the same condition. Any other remote error is
    returned and the index and the data cache are left as they were. *)
Theorem delete_is_idempotent (gd : GCSDatastore) (k : DS.Key) (e : Env W)
        (r : option error) (w : W) :
  ObjectDelete (Bucket (config gd)) (GCSPath gd (DS.String k)) (world e)
    = (r, w) ->
  let e' := {| world := w; logged := logged e |} in
  (r = None \/ r = Some ErrObjectNotExist ->
   exists gd',
     Delete gd k e = ((None, gd'), e')
     /\ mdCache gd' = MetadataCache.Delete (mdCache gd) (DS.String k)
     /\ MetadataCache.cache (mdCache gd') !! DS.String k = None
     /\ LRU.Peek (dataCache gd') (DS.String k) = None
     /\ Has gd' k e' = ((false, None, gd'), e')
     /\ forall r2 w2,
          ObjectDelete (Bucket (config gd')) (GCSPath gd' (DS.String k)) w
            = (r2, w2) ->
          r2 = None \/ r2 = Some ErrObjectNotExist ->
          exists gd'', Delete gd' k e'
                       = ((None, gd''), {| world := w2; logged := logged e |}))
  /\ (forall err, r = Some err -> err <> ErrObjectNotExist ->
      Delete gd k e = ((Some err, gd), e')).
Proof.
  intros Hdel e'. split.
  - intros Hr. eexists. split; [|split; [|split; [|split; [|split]]]].
    + rewrite Delete_unfold, Hdel. by destruct Hr as [-> | ->].
    + reflexivity.
    + simpl. apply lookup_delete_eq.
    + simpl. apply Peek_Remove.
    + unfold Has, ret. simpl. by rewrite Has_Delete.
    + intros r2 w2 Hdel2 Hr2. eexists.
      rewrite Delete_unfold. simpl in *. rewrite Hdel2.
      by destruct Hr2 as [-> | ->].
  - intros err -> Hne. rewrite Delete_unfold, Hdel.
    by destruct err.
Qed.

Lemma Has_unfold gd k (e : Env W) :
  Has gd k e
  = ((MetadataCache.Has (mdCache gd) (DS.String k), None, gd), e).
Proof. reflexivity. Qed.

Lemma GetSize_unfold gd k (e : Env W) :
  GetSize gd k e =
  ((match MetadataCache.cache (mdCache gd) !! DS.String k with
    | Some md => (GoInt.int (Size md), None)
    | None => (-1, Some ErrNotFound)
    end, gd), e).
Proof.
  unfold GetSize, MetadataCache.Get.
  by destruct (MetadataCache.cache (mdCache gd) !! DS.String k).
Qed.

(** C7, amended. A key the index does not hold (no [Put] of it
    succeeded and [LoadMetadata] did not record it): [Has] is false with
    a nil error and [GetSize] fails with NotFound. [Get] fails with
    NotFound when, moreover, the data cache does not hold the key and
    the remote store reports the object as not existing; when the data
    cache holds bytes for the key, left by an earlier [Get], [Get]
    returns them without a look at the remote store. [Has] and [GetSize]
    are functions of the index alone and leave the remote store and the
    log untouched, for every key and state. *)
Theorem absent_key_not_found (gd : GCSDatastore) (k : DS.Key) (e : Env W) :
  MetadataCache.cache (mdCache gd) !! DS.String k = None ->
  Has gd k e = ((false, None, gd), e)
  /\ GetSize gd k e = ((-1, Some ErrNotFound, gd), e)
  /\ (forall w,
        LRU.Peek (dataCache gd) (DS.String k) = None ->
        ObjectProbe (Bucket (config gd)) (GCSPath gd (DS.String k)) (world e)
          = (Some ErrObjectNotExist, w) ->
        Get gd k e
        = (([], Some ErrNotFound, gd), {| world := w; logged := logged e |}))
  /\ (forall b,
        LRU.Peek (dataCache gd) (DS.String k) = Some (LRU.Bytes b) ->
        exists gd', Get gd k e = ((b, None, gd'), e)
                    /\ mdCache gd' = mdCache gd)
  /\ (forall gd0 k0 (e0 : Env W),
        Has gd0 k0 e0
        = ((MetadataCache.Has (mdCache gd0) (DS.String k0), None, gd0), e0))
  /\ (forall gd0 k0 (e0 : Env W),
        GetSize gd0 k0 e0
        = ((match MetadataCache.Get (mdCache gd0) (DS.String k0) with
            | (Some md, None) => (GoInt.int (Size md), None)
            | (_, err) => (-1, err)
            end, gd0), e0)).
Proof.
  intros Hidx. split; [|split; [|split; [|split; [|split]]]].
  - rewrite Has_unfold. by rewrite Has_false.
  - rewrite GetSize_unfold. by rewrite Hidx.
  - intros w Hcache Hprobe. unfold Get. rewrite Get_miss by done.
    rewrite set_dataCache_same. unfold Get_remote. io_simpl.
    by rewrite Hprobe.
  - intros b Hhit. unfold Get. rewrite (Get_hit _ _ _ Hhit). simpl.
    eexists. split; reflexivity.
  - reflexivity.
  - intros gd0 k0 e0. unfold GetSize, MetadataCache.Get.
    by destruct (MetadataCache.cache (mdCache gd0) !! DS.String k0).
Qed.

(** C6. A query with a non-empty list of orders or of filters is refused
    with the UnsupportedQuery error and no results, whatever its other
    fields and whatever the index holds; the adapter and the remote
    store are left as they were. *)
Theorem query_refuses_orders_and_filters (order : MetadataCache.traversal)
        (gd : GCSDatastore) (q : DSQ.Query) (e : Env W) :
  DSQ.Orders q <> [] \/ DSQ.Filters q <> [] ->
  exists e',
    Query order gd q e = ((None, Some UnsupportedQuery, gd), e')
    /\ world e' = world e.
Proof.
  intros Hq. unfold Query.
  assert ((0 <? GoInt.len (DSQ.Orders q)) || (0 <? GoInt.len (DSQ.Filters q))
          = true) as ->.
  { unfold GoInt.len.
    destruct Hq as [Hq | Hq];
      [destruct (DSQ.Orders q) | destruct (DSQ.Filters q)];
      try done; simpl; by rewrite ?orb_true_r. }
  eexists. split; reflexivity.
Qed.

End AdapterFacts.

(** ** The snapshot of [MetadataCache.Iterator] *)

Section IteratorFacts.

Lemma prefixed_nil prefix : prefixed prefix [] = [].
Proof. reflexivity. Qed.

Lemma prefixed_cons_hit prefix k v rest :
  Strings.HasPrefix k prefix = true ->
  prefixed prefix ((k, v) :: rest) = v :: prefixed prefix rest.
Proof. intros Hp. unfold prefixed. by rewrite filter_cons_True. Qed.

Lemma prefixed_cons_skip prefix k v rest :
  Strings.HasPrefix k prefix = false ->
  prefixed prefix ((k, v) :: rest) = prefixed prefix rest.
Proof.
  intros Hp. unfold prefixed. rewrite filter_cons_False; [done|].
  simpl. by rewrite Hp.
Qed.

(** Without a limit the loop collects every record under the prefix, in
    the order of the traversal. *)
Lemma Iterator_loop_unlimited visit prefix limit acc count :
  limit <= 0 ->
  MetadataCache.Iterator_loop visit prefix limit acc count
  = acc ++ prefixed prefix visit.
Proof.
  intros Hl. revert acc count.
  induction visit as [|[k v] rest IH]; intros acc count; simpl.
  - by rewrite prefixed_nil, app_nil_r.
  - assert ((0 <? limit) = false) as Hlt by by apply Z.ltb_ge.
    destruct (Strings.HasPrefix k prefix) eqn:Hp; rewrite Hlt; simpl.
    + rewrite IH, prefixed_cons_hit by done. by rewrite <- app_assoc.
    + by rewrite IH, prefixed_cons_skip.
Qed.

(** With a limit it stops at the [limit]-th record under the prefix. *)
Lemma Iterator_loop_limited visit prefix limit acc count :
  0 <= count < limit ->
  MetadataCache.Iterator_loop visit prefix limit acc count
  = acc ++ take (Z.to_nat (limit - count)) (prefixed prefix visit).
Proof.
  revert acc count.
  induction visit as [|[k v] rest IH]; intros acc count Hc; simpl.
  - by rewrite prefixed_nil, take_nil, app_nil_r.
  - assert ((0 <? limit) = true) as Hlt by (apply Z.ltb_lt; lia).
    destruct (Strings.HasPrefix k prefix) eqn:Hp; rewrite Hlt; simpl.
    + rewrite prefixed_cons_hit by done.
      replace (Z.to_nat (limit - count))
        with (S (Z.to_nat (limit - (count + 1)))) by lia.
      simpl. destruct (count + 1 =? limit) eqn:Heq.
      * apply Z.eqb_eq in Heq.
        replace (Z.to_nat (limit - (count + 1))) with 0%nat by lia.
        by rewrite take_0.
      * apply Z.eqb_neq in Heq. rewrite IH by lia.
        by rewrite <- app_assoc.
    + rewrite prefixed_cons_skip by done.
      destruct (count =? limit) eqn:Heq;
        [apply Z.eqb_eq in Heq; lia|].
      by apply IH.
Qed.

(** The snapshot, in both cases. *)
Lemma Iterator_values order md prefix limit :
  values (MetadataCache.Iterator order md prefix limit)
  = if 0 <? limit
    then take (Z.to_nat limit)
              (prefixed prefix (MetadataCache.range order md))
    else prefixed prefix (MetadataCache.range order md).
Proof.
  unfold MetadataCache.Iterator. simpl.
  destruct (0 <? limit) eqn:Hl.
  - apply Z.ltb_lt in Hl. rewrite Iterator_loop_limited by lia.
    simpl. by rewrite Z.sub_0_r.
  - apply Z.ltb_ge in Hl. by rewrite Iterator_loop_unlimited.
Qed.

Lemma Iterator_values_sublist order md prefix limit :
  values (MetadataCache.Iterator order md prefix limit)
  `sublist_of` prefixed prefix (MetadataCache.range order md).
Proof.
  rewrite Iterator_values. destruct (0 <? limit); [apply sublist_take|done].
Qed.

Lemma Iterator_values_length order md prefix limit :
  0 < limit ->
  GoInt.len (values (MetadataCache.Iterator order md prefix limit)) <= limit.
Proof.
  intros Hl. rewrite Iterator_values.
  assert ((0 <? limit) = true) as -> by by apply Z.ltb_lt.
  unfold GoInt.len. rewrite length_take. lia.
Qed.

Context (order : MetadataCache.traversal) (md : MetadataCache.t).
Hypothesis Hfair : MetadataCache.ranges order md.
Hypothesis Hwf : index_wf md.

(** Over a traversal that visits every entry once, the records under the
    prefix are those of the index. *)
Lemma elem_of_prefixed prefix v :
  v ∈ prefixed prefix (MetadataCache.range order md)
  <-> MetadataCache.cache md !! Key v = Some v
      /\ Strings.HasPrefix (Key v) prefix = true.
Proof.
  unfold prefixed. rewrite list_elem_of_fmap. split.
  - intros ([k v'] & -> & Hin). apply list_elem_of_filter in Hin.
    destruct Hin as [Hp Hin]. rewrite Hfair in Hin.
    apply elem_of_map_to_list in Hin. simpl in *.
    destruct (Hwf _ _ Hin) as [-> _]. done.
  - intros [Hin Hp]. exists (Key v, v). split; [done|].
    apply list_elem_of_filter. split; [done|].
    rewrite Hfair. by apply elem_of_map_to_list.
Qed.

Lemma prefixed_keys prefix :
  Key <$> prefixed prefix (MetadataCache.range order md)
  = (filter (fun kv => Strings.HasPrefix (fst kv) prefix = true)
            (MetadataCache.range order md)).*1.
Proof.
  unfold prefixed. rewrite <- list_fmap_compose.
  apply list_fmap_ext. intros n [k v] Hin. simpl.
  apply list_elem_of_lookup_2, list_elem_of_filter in Hin. destruct Hin as [_ Hin].
  rewrite Hfair in Hin. apply elem_of_map_to_list in Hin.
  by destruct (Hwf _ _ Hin).
Qed.

Lemma NoDup_prefixed_keys prefix :
  NoDup (Key <$> prefixed prefix (MetadataCache.range order md)).
Proof.
  rewrite prefixed_keys.
  eapply sublist_NoDup; [|apply fmap_sublist, sublist_filter].
  rewrite Hfair. apply NoDup_fst_map_to_list.
Qed.

Lemma NoDup_Iterator_keys prefix limit :
  NoDup (Key <$> values (MetadataCache.Iterator order md prefix limit)).
Proof.
  eapply sublist_NoDup; [apply NoDup_prefixed_keys|].
  apply fmap_sublist, Iterator_values_sublist.
Qed.

Lemma elem_of_Iterator prefix limit v :
  v ∈ values (MetadataCache.Iterator order md prefix limit) ->
  MetadataCache.cache md !! Key v = Some v
  /\ Strings.HasPrefix (Key v) prefix = true.
Proof.
  intros Hin. apply elem_of_prefixed.
  eapply sublist_subseteq; [apply Iterator_values_sublist | done].
Qed.

Lemma Iterator_complete prefix limit k v :
  limit <= 0 ->
  MetadataCache.cache md !! k = Some v ->
  Strings.HasPrefix k prefix = true ->
  v ∈ values (MetadataCache.Iterator order md prefix limit).
Proof.
  intros Hl Hk Hp. rewrite Iterator_values.
  assert ((0 <? limit) = false) as -> by by apply Z.ltb_ge.
  apply elem_of_prefixed. destruct (Hwf _ _ Hk) as [-> _]. done.
Qed.

End IteratorFacts.

(** ** Queries *)

Section QueryFacts.

Context {W : Type} `{Storage W}.

Lemma Get_remote_mdCache gd key (e : Env W) :
  mdCache (snd (fst (Get_remote gd key e))) = mdCache gd.
Proof.
  unfold Get_remote. io_simpl.
  destruct (ObjectProbe _ _ _) as [[err|] w]; simpl.
  - by destruct (err_is (Some err) ErrObjectNotExist).
  - destruct (ObjectNewReader _ _ _) as [[rd|err] w']; reflexivity.
Qed.

(** [Get] never touches the index. *)
Lemma Get_mdCache gd k (e : Env W) :
  mdCache (snd (fst (Get gd k e))) = mdCache gd.
Proof.
  unfold Get.
  destruct (LRU.Get (dataCache gd) (DS.String k)) as [[[[b|tag]|] [|]] c];
    try reflexivity; io_simpl;
    try apply (Get_remote_mdCache (set_dataCache gd c)).
Qed.

Lemma next_in_range vs n v :
  vs !! n = Some v ->
  MetadataCache.next {| values := vs; i := n |}
  = (Some v, {| values := vs; i := S n |}).
Proof.
  intros Hv. unfold MetadataCache.next. simpl.
  pose proof (lookup_lt_Some _ _ _ Hv) as Hlt.
  destruct (length vs <=? n)%nat eqn:Hle; [apply Nat.leb_le in Hle; lia|].
  by rewrite Hv.
Qed.

Lemma next_exhausted vs n :
  (length vs <= n)%nat ->
  MetadataCache.next {| values := vs; i := n |}
  = (None, {| values := vs; i := n |}).
Proof.
  intros Hle. unfold MetadataCache.next. simpl.
  by apply Nat.leb_le in Hle as ->.
Qed.

(** One call of [Next] past the end of the snapshot. *)
Lemma nextValue_exhausted q vs n gd (e : Env W) :
  (length vs <= n)%nat ->
  nextValue gd {| query := q; metadata := {| values := vs; i := n |} |} e
  = (({| DSQ.entry := DSQ.empty_entry; DSQ.Error := Some ErrNotFound |},
      false,
      {| query := q; metadata := {| values := vs; i := n |} |}, gd), e).
Proof.
  intros Hle. unfold nextValue. cbn [query metadata].
  by rewrite next_exhausted.
Qed.

(** One call of [Next] on a record of the snapshot. *)
Lemma nextValue_step q vs n v gd (e : Env W) :
  vs !! n = Some v ->
  nextValue gd {| query := q; metadata := {| values := vs; i := n |} |} e
  = let r' := {| query := q;
                 metadata := {| values := vs; i := S n |} |} in
    if DSQ.KeysOnly q
    then (({| DSQ.entry := {| DSQ.Key := Key v; DSQ.Value := [];
                              DSQ.Size := GoInt.int (Size v) |};
              DSQ.Error := None |}, true, r', gd), e)
    else
      let '((value, err, gd'), e') := Get gd (DS.NewKey (Key v)) e in
      match err with
      | Some er =>
          (({| DSQ.entry := DSQ.empty_entry; DSQ.Error := Some er |},
            false, r', gd'),
           {| world := world e';
              logged := logged e' ++
                [{| format := "GCSDatastore: Error getting value. err: %v";
                    args := [LErr er] |}] |})
      | None =>
          (({| DSQ.entry := {| DSQ.Key := Key v; DSQ.Value := value;
                               DSQ.Size := GoInt.int (Size v) |};
               DSQ.Error := None |}, true, r', gd'), e')
      end.
Proof.
  intros Hv. unfold nextValue. cbn [query metadata].
  rewrite (next_in_range _ _ _ Hv).
  destruct (DSQ.KeysOnly q); simpl; [reflexivity|].
  unfold bind.
  destruct (Get gd (DS.NewKey (Key v)) e) as [[[value [er|]] gd'] e'];
    reflexivity.
Qed.

Lemma drain_S fuel gd r es (e : Env W) :
  drain (S fuel) gd r es e
  = let '((res, ok, r', gd'), e') := nextValue gd r e in
    if negb ok then ((Some (es, res), r', gd'), e')
    else drain fuel gd' r' (es ++ [DSQ.entry res]) e'.
Proof.
  simpl. unfold bind.
  destruct (nextValue gd r e) as [[[[res ok] r'] gd'] e'].
  by destruct ok.
Qed.

(** Reading the results to the end: the entries show the records of the
    snapshot from the cursor on, in order, up to the first value that
    could not be fetched; with [KeysOnly] nothing is fetched and all of
    them are shown. The index is not touched on the way. *)
Lemma drain_spec q vs fuel :
  forall n gd (e : Env W) es,
    (length vs - n < fuel)%nat ->
    exists m es2 last r2 gd2 e2,
      drain fuel gd {| query := q;
                       metadata := {| values := vs; i := n |} |} es e
      = ((Some (es2, last), r2, gd2), e2)
      /\ key_size <$> es2
         = (key_size <$> es) ++ (shown <$> take m (drop n vs))
      /\ mdCache gd2 = mdCache gd
      /\ (DSQ.KeysOnly q = true ->
          take m (drop n vs) = drop n vs /\ gd2 = gd /\ e2 = e).
Proof.
  induction fuel as [|fuel IH]; intros n gd e es Hfuel; [lia|].
  rewrite drain_S.
  destruct (decide (length vs <= n)%nat) as [Hend | Hmore].
  - rewrite nextValue_exhausted by done. simpl.
    exists 0%nat. do 5 eexists.
    split; [reflexivity|]. rewrite take_0, app_nil_r.
    split; [done|]. split; [done|]. intros _.
    by rewrite drop_ge by done.
  - destruct (lookup_lt_is_Some_2 vs n ltac:(lia)) as [v Hv].
    rewrite (nextValue_step _ _ _ _ _ _ Hv). cbv zeta.
    rewrite (drop_S _ _ _ Hv).
    destruct (DSQ.KeysOnly q) eqn:Hkeys.
    + simpl negb. cbv iota. simpl DSQ.entry.
      destruct (IH (S n) gd e
                   (es ++ [{| DSQ.Key := Key v; DSQ.Value := [];
                              DSQ.Size := GoInt.int (Size v) |}])
                   ltac:(lia))
        as (m & es2 & last & r2 & gd2 & e2 & Hd & Hes & Hmd & Hall).
      exists (S m), es2, last, r2, gd2, e2.
      split; [exact Hd|]. simpl.
      split; [|split; [done|]].
      * rewrite Hes, fmap_app, <- app_assoc. reflexivity.
      * intros _. destruct (Hall eq_refl) as (-> & -> & ->). done.
    + pose proof (Get_mdCache gd (DS.NewKey (Key v)) e) as HG.
      destruct (Get gd (DS.NewKey (Key v)) e) as [[[value err] gd'] e'].
      simpl in HG. destruct err as [err|].
      * simpl. exists 0%nat. do 5 eexists.
        split; [reflexivity|]. rewrite take_0, app_nil_r.
        split; [done|]. split; [done|]. intros [=].
      * simpl negb. cbv iota. simpl DSQ.entry.
        destruct (IH (S n) gd' e'
                     (es ++ [{| DSQ.Key := Key v; DSQ.Value := value;
                                DSQ.Size := GoInt.int (Size v) |}])
                     ltac:(lia))
          as (m & es2 & last & r2 & gd2 & e2 & Hd & Hes & Hmd & Hall).
        exists (S m), es2, last, r2, gd2, e2.
        split; [exact Hd|]. simpl.
        split; [|split; [congruence|intros [=]]].
        rewrite Hes, fmap_app, <- app_assoc. reflexivity.
Qed.

(** What [Query] answers when the request has neither orders nor
    filters. *)
Lemma Query_accepts order gd q (e : Env W) :
  DSQ.Orders q = [] -> DSQ.Filters q = [] ->
  exists e1,
    Query order gd q e
    = ((Some {| query := q;
                metadata := MetadataCache.Iterator order (mdCache gd)
                              (DSQ.Prefix q) (DSQ.Limit q) |},
        None, gd), e1)
    /\ world e1 = world e.
Proof.
  intros Ho Hf. unfold Query. rewrite Ho, Hf. simpl.
  destruct (DSQ.KeysOnly q); eexists; split; reflexivity.
Qed.

Lemma entries_keys (es : list DSQ.Entry) (vs : list Metadata) :
  key_size <$> es = shown <$> vs -> DSQ.Key <$> es = Key <$> vs.
Proof.
  intros Heq. apply (f_equal (fmap fst)) in Heq.
  by rewrite <- !list_fmap_compose in Heq.
Qed.

Lemma entries_shown (es : list DSQ.Entry) (vs : list Metadata) en :
  key_size <$> es = shown <$> vs -> en ∈ es ->
  exists v, v ∈ vs /\ DSQ.Key en = Key v
            /\ DSQ.Size en = GoInt.int (Size v).
Proof.
  intros Heq Hin.
  assert (key_size en ∈ shown <$> vs) as Hks.
  { rewrite <- Heq. apply list_elem_of_fmap. by exists en. }
  apply list_elem_of_fmap in Hks as (v & Hv & Hvin).
  exists v. by injection Hv as -> ->.
Qed.

(** With [KeysOnly] the reading meets every record of the snapshot and
    ends with the end of the results, in the state it started in. *)
Lemma drain_keys_only q vs fuel :
  DSQ.KeysOnly q = true ->
  forall n gd (e : Env W) es,
    (length vs - n < fuel)%nat ->
    exists r2,
      drain fuel gd {| query := q; metadata := {| values := vs; i := n |} |}
            es e
      = ((Some (es ++ (key_entry <$> drop n vs),
                {| DSQ.entry := DSQ.empty_entry;
                   DSQ.Error := Some ErrNotFound |}),
          r2, gd), e).
Proof.
  intros Hkeys. induction fuel as [|fuel IH]; intros n gd e es Hfuel; [lia|].
  rewrite drain_S.
  destruct (decide (length vs <= n)%nat) as [Hend | Hmore].
  - rewrite nextValue_exhausted by done. simpl.
    rewrite drop_ge by done. simpl. rewrite app_nil_r. by eexists.
  - destruct (lookup_lt_is_Some_2 vs n ltac:(lia)) as [v Hv].
    rewrite (nextValue_step _ _ _ _ _ _ Hv). cbv zeta. rewrite Hkeys.
    simpl negb. cbv iota. simpl DSQ.entry.
    destruct (IH (S n) gd e (es ++ [key_entry v]) ltac:(lia)) as [r2 Hd].
    exists r2. unfold key_entry in Hd at 1. rewrite Hd.
    rewrite (drop_S _ _ _ Hv). simpl. by rewrite <- app_assoc.
Qed.

(** The entries [fetch] gives show the first records of the list, all
    of them when no fetch failed and fewer when one did. *)
Lemma fetch_shape gd vs (e : Env W) :
  key_size <$> fst (fst (fetch gd vs e))
  = shown <$> take (length (fst (fst (fetch gd vs e)))) vs
  /\ (snd (fst (fetch gd vs e)) = None ->
      length (fst (fst (fetch gd vs e))) = length vs)
  /\ (forall err, snd (fst (fetch gd vs e)) = Some err ->
                  (length (fst (fst (fetch gd vs e))) < length vs)%nat).
Proof.
  revert gd e. induction vs as [|v vs IH]; intros gd e; cbn [fetch].
  - split; [done|]. split; [done|]. intros err [=].
  - destruct (Get gd (DS.NewKey (Key v)) e) as [[[value [err|]] gd'] e'].
    + cbn. split; [done|]. split; [intros [=]|]. intros _ _. lia.
    + specialize (IH gd' e').
      destruct (fetch gd' vs e') as [[es err] st]. cbn in *.
      destruct IH as (H1 & H2 & H3).
      split; [by rewrite H1|].
      split; [intros Hn; by rewrite H2|].
      intros err' He. specialize (H3 _ He). lia.
Qed.

(** When the values are asked for, the reading fetches them as [fetch]
    does, and the answer that ends it carries the error of the fetch
    that failed. *)
Lemma drain_values q vs fuel :
  DSQ.KeysOnly q = false ->
  forall n gd (e : Env W) es,
    (length vs - n < fuel)%nat ->
    exists r2 gd2 e2,
      drain fuel gd {| query := q; metadata := {| values := vs; i := n |} |}
            es e
      = ((Some (es ++ fst (fst (fetch gd (drop n vs) e)),
                {| DSQ.entry := DSQ.empty_entry;
                   DSQ.Error :=
                     Some (default ErrNotFound
                                   (snd (fst (fetch gd (drop n vs) e)))) |}),
          r2, gd2), e2).
Proof.
  intros Hk. induction fuel as [|fuel IH]; intros n gd e es Hfuel; [lia|].
  rewrite drain_S.
  destruct (decide (length vs <= n)%nat) as [Hend | Hmore].
  - rewrite nextValue_exhausted by done. simpl.
    rewrite drop_ge by done. simpl. rewrite app_nil_r. by do 3 eexists.
  - destruct (lookup_lt_is_Some_2 vs n ltac:(lia)) as [v Hv].
    rewrite (nextValue_step _ _ _ _ _ _ Hv). cbv zeta. rewrite Hk.
    rewrite (drop_S _ _ _ Hv). cbn [fetch].
    destruct (Get gd (DS.NewKey (Key v)) e) as [[[value [err|]] gd'] e'].
    + simpl. rewrite app_nil_r. by do 3 eexists.
    + simpl negb. cbv iota. simpl DSQ.entry.
      destruct (IH (S n) gd' e'
                   (es ++ [{| DSQ.Key := Key v; DSQ.Value := value;
                              DSQ.Size := GoInt.int (Size v) |}])
                   ltac:(lia)) as (r2 & gd2 & e2 & Hd).
      rewrite Hd.
      destruct (fetch gd' (drop (S n) vs) e') as [[es' err'] st]. simpl.
      rewrite <- app_assoc. by do 3 eexists.
Qed.

(** Entries that show the first [m] records of the snapshot are for
    indexed keys under the prefix, each once; and for all of them when
    they show the whole snapshot. *)
Lemma shown_entries order gd q (es : list DSQ.Entry) (m : nat) :
  MetadataCache.ranges order (mdCache gd) ->
  index_wf (mdCache gd) ->
  key_size <$> es = shown <$> take m (snapshot order gd q) ->
  query_sound gd q es
  /\ NoDup (DSQ.Key <$> es)
  /\ (length es = length (snapshot order gd q) -> query_complete gd q es)
  /\ (forall v, v ∈ drop m (snapshot order gd q) ->
                Key v ∉ DSQ.Key <$> es).
Proof.
  intros Hfair Hwf Hes. unfold snapshot in *.
  set (vs := values (MetadataCache.Iterator order (mdCache gd)
                                            (DSQ.Prefix q) (DSQ.Limit q)))
    in *.
  assert (take m vs ⊆ vs) as Hsub by apply subseteq_take.
  pose proof (NoDup_Iterator_keys order _ Hfair Hwf (DSQ.Prefix q)
                                  (DSQ.Limit q)) as Hnd.
  fold vs in Hnd.
  split; [|split; [|split]].
  - split; [|split].
    + apply Forall_forall. intros en Hin.
      destruct (entries_shown _ _ _ Hes Hin) as (v & Hv & Hk & Hsz).
      apply Hsub, (elem_of_Iterator order _ Hfair Hwf) in Hv as [Hv _].
      exists v. rewrite Hk. split; [done|].
      rewrite Hsz. apply wrap_small. by destruct (Hwf _ _ Hv).
    + intros k Hk. rewrite (entries_keys _ _ Hes) in Hk.
      apply list_elem_of_fmap in Hk as (v & -> & Hv).
      apply Hsub, (elem_of_Iterator order _ Hfair Hwf) in Hv as [Hv Hp].
      split; [by eexists | done].
    + intros Hl.
      pose proof (Iterator_values_length order (mdCache gd)
                                         (DSQ.Prefix q) _ Hl) as Hlen.
      fold vs in Hlen. unfold GoInt.len in *.
      apply (f_equal length) in Hes.
      rewrite !length_fmap, length_take in Hes. lia.
  - rewrite (entries_keys _ _ Hes).
    eapply sublist_NoDup; [exact Hnd|].
    apply fmap_sublist, sublist_take.
  - intros Hlen Hl k [[v Hv] Hp].
    rewrite (entries_keys _ _ Hes).
    assert (take m vs = vs) as ->.
    { apply (f_equal length) in Hes.
      rewrite !length_fmap, length_take in Hes.
      apply take_ge. lia. }
    apply list_elem_of_fmap. exists v.
    split; [by destruct (Hwf _ _ Hv) as [-> _]|].
    by apply (Iterator_complete order _ Hfair Hwf _ _ k).
  - intros v Hv. rewrite (entries_keys _ _ Hes).
    rewrite <- (take_drop m vs), fmap_app in Hnd.
    apply NoDup_app in Hnd as (_ & Hdisj & _).
    intros Hin. apply (Hdisj _ Hin).
    apply list_elem_of_fmap. by exists v.
Qed.

(** What reading the results of a query gives, with the answer that
    ends the reading. *)
Lemma query_run order gd q (e : Env W) :
  DSQ.Orders q = [] -> DSQ.Filters q = [] ->
  exists es last,
    reads order gd q e es last
    /\ key_size <$> es = shown <$> take (length es) (snapshot order gd q)
    /\ (DSQ.KeysOnly q = true ->
        length es = length (snapshot order gd q) /\ last = end_of_results)
    /\ (DSQ.KeysOnly q = false ->
        es = fst (fetched order gd q e)
        /\ last = {| DSQ.entry := DSQ.empty_entry;
                     DSQ.Error :=
                       Some (default ErrNotFound
                                     (snd (fetched order gd q e))) |}).
Proof.
  intros Ho Hf.
  destruct (Query_accepts order gd q e Ho Hf) as (e1 & HQ & _).
  assert (fetched order gd q e = fst (fetch gd (snapshot order gd q) e1))
    as Hfe by (unfold fetched; by rewrite HQ).
  unfold reads. rewrite HQ. unfold snapshot in *.
  set (vs := values (MetadataCache.Iterator order (mdCache gd)
                                            (DSQ.Prefix q) (DSQ.Limit q)))
    in *.
  destruct (DSQ.KeysOnly q) eqn:Hk.
  - destruct (drain_keys_only q vs (S (length vs)) Hk 0%nat gd e1 []
                              ltac:(lia)) as [r2 Hd].
    rewrite drop_0 in Hd. cbn [app] in Hd.
    exists (key_entry <$> vs), end_of_results.
    split; [|split; [|split]].
    + do 6 eexists. split; [reflexivity|]. exact Hd.
    + rewrite length_fmap, firstn_all, <- list_fmap_compose. done.
    + intros _. by rewrite length_fmap.
    + intros [=].
  - destruct (drain_values q vs (S (length vs)) Hk 0%nat gd e1 []
                           ltac:(lia)) as (r2 & gd2 & e2 & Hd).
    rewrite drop_0 in Hd. cbn [app] in Hd.
    do 2 eexists. split; [|split; [|split]].
    + do 6 eexists. split; [reflexivity|]. exact Hd.
    + apply fetch_shape.
    + intros [=].
    + intros _. by rewrite Hfe.
Qed.

(** C3, amended. A query without orders and filters produces entries
    only for keys of the index that start with the prefix, each key at
    most once and each entry with its key and indexed size, in the order
    of the snapshot, and at most [Limit] entries when the limit is
    positive. With [KeysOnly] set, and also when the values are asked
    for and every one of them can be fetched, it produces an entry for
    every such key when there is no positive limit (exactly that set),
    and the reading ends with the end of the results. When the values
    are asked for and the fetch of one fails, the reading ends there
    with the error of that fetch: the entries are those of the records
    before it, and the key whose value did not come and the keys after
    it in the snapshot are not produced. *)
Theorem query_snapshot (order : MetadataCache.traversal)
        (gd : GCSDatastore) (q : DSQ.Query) (e : Env W) :
  MetadataCache.ranges order (mdCache gd) ->
  index_wf (mdCache gd) ->
  DSQ.Orders q = [] -> DSQ.Filters q = [] ->
  (DSQ.KeysOnly q = true \/ all_fetched order gd q e ->
   query_exact order gd q e)
  /\ exists es last,
      reads order gd q e es last
      /\ query_sound gd q es
      /\ NoDup (DSQ.Key <$> es)
      /\ key_size <$> es = shown <$> take (length es) (snapshot order gd q)
      /\ (DSQ.KeysOnly q = true \/ all_fetched order gd q e ->
          length es = length (snapshot order gd q)
          /\ last = end_of_results)
      /\ (DSQ.KeysOnly q = false ->
          es = fst (fetched order gd q e)
          /\ forall err,
              snd (fetched order gd q e) = Some err ->
              DSQ.Error last = Some err
              /\ (length es < length (snapshot order gd q))%nat
              /\ forall v, v ∈ drop (length es) (snapshot order gd q) ->
                           Key v ∉ DSQ.Key <$> es).
Proof.
  intros Hfair Hwf Ho Hf.
  destruct (query_run order gd q e Ho Hf)
    as (es & last & Hreads & Hes & Hkeys & Hvalues).
  destruct (shown_entries order gd q es (length es) Hfair Hwf Hes)
    as (Hsound & Hnodup & Hcompl & Hrest).
  destruct (Query_accepts order gd q e Ho Hf) as (e1 & HQ & _).
  pose proof (fetch_shape gd (snapshot order gd q) e1) as (_ & Hall & Hcut).
  assert (fetched order gd q e = fst (fetch gd (snapshot order gd q) e1))
    as Hfe by (unfold fetched; by rewrite HQ).
  rewrite <- Hfe in Hall, Hcut.
  assert (DSQ.KeysOnly q = true \/ all_fetched order gd q e ->
          length es = length (snapshot order gd q)
          /\ last = end_of_results) as Hwhole.
  { intros [Hk | Hok]; [by apply Hkeys|].
    destruct (DSQ.KeysOnly q) eqn:Hk; [by apply Hkeys|].
    destruct (Hvalues eq_refl) as (-> & ->).
    split; [by apply Hall|]. unfold all_fetched in Hok. by rewrite Hok. }
  split.
  - intros Hcase. exists es. split; [|split; [done|]].
    + destruct Hreads as (r & gd1 & e1' & r2 & gd2 & e2 & Hq & Hd).
      by exists r, gd1, e1', last, r2, gd2, e2.
    + apply Hcompl. by apply Hwhole.
  - exists es, last. do 5 (split; [done|]).
    intros Hk. destruct (Hvalues Hk) as (Hes' & Hlast).
    split; [done|]. intros err Herr.
    split; [by rewrite Hlast, Herr|].
    split; [rewrite Hes'; exact (Hcut _ Herr)|]. exact Hrest.
Qed.

End QueryFacts.

(** ** The test suite on the bucket held in memory *)

Section Tests.

Import Scenario.

(** [TestReload] with the prefix of the tests. *)
Example TestReload :
  reload_view "ipfs" k1 hello = Some (true, (5, None), ["/k1"]).
Proof. vm_compute. reflexivity. Qed.

(** The same with other prefixes that [path.Join] leaves as they are. *)
Example TestReload_other_prefixes :
  reload_view "" k1 hello = Some (true, (5, None), ["/k1"])
  /\ reload_view "/ipfs" k1 hello = Some (true, (5, None), ["/k1"])
  /\ reload_view "a/b" k1 hello = Some (true, (5, None), ["/k1"]).
Proof. repeat split; vm_compute; reflexivity. Qed.

(** [TestIteratorEmpty], [TestIteratorTwoEntries], [TestIteratorPrefix],
    [TestIteratorLimit] *)
Example TestIterator :
  getEntries 5 (MetadataCache.Iterator in_order
                  MetadataCache.NewMetadataCache "" 0) = []
  /\ length (getEntries 5 (MetadataCache.Iterator in_order three_entries "" 0))
     = 3%nat
  /\ length (getEntries 5 (MetadataCache.Iterator in_order three_entries "A" 0))
     = 2%nat
  /\ length (getEntries 5 (MetadataCache.Iterator in_order three_entries "" 2))
     = 2%nat.
Proof. repeat split; vm_compute; reflexivity. Qed.

(** [TestQuery]: two keys put, a keys-only query under ["/"]. *)
Example TestQuery :
  exists ks, query_keys (fst after_two_puts) (q_all true) (snd after_two_puts)
             = Some ks
             /\ length ks = 2%nat.
Proof. eexists. split; vm_compute; reflexivity. Qed.

(** Cache transparency: with capacity one, [Get(A)] still succeeds after
    [Put(B)] evicted its bytes, by two remote calls (probe and read),
    and [Get(B)] is served from the cache without any. *)
Example cache_transparency :
  transparency
  = ((list_byte_of_string "x", None), (list_byte_of_string "y", None),
     (2%nat, 0%nat)).
Proof. vm_compute. reflexivity. Qed.

(** C2. With the prefix ["ipfs/"], which is the default of the plugin,
    the reload does not index the key under the string [Put] used:
    [Put] wrote [/k1] to the object [ipfs/k1], and [LoadMetadata] files
    that object under [k1], so that [Has] is false and [GetSize] fails
    on the second adapter. *)
Theorem reload_under_slash_prefix :
  reload_view "ipfs/" k1 hello
  = Some (false, (-1, Some ErrNotFound), ["k1"]).
Proof. vm_compute. reflexivity. Qed.

Lemma after_two_puts_index :
  mdCache (fst after_two_puts)
  = MetadataCache.Put
      (MetadataCache.Put MetadataCache.NewMetadataCache "/a" 1) "/b" 1.
Proof. vm_compute. reflexivity. Qed.

Lemma after_two_puts_wf : index_wf (mdCache (fst after_two_puts)).
Proof.
  rewrite after_two_puts_index.
  do 2 (apply index_wf_Put; [by vm_compute|]). apply index_wf_New.
Qed.

Lemma in_order_ranges md : MetadataCache.ranges in_order md.
Proof. unfold MetadataCache.ranges, MetadataCache.range, in_order. done. Qed.

(** C3, as stated, fails when the values are asked for and one cannot
    be fetched: after [/a] and [/b] were put through a cache of one
    item, the query for everything under [/] meets a transport error
    when it fetches the evicted value of [/a], and ends without an
    entry for the indexed key [/a]. *)
Lemma query_values_counterexample :
  MetadataCache.ranges in_order (mdCache (fst after_two_puts))
  /\ index_wf (mdCache (fst after_two_puts))
  /\ DSQ.Orders (q_all false) = []
  /\ DSQ.Filters (q_all false) = []
  /\ DSQ.Limit (q_all false) <= 0
  /\ ~ query_exact in_order (fst after_two_puts) (q_all false)
                   (snd after_two_puts).
Proof.
  split; [apply in_order_ranges|].
  split; [apply after_two_puts_wf|].
  do 3 (split; [done|]).
  intros (es & Hprod & _ & Hcompl).
  destruct Hprod as (r & gd1 & e1 & last & r2 & gd2 & e2 & HQ & Hd).
  vm_compute in HQ. injection HQ as <- <- <-.
  vm_compute in Hd. injection Hd as <- _ _ _ _.
  specialize (Hcompl ltac:(done) "/a").
  assert (indexed_under (fst after_two_puts) (DSQ.Prefix (q_all false)) "/a")
    as Hin.
  { split; [|reflexivity]. rewrite after_two_puts_index. simpl.
    rewrite lookup_insert_ne by done. rewrite lookup_insert_eq. by eexists. }
  apply Hcompl in Hin. simpl in Hin. by apply not_elem_of_nil in Hin.
Qed.

(** C7, as stated, fails for [Get]: an adapter that has read [k1]
    while the bucket held it keeps the bytes in its data cache. Once the
    object is deleted through another adapter, [k1] is a key that this
    adapter never put and never loaded and that the remote store does
    not hold, [Has] is false and [GetSize] fails with NotFound, and yet
    [Get] returns the bytes with a nil error. *)
Lemma absent_key_counterexample :
  MetadataCache.cache (mdCache (fst Examples.cached_reader)) !! DS.String k1
  = None
  /\ MemGCS.buckets (world (snd Examples.cached_reader)) !! bucket = Some ∅
  /\ ObjectProbe (Bucket (config (fst Examples.cached_reader)))
                 (GCSPath (fst Examples.cached_reader) (DS.String k1))
                 (world (snd Examples.cached_reader))
     = (Some ErrObjectNotExist, world (snd Examples.cached_reader))
  /\ fst (fst (Has (fst Examples.cached_reader) k1
                   (snd Examples.cached_reader)))
     = (false, None)
  /\ fst (fst (GetSize (fst Examples.cached_reader) k1
                       (snd Examples.cached_reader)))
     = (-1, Some ErrNotFound)
  /\ fst (fst (Get (fst Examples.cached_reader) k1
                   (snd Examples.cached_reader)))
     = (hello, None).
Proof. repeat split; vm_compute; reflexivity. Qed.

End Tests.

(** ** The properties at work on the scenarios *)

Section Witnesses.

Import Scenario.

(** [Put(k1, "hello")], then [Has], [GetSize] and [Get]. *)
Lemma put_then_read_witness :
  0 < LRU.size (dataCache (blank (cfg "ipfs" 1000)))
  /\ GoInt.len hello <= GoInt.max_int
  /\ Put (blank (cfg "ipfs" 1000)) k1 hello env0
     = ((None, fst after_put), snd after_put)
  /\ (Has (fst after_put) k1 (snd after_put)
      = ((true, None, fst after_put), snd after_put)
      /\ GetSize (fst after_put) k1 (snd after_put)
         = ((GoInt.len hello, None, fst after_put), snd after_put)
      /\ exists gd2,
          Get (fst after_put) k1 (snd after_put)
          = ((hello, None, gd2), snd after_put)
          /\ mdCache gd2 = mdCache (fst after_put)).
Proof.
  assert (0 < LRU.size (dataCache (blank (cfg "ipfs" 1000)))) as H1
    by reflexivity.
  assert (GoInt.len hello <= GoInt.max_int) as H2
    by (vm_compute; discriminate).
  assert (Put (blank (cfg "ipfs" 1000)) k1 hello env0
          = ((None, fst after_put), snd after_put)) as H3
    by (vm_compute; reflexivity).
  split; [exact H1|]. split; [exact H2|]. split; [exact H3|].
  exact (put_then_read _ _ _ _ _ _ H1 H2 H3).
Defined.

(** The state of the bucket once the fault has been consumed. *)
Lemma put_failure_witness :
  ObjectWrite (Bucket (config (blank (cfg "ipfs" 1000))))
              (GCSPath (blank (cfg "ipfs" 1000)) (DS.String k1))
              "text/plain" hello (world env_failing)
  = (Some (Errorf "connection reset"), world env0)
  /\ exists gd' e',
      Put (blank (cfg "ipfs" 1000)) k1 hello env_failing
      = ((Some (Errorf "connection reset"), gd'), e')
      /\ mdCache gd' = mdCache (blank (cfg "ipfs" 1000))
      /\ dataCache gd' = dataCache (blank (cfg "ipfs" 1000))
      /\ world e' = world env0.
Proof.
  assert (ObjectWrite (Bucket (config (blank (cfg "ipfs" 1000))))
                      (GCSPath (blank (cfg "ipfs" 1000)) (DS.String k1))
                      "text/plain" hello (world env_failing)
          = (Some (Errorf "connection reset"), world env0)) as H1
    by (vm_compute; reflexivity).
  split; [exact H1|].
  exact (put_failure_changes_nothing _ _ _ _ _ _ H1).
Defined.

Lemma query_refusal_witness :
  (DSQ.Orders q_ordered <> [] \/ DSQ.Filters q_ordered <> [])
  /\ exists e',
      Query in_order (fst after_put) q_ordered (snd after_put)
      = ((None, Some UnsupportedQuery, fst after_put), e')
      /\ world e' = world (snd after_put).
Proof.
  assert (DSQ.Orders q_ordered <> [] \/ DSQ.Filters q_ordered <> []) as H1
    by (left; discriminate).
  split; [exact H1|].
  exact (query_refuses_orders_and_filters in_order _ _ _ H1).
Defined.

(** [testNegative] for a second key, on the adapter that has put
    [k1]. *)
Lemma absent_key_witness :
  MetadataCache.cache (mdCache (fst after_put)) !! DS.String (DS.NewKey "k2")
  = None
  /\ LRU.Peek (dataCache (fst after_put)) (DS.String (DS.NewKey "k2")) = None
  /\ ObjectProbe (Bucket (config (fst after_put)))
                 (GCSPath (fst after_put) (DS.String (DS.NewKey "k2")))
                 (world (snd after_put))
     = (Some ErrObjectNotExist, world (snd after_put))
  /\ Has (fst after_put) (DS.NewKey "k2") (snd after_put)
     = ((false, None, fst after_put), snd after_put)
  /\ GetSize (fst after_put) (DS.NewKey "k2") (snd after_put)
     = ((-1, Some ErrNotFound, fst after_put), snd after_put)
  /\ Get (fst after_put) (DS.NewKey "k2") (snd after_put)
     = (([], Some ErrNotFound, fst after_put),
        {| world := world (snd after_put);
           logged := logged (snd after_put) |}).
Proof.
  assert (MetadataCache.cache (mdCache (fst after_put))
            !! DS.String (DS.NewKey "k2") = None) as H1
    by (vm_compute; reflexivity).
  assert (LRU.Peek (dataCache (fst after_put)) (DS.String (DS.NewKey "k2"))
          = None) as H2 by (vm_compute; reflexivity).
  assert (ObjectProbe (Bucket (config (fst after_put)))
                      (GCSPath (fst after_put) (DS.String (DS.NewKey "k2")))
                      (world (snd after_put))
          = (Some ErrObjectNotExist, world (snd after_put))) as H3
    by (vm_compute; reflexivity).
  split; [exact H1|]. split; [exact H2|]. split; [exact H3|].
  destruct (absent_key_not_found (fst after_put) (DS.NewKey "k2")
                                 (snd after_put) H1)
    as (Hhas & Hsize & Hget & _).
  split; [exact Hhas|]. split; [exact Hsize|]. exact (Hget _ H2 H3).
Defined.

(** The query for the values of the two keys that were put, on a remote
    that answers without fault: both values are fetched, the first from
    the bucket, and the entries are exactly those of the two keys. *)
Lemma query_snapshot_witness :
  MetadataCache.ranges in_order (mdCache (fst after_two_puts))
  /\ index_wf (mdCache (fst after_two_puts))
  /\ DSQ.Orders (q_all false) = []
  /\ DSQ.Filters (q_all false) = []
  /\ all_fetched in_order (fst after_two_puts) (q_all false)
                 (MemGCS.with_faults (snd after_two_puts) [])
  /\ query_exact in_order (fst after_two_puts) (q_all false)
                 (MemGCS.with_faults (snd after_two_puts) []).
Proof.
  assert (all_fetched in_order (fst after_two_puts) (q_all false)
                      (MemGCS.with_faults (snd after_two_puts) [])) as H1
    by (vm_compute; reflexivity).
  split; [apply in_order_ranges|].
  split; [apply after_two_puts_wf|].
  split; [reflexivity|]. split; [reflexivity|]. split; [exact H1|].
  exact (proj1 (query_snapshot in_order (fst after_two_puts) (q_all false)
                               (MemGCS.with_faults (snd after_two_puts) [])
                               (in_order_ranges _) after_two_puts_wf
                               eq_refl eq_refl)
               (or_intror H1)).
Defined.

(** [testDelete]: the first delete removes the object. *)
Lemma delete_witness :
  ObjectDelete (Bucket (config (fst after_put)))
               (GCSPath (fst after_put) (DS.String k1))
               (world (snd after_put))
  = (None, world env0)
  /\ exists gd',
      Delete (fst after_put) k1 (snd after_put)
      = ((None, gd'),
         {| world := world env0; logged := logged (snd after_put) |})
      /\ MetadataCache.cache (mdCache gd') !! DS.String k1 = None
      /\ LRU.Peek (dataCache gd') (DS.String k1) = None.
Proof.
  assert (ObjectDelete (Bucket (config (fst after_put)))
                       (GCSPath (fst after_put) (DS.String k1))
                       (world (snd after_put))
          = (None, world env0)) as H1
    by (vm_compute; reflexivity).
  split; [exact H1|].
  destruct (delete_is_idempotent _ _ _ _ _ H1) as [Hok _].
  destruct (Hok (or_introl eq_refl)) as (gd' & HD & _ & Hidx & Hpeek & _).
  exists gd'. split; [exact HD|]. split; [exact Hidx|]. exact Hpeek.
Defined.

(** [testDelete]: the second delete meets an object that is gone and
    succeeds all the same; [testNegative] then holds again. *)
Example TestDelete_twice :
  let '((err1, gd1), e1) := Delete (fst after_put) k1 (snd after_put) in
  let '((err2, gd2), e2) := Delete gd1 k1 e1 in
  let '((has, _, _), _) := Has gd2 k1 e2 in
  let '((_, gerr, _), _) := Get gd2 k1 e2 in
  (err1, err2, has, gerr) = (None, None, false, Some ErrNotFound).
Proof. vm_compute. reflexivity. Qed.

End Witnesses.

(** ** Construction, and what the operations keep *)

Section LRUFrames.

Import LRU.

Lemma find_removelast key l :
  find key l = None -> find key (removelast l) = None.
Proof.
  unfold find. induction l as [|[k v] l IH]; [done|].
  intros Hf. simpl in Hf.
  destruct (String.eqb k key) eqn:E; [done|].
  destruct l as [|p l']; [done|].
  change (removelast ((k, v) :: p :: l'))
    with ((k, v) :: removelast (p :: l')).
  simpl. rewrite E. by apply IH.
Qed.

Lemma find_tail key key' v l :
  key' <> key -> find key ((key', v) :: l) = find key l.
Proof.
  intros Hne. unfold find. simpl.
  destruct (String.eqb key' key) eqn:E; [|done].
  by apply String.eqb_eq in E.
Qed.

Lemma Peek_Add_other c key key' v :
  key' <> key -> Peek c key = None -> Peek (fst (Add c key' v)) key = None.
Proof.
  intros Hne Hp. unfold Peek, Add in *.
  destruct (find key' (items c)); cbn [fst items].
  - rewrite find_tail by done. by rewrite find_drop_ne.
  - destruct (size c <? _).
    + apply find_removelast. by rewrite find_tail.
    + by rewrite find_tail.
Qed.

Lemma Peek_Get c key key' :
  Peek c key = None -> Peek (snd (Get c key')) key = None.
Proof.
  intros Hp. unfold Peek, Get in *.
  destruct (find key' (items c)) eqn:E; simpl; [|done].
  destruct (decide (key' = key)) as [->|Hne]; [congruence|].
  rewrite find_tail by done. by rewrite find_drop_ne.
Qed.

Lemma Peek_Remove_other c key key' :
  Peek c key = None -> Peek (fst (Remove c key')) key = None.
Proof.
  intros Hp. unfold Peek, Remove in *.
  destruct (find key' (items c)) eqn:E; simpl; [|done].
  destruct (decide (key' = key)) as [->|Hne]; [apply find_drop|].
  by rewrite find_drop_ne.
Qed.

Lemma size_Get c key : size (snd (Get c key)) = size c.
Proof. unfold Get. by destruct (find key (items c)). Qed.

End LRUFrames.

Section Lifecycle.

Context {W : Type} `{Storage W}.

(** A successful [NewGCSDatastore] hands out an adapter with an empty
    index and an empty data cache of positive capacity. *)
Lemma NewGCSDatastore_blank cfg (e e' : Env W) gd :
  NewGCSDatastore cfg e = ((Some gd, None), e') ->
  gd = {| config := cfg;
          mdCache := MetadataCache.NewMetadataCache;
          dataCache := {| LRU.size := DataCacheItems cfg; LRU.items := [] |} |}
  /\ 0 < DataCacheItems cfg.
Proof.
  unfold NewGCSDatastore, CheckBucket, LRU.New. io_simpl.
  destruct (NewClient (world e)) as [[err|] w]; [done|].
  destruct (DataCacheItems cfg <=? 0) eqn:Hsz; [done|].
  simpl. destruct (BucketAttrs _ _) as [[err|] w']; [done|].
  intros [= <- _]. split; [done|]. by apply Z.leb_gt.
Qed.

Lemma NewGCSDatastore_unknown cfg (e e' : Env W) gd key :
  NewGCSDatastore cfg e = ((Some gd, None), e') -> unknown gd key.
Proof.
  intros Hnew. apply NewGCSDatastore_blank in Hnew as [-> _].
  split; [apply lookup_empty | reflexivity].
Qed.

(** A non-positive cache size is refused at construction. *)
Lemma NewGCSDatastore_refuses cfg (e : Env W) :
  DataCacheItems cfg <= 0 ->
  fst (fst (NewGCSDatastore cfg e)) = None.
Proof.
  intros Hsz. unfold NewGCSDatastore, LRU.New. io_simpl.
  destruct (NewClient (world e)) as [[err|] w]; [done|].
  by apply Z.leb_le in Hsz as ->.
Qed.

Lemma Get_remote_capacity gd key (e : Env W) :
  LRU.size (dataCache (snd (fst (Get_remote gd key e))))
  = LRU.size (dataCache gd).
Proof.
  unfold Get_remote. io_simpl.
  destruct (ObjectProbe _ _ _) as [[err|] w]; simpl.
  - by destruct (err_is (Some err) ErrObjectNotExist).
  - destruct (ObjectNewReader _ _ _) as [[rd|err] w']; simpl; [|done].
    apply size_Add.
Qed.

(** The capacity of the data cache never changes. *)
Lemma capacity_kept gd (e : Env W) k v :
  LRU.size (dataCache (snd (fst (Put gd k v e)))) = LRU.size (dataCache gd)
  /\ LRU.size (dataCache (snd (fst (Get gd k e)))) = LRU.size (dataCache gd)
  /\ LRU.size (dataCache (snd (fst (Delete gd k e))))
     = LRU.size (dataCache gd).
Proof.
  split; [|split].
  - rewrite Put_unfold.
    destruct (ObjectWrite _ _ _ _ _) as [[err|] w]; simpl; [done|].
    apply size_Add.
  - unfold Get.
    pose proof (size_Get (dataCache gd) (DS.String k)) as Hsz.
    destruct (LRU.Get (dataCache gd) (DS.String k))
      as [[[[b|tag]|] [|]] c]; simpl in Hsz; io_simpl; try done;
      rewrite <- Hsz; apply (Get_remote_capacity (set_dataCache gd c)).
  - rewrite Delete_unfold.
    destruct (ObjectDelete _ _ _) as [[[]|] w]; simpl; try done;
      apply size_Remove.
Qed.

Lemma Get_remote_unknown gd key' key (e : Env W) :
  key' <> key -> unknown gd key ->
  unknown (snd (fst (Get_remote gd key' e))) key.
Proof.
  intros Hne [Hidx Hpeek]. unfold Get_remote. io_simpl.
  destruct (ObjectProbe _ _ _) as [[err|] w]; simpl.
  - by destruct (err_is (Some err) ErrObjectNotExist).
  - destruct (ObjectNewReader _ _ _) as [[rd|err] w']; simpl; [|done].
    split; [done|]. by apply Peek_Add_other.
Qed.

(** Operations on other keys leave an unknown key unknown, and [Delete]
    does so for every key. *)
Lemma unknown_kept gd (e : Env W) k v key :
  unknown gd key ->
  (DS.String k <> key -> unknown (snd (fst (Put gd k v e))) key)
  /\ (DS.String k <> key -> unknown (snd (fst (Get gd k e))) key)
  /\ unknown (snd (fst (Delete gd k e))) key.
Proof.
  intros [Hidx Hpeek]. split; [|split].
  - intros Hne. rewrite Put_unfold.
    destruct (ObjectWrite _ _ _ _ _) as [[err|] w]; simpl; [done|].
    split; simpl.
    + by rewrite lookup_insert_ne.
    + by apply Peek_Add_other.
  - intros Hne. unfold Get.
    pose proof (Peek_Get (dataCache gd) key (DS.String k) Hpeek) as Hp.
    destruct (LRU.Get (dataCache gd) (DS.String k))
      as [[[[b|tag]|] [|]] c]; simpl in Hp; io_simpl; try done;
      apply (Get_remote_unknown (set_dataCache gd c)); done.
  - rewrite Delete_unfold.
    destruct (ObjectDelete _ _ _) as [[[]|] w]; simpl; try done;
      (split; simpl;
       [rewrite lookup_delete; by case_decide
       | by apply Peek_Remove_other]).
Qed.

(** The loop of [LoadMetadata] never takes a key out of the index. *)
Lemma LoadMetadata_loop_keeps it :
  forall gd listed (e : Env W) key,
    Forall (fun x => exists a, x = inl a) it ->
    is_Some (MetadataCache.cache (mdCache gd) !! key) ->
    exists gd' n,
      LoadMetadata_loop it gd listed e = ((None, gd', n), e)
      /\ config gd' = config gd
      /\ dataCache gd' = dataCache gd
      /\ is_Some (MetadataCache.cache (mdCache gd') !! key).
Proof.
  induction it as [|x it IH]; intros gd listed e key Hall Hkey.
  - exists gd, listed. done.
  - apply Forall_cons in Hall as [[a ->] Hall]. simpl.
    destruct (IH (set_mdCache gd
                    (MetadataCache.Put (mdCache gd)
                       (Strings.TrimPrefix (Name a) (Prefix (config gd)))
                       (ObjSize a)))
                 (listed + 1) e key Hall)
      as (gd' & n & Hloop & Hcfg & Hdc & Hk).
    { simpl. rewrite lookup_insert. case_decide; [by eexists | done]. }
    by exists gd', n.
Qed.

(** It files every listed object under its name without the prefix. *)
Lemma LoadMetadata_loop_records it :
  forall gd listed (e : Env W) attrs,
    Forall (fun x => exists a, x = inl a) it ->
    inl attrs ∈ it ->
    exists gd' n,
      LoadMetadata_loop it gd listed e = ((None, gd', n), e)
      /\ config gd' = config gd
      /\ dataCache gd' = dataCache gd
      /\ is_Some (MetadataCache.cache (mdCache gd')
                    !! Strings.TrimPrefix (Name attrs) (Prefix (config gd))).
Proof.
  induction it as [|x it IH]; intros gd listed e attrs Hall Hin.
  - by apply not_elem_of_nil in Hin.
  - apply Forall_cons in Hall as [[a ->] Hall].
    apply elem_of_cons in Hin as [[= <-] | Hin].
    + simpl.
      destruct (LoadMetadata_loop_keeps it
                  (set_mdCache gd
                     (MetadataCache.Put (mdCache gd)
                        (Strings.TrimPrefix (Name attrs) (Prefix (config gd)))
                        (ObjSize attrs)))
                  (listed + 1) e
                  (Strings.TrimPrefix (Name attrs) (Prefix (config gd))) Hall)
        as (gd' & n & Hloop & Hcfg & Hdc & Hk).
      { simpl. rewrite lookup_insert_eq. by eexists. }
      by exists gd', n.
    + simpl.
      destruct (IH (set_mdCache gd
                      (MetadataCache.Put (mdCache gd)
                         (Strings.TrimPrefix (Name a) (Prefix (config gd)))
                         (ObjSize a)))
                   (listed + 1) e attrs Hall Hin)
        as (gd' & n & Hloop & Hcfg & Hdc & Hk).
      by exists gd', n.
Qed.

(** Bulk load: when the listing goes through, [LoadMetadata] succeeds and
    [Has] is true for the name of every listed object with the prefix
    taken off. *)
Lemma LoadMetadata_records gd (e : Env W) it w attrs :
  Objects (Bucket (config gd)) (Prefix (config gd)) (world e) = (it, w) ->
  Forall (fun x => exists a, x = inl a) it ->
  inl attrs ∈ it ->
  exists gd' e',
    LoadMetadata gd e = ((None, gd'), e')
    /\ world e' = w
    /\ MetadataCache.Has (mdCache gd')
         (Strings.TrimPrefix (Name attrs) (Prefix (config gd))) = true.
Proof.
  intros Hobj Hall Hin. unfold LoadMetadata. io_simpl. rewrite Hobj.
  destruct (LoadMetadata_loop_records it gd 0
              {| world := w; logged := logged e |} attrs Hall Hin)
    as (gd' & n & Hloop & _ & _ & [m Hm]).
  unfold ret in Hloop. rewrite Hloop. simpl.
  do 2 eexists. split; [reflexivity|]. split; [reflexivity|].
  unfold MetadataCache.Has. by rewrite Hm.
Qed.

End Lifecycle.

(** ** Bulk load *)

Section StringFacts.

Lemma substring_all s : String.substring 0 (String.length s) s = s.
Proof. induction s as [|c s IH]; simpl; [done | by rewrite IH]. Qed.

(** A string that has the prefix is the prefix followed by what
    [TrimPrefix] leaves. *)
Lemma TrimPrefix_split s prefix :
  Strings.HasPrefix s prefix = true ->
  s = String.append prefix (Strings.TrimPrefix s prefix).
Proof.
  unfold Strings.TrimPrefix. intros Hp. rewrite Hp.
  unfold Strings.HasPrefix in Hp. revert s Hp.
  induction prefix as [|a p IH]; intros s Hp; simpl.
  - by rewrite Nat.sub_0_r, substring_all.
  - destruct s as [|b s]; simpl in Hp; [done|].
    destruct (ascii_dec a b) as [->|]; [|done].
    change (String b p +:+ ?x) with (String b (p +:+ x)).
    f_equal. by apply IH.
Qed.

Lemma TrimPrefix_inj s1 s2 prefix :
  Strings.HasPrefix s1 prefix = true ->
  Strings.HasPrefix s2 prefix = true ->
  Strings.TrimPrefix s1 prefix = Strings.TrimPrefix s2 prefix ->
  s1 = s2.
Proof.
  intros H1 H2 Heq.
  rewrite (TrimPrefix_split _ _ H1), (TrimPrefix_split _ _ H2).
  by rewrite Heq.
Qed.

End StringFacts.

Section BulkLoad.

Context {W : Type} `{Storage W}.

(** The loop over a listing without errors: it ends with success, keeps
    the configuration and the data cache, and leaves alone the keys that
    no listed object is filed under. *)
Lemma LoadMetadata_loop_stable objs :
  forall gd listed (e : Env W),
    exists gd' n,
      LoadMetadata_loop (inl <$> objs) gd listed e = ((None, gd', n), e)
      /\ config gd' = config gd
      /\ dataCache gd' = dataCache gd
      /\ forall key, key ∉ filed gd <$> objs ->
           MetadataCache.cache (mdCache gd') !! key
           = MetadataCache.cache (mdCache gd) !! key.
Proof.
  induction objs as [|a objs IH]; intros gd listed e.
  - exists gd, listed. done.
  - simpl.
    destruct (IH (set_mdCache gd
                    (MetadataCache.Put (mdCache gd) (filed gd a) (ObjSize a)))
                 (listed + 1) e)
      as (gd' & n & Hloop & Hcfg & Hdc & Hkeep).
    exists gd', n. split; [exact Hloop|]. split; [exact Hcfg|].
    split; [exact Hdc|].
    intros key Hkey. apply not_elem_of_cons in Hkey as [Hne Hkey].
    rewrite Hkeep by exact Hkey. simpl. by rewrite lookup_insert_ne.
Qed.

(** When no two listed objects are filed under the same key, each one is
    in the index afterwards, under its name without the prefix and with
    its size. *)
Lemma LoadMetadata_loop_lookup objs :
  forall gd listed (e : Env W) a,
    NoDup (filed gd <$> objs) ->
    a ∈ objs ->
    exists gd' n,
      LoadMetadata_loop (inl <$> objs) gd listed e = ((None, gd', n), e)
      /\ config gd' = config gd
      /\ dataCache gd' = dataCache gd
      /\ MetadataCache.cache (mdCache gd') !! filed gd a
         = Some {| Key := filed gd a; Size := ObjSize a |}.
Proof.
  induction objs as [|a0 objs IH]; intros gd listed e a Hnd Hin.
  - by apply not_elem_of_nil in Hin.
  - simpl in Hnd. apply NoDup_cons in Hnd as [Hfresh Hnd].
    set (gd1 := set_mdCache gd
                  (MetadataCache.Put (mdCache gd) (filed gd a0) (ObjSize a0))).
    apply elem_of_cons in Hin as [-> | Hin].
    + destruct (LoadMetadata_loop_stable objs gd1 (listed + 1) e)
        as (gd' & n & Hloop & Hcfg & Hdc & Hkeep).
      exists gd', n. split; [exact Hloop|]. split; [exact Hcfg|].
      split; [exact Hdc|].
      rewrite Hkeep by exact Hfresh. simpl. apply lookup_insert_eq.
    + destruct (IH gd1 (listed + 1) e a Hnd Hin)
        as (gd' & n & Hloop & Hcfg & Hdc & Hidx).
      exists gd', n. split; [exact Hloop|]. split; [exact Hcfg|].
      split; [exact Hdc | exact Hidx].
Qed.

(** Whatever the listing answers, [LoadMetadata] leaves unknown a key
    under which no listed object is filed. *)
Lemma LoadMetadata_loop_unknown it :
  forall gd listed (e : Env W) key,
    (forall a, inl a ∈ it -> filed gd a <> key) ->
    unknown gd key ->
    unknown (snd (fst (fst (LoadMetadata_loop it gd listed e)))) key.
Proof.
  induction it as [|x it IH]; intros gd listed e key Hfiled Hun; [done|].
  destruct x as [a|err]; simpl.
  - apply IH.
    + intros a' Hin. apply (Hfiled a'). by apply elem_of_cons; right.
    + destruct Hun as [Hidx Hpeek]. split; [|done]. simpl.
      rewrite lookup_insert_ne; [done|].
      apply Hfiled. by apply elem_of_cons; left.
  - by destruct (err_is (Some err) IteratorDone).
Qed.

Lemma LoadMetadata_unknown gd (e : Env W) key :
  (forall a, inl a ∈ fst (Objects (Bucket (config gd)) (Prefix (config gd))
                                  (world e)) ->
             filed gd a <> key) ->
  unknown gd key ->
  unknown (snd (fst (LoadMetadata gd e))) key.
Proof.
  intros Hfiled Hun. unfold LoadMetadata. io_simpl.
  destruct (Objects _ _ _) as [it w]. simpl in Hfiled.
  pose proof (LoadMetadata_loop_unknown it gd 0
                {| world := w; logged := logged e |} key Hfiled Hun) as Hloop.
  destruct (LoadMetadata_loop it gd 0 _) as [[[err gd'] n] e'].
  simpl in Hloop. by destruct err.
Qed.

End BulkLoad.

Section BulkLoadInMemory.

Import MemGCS.

Lemma elem_of_listing prefix objs name data :
  objs !! name = Some data ->
  Strings.HasPrefix name prefix = true ->
  {| Name := name; ObjSize := GoInt.len data |} ∈ listing prefix objs.
Proof.
  intros Hobj Hp. unfold listing. apply list_elem_of_fmap.
  exists (name, data). split; [done|].
  apply list_elem_of_filter. split; [done|].
  by apply elem_of_map_to_list.
Qed.

Lemma listing_prefixed prefix objs a :
  a ∈ listing prefix objs -> Strings.HasPrefix (Name a) prefix = true.
Proof.
  unfold listing. intros Hin.
  apply list_elem_of_fmap in Hin as ([name data] & -> & Hin).
  by apply list_elem_of_filter in Hin as [Hp _].
Qed.

Lemma NoDup_listing_names prefix objs : NoDup (Name <$> listing prefix objs).
Proof.
  unfold listing. rewrite <- list_fmap_compose.
  eapply sublist_NoDup; [apply (NoDup_fst_map_to_list objs)|].
  apply fmap_sublist, sublist_filter.
Qed.

(** No two listed objects are filed under the same key. *)
Lemma NoDup_listing_filed prefix objs :
  NoDup ((fun a => Strings.TrimPrefix (Name a) prefix)
           <$> listing prefix objs).
Proof.
  rewrite (list_fmap_compose Name (fun n => Strings.TrimPrefix n prefix)).
  apply NoDup_fmap_2_strong; [|apply NoDup_listing_names].
  intros n1 n2 H1 H2 Heq.
  apply list_elem_of_fmap in H1 as (a1 & -> & H1).
  apply list_elem_of_fmap in H2 as (a2 & -> & H2).
  eapply TrimPrefix_inj; [by eapply listing_prefixed..|done].
Qed.

(** The reload property, on the bucket held in memory and for every state
    of it: after a bulk load that meets no fault, every object of the
    bucket whose name starts with the prefix is in the index under its
    name without the prefix, so that [Has] is true and [GetSize] is the
    length of the object. *)
Lemma bulk_load_records gd (w : World) l objs name data :
  buckets w !! Bucket (config gd) = Some objs ->
  faults w = [] ->
  objs !! name = Some data ->
  Strings.HasPrefix name (Prefix (config gd)) = true ->
  exists gd' e',
    LoadMetadata gd {| world := w; logged := l |} = ((None, gd'), e')
    /\ world e' = w
    /\ Has gd' {| DS.String := Strings.TrimPrefix name (Prefix (config gd)) |}
           e'
       = ((true, None, gd'), e')
    /\ GetSize gd'
               {| DS.String := Strings.TrimPrefix name (Prefix (config gd)) |}
               e'
       = ((GoInt.int (GoInt.len data), None, gd'), e').
Proof.
  intros Hb Hf Hobj Hp.
  destruct (LoadMetadata_loop_lookup
              (listing (Prefix (config gd)) objs) gd 0
              {| world := w; logged := l |}
              {| Name := name; ObjSize := GoInt.len data |}
              (NoDup_listing_filed _ _)
              (elem_of_listing _ _ _ _ Hobj Hp))
    as (gd' & n & Hloop & _ & _ & Hidx).
  unfold filed in Hidx. simpl in Hidx.
  exists gd'. eexists. split; [|split; [|split]].
  - unfold LoadMetadata. io_simpl.
    unfold mem_Objects, next_fault. rewrite Hf.
    destruct w as [bs fs]. simpl in *. rewrite Hb.
    unfold ret in Hloop. rewrite Hloop. reflexivity.
  - reflexivity.
  - rewrite Has_unfold. unfold MetadataCache.Has. simpl. by rewrite Hidx.
  - rewrite GetSize_unfold. simpl. by rewrite Hidx.
Qed.

End BulkLoadInMemory.


(** * Further properties of the code *)

(** ** [metadata.go] *)

Section IndexProperties.

(** X1. [Size] counts the keys: [Put] adds one when the key is new and
    none when it overwrites, [Delete] takes one off when the key is there
    and none otherwise, and a new index has size zero. *)
Theorem Size_counts_keys (md : MetadataCache.t) (key : string) (sz : Z) :
  MetadataCache.Size MetadataCache.NewMetadataCache = 0
  /\ MetadataCache.Size (MetadataCache.Put md key sz)
     = (if MetadataCache.Has md key
        then MetadataCache.Size md else MetadataCache.Size md + 1)
  /\ MetadataCache.Size (MetadataCache.Delete md key)
     = (if MetadataCache.Has md key
        then MetadataCache.Size md - 1 else MetadataCache.Size md).
Proof.
  unfold MetadataCache.Size, MetadataCache.Has. simpl.
  split; [by rewrite map_size_empty|].
  destruct (MetadataCache.cache md !! key) as [m|] eqn:Hk; split.
  - by rewrite map_size_insert_Some.
  - rewrite map_size_delete_Some by done.
    assert (size (MetadataCache.cache md) <> 0%nat) as Hne.
    { intros Hz. apply map_size_empty_inv in Hz. rewrite Hz in Hk.
      by rewrite lookup_empty in Hk. }
    lia.
  - rewrite map_size_insert_None by done. lia.
  - by rewrite map_size_delete_None.
Qed.

(** X2. The index is a map from keys to sizes: after [Put(key, sz)], [Get]
    answers the record [{key, sz}] for [key], whatever was there before,
    and what it answered before for every other key; after [Delete(key)]
    it answers NotFound for [key] and is unchanged elsewhere; deleting
    an absent key changes nothing, and [Has] is true exactly when [Get]
    finds a record. *)
Theorem index_round_trip (md : MetadataCache.t) (key : string) (sz : Z) :
  (forall key',
      MetadataCache.Get (MetadataCache.Put md key sz) key'
      = if decide (key' = key)
        then (Some {| Key := key; Size := sz |}, None)
        else MetadataCache.Get md key')
  /\ (forall key',
        MetadataCache.Get (MetadataCache.Delete md key) key'
        = if decide (key' = key)
          then (None, Some ErrNotFound)
          else MetadataCache.Get md key')
  /\ (MetadataCache.Has md key = false -> MetadataCache.Delete md key = md)
  /\ (forall key',
        MetadataCache.Has md key' = true
        <-> exists m, MetadataCache.Get md key' = (Some m, None)).
Proof.
  split; [|split; [|split]].
  - intros key'. unfold MetadataCache.Get. simpl.
    case_decide as Hk.
    + subst. by rewrite lookup_insert_eq.
    + by rewrite lookup_insert_ne.
  - intros key'. unfold MetadataCache.Get. simpl.
    case_decide as Hk.
    + subst. by rewrite lookup_delete_eq.
    + by rewrite lookup_delete_ne.
  - unfold MetadataCache.Has, MetadataCache.Delete.
    destruct md as [c]. simpl.
    destruct (c !! key) eqn:Hk; [done|]. intros _.
    by rewrite delete_id.
  - intros key'. unfold MetadataCache.Has, MetadataCache.Get.
    destruct (MetadataCache.cache md !! key'); split; try done.
    + by eexists.
    + by intros [m Hm].
Qed.

End IndexProperties.

Section IteratorProperties.




Lemma calls_S n it :
  calls (S n) it
  = let '(v, it') := MetadataCache.next it in
    let '(vs, it'') := calls n it' in
    (v :: vs, it'').
Proof. reflexivity. Qed.

(** X4. The closure [Iterator] returns is a cursor over its snapshot: the
    call number [j] (from zero) answers the record number [j] of the
    snapshot, and nil once the snapshot is used up, for good; the
    snapshot itself never changes. *)
Theorem closure_calls (n : nat) (it : MetadataIter) :
  fst (calls n it)
  = (fun j => values it !! (i it + j)%nat) <$> seq 0 n
  /\ values (snd (calls n it)) = values it
  /\ i (snd (calls n it)) = Nat.min (i it + n) (Nat.max (i it) (length (values it))).
Proof.
  revert it. induction n as [|n IH]; intros it.
  - simpl. split; [done|]. split; [done|]. lia.
  - rewrite calls_S. unfold MetadataCache.next.
    destruct (length (values it) <=? i it)%nat eqn:Hle.
    + apply Nat.leb_le in Hle.
      destruct (IH it) as (Hans & Hvals & Hi).
      destruct (calls n it) as [vs it'']. cbn [fst snd values i] in *.
      split; [|split; [done|lia]].
      change (seq 0 (S n)) with (0%nat :: seq 1 n). rewrite fmap_cons.
      rewrite (lookup_ge_None_2 (values it) (i it + 0)) by lia.
      f_equal. rewrite Hans. rewrite <- fmap_S_seq, <- list_fmap_compose.
      apply list_fmap_ext. intros j x _. cbn [compose].
      rewrite !lookup_ge_None_2 by lia. done.
    + apply Nat.leb_gt in Hle.
      destruct (IH {| values := values it; i := S (i it) |})
        as (Hans & Hvals & Hi).
      destruct (calls n _) as [vs it'']. cbn [fst snd values i] in *.
      split; [|split; [done|lia]].
      change (seq 0 (S n)) with (0%nat :: seq 1 n). rewrite fmap_cons.
      rewrite Nat.add_0_r. f_equal.
      rewrite Hans. rewrite <- fmap_S_seq, <- list_fmap_compose.
      apply list_fmap_ext. intros j x _. cbn [compose]. f_equal. lia.
Qed.

End IteratorProperties.

(** ** [gcsds.go]: construction *)

Section ConstructionProperties.

Context {W : Type} `{Storage W}.

(** X5. A configuration whose cache size is not positive is refused with
    the error of the LRU constructor once the client exists, and the
    bucket is then not even looked at: the remote state is the one the
    client creation left. *)
Theorem NewGCSDatastore_refuses_cache_size (cfg : Config) (e : Env W)
        (w : W) :
  NewClient (world e) = (None, w) ->
  DataCacheItems cfg <= 0 ->
  NewGCSDatastore cfg e
  = ((None, Some (Errorf "Must provide a positive size")),
     {| world := w;
        logged := logged e ++
          [{| format := "Failed to create LRU cache err: %v\n";
              args := [LErr (Errorf "Must provide a positive size")] |}] |}).
Proof.
  intros Hclient Hsz. unfold NewGCSDatastore, LRU.New. io_simpl.
  rewrite Hclient. by apply Z.leb_le in Hsz as ->.
Qed.

(** X6. [NewGCSDatastore] answers either an adapter and no error, or an
    error and no adapter, in one of four ways. It answers an adapter
    exactly when the client can be created, the cache size is positive
    and the bucket answers the check; that adapter carries the
    configuration, an empty index and an empty data cache of the
    configured capacity, and nothing was logged. Otherwise it answers,
    with one line logged, the error of the client creation; or, the
    client created and the cache size not positive, the error of the
    cache constructor, the bucket not looked at; or, the client created
    and the cache size positive, the error of the bucket check. *)
Theorem NewGCSDatastore_outcome (cfg : Config) (e : Env W) :
  (exists w w',
      NewClient (world e) = (None, w)
      /\ 0 < DataCacheItems cfg
      /\ BucketAttrs (Bucket cfg) w = (None, w')
      /\ NewGCSDatastore cfg e
         = ((Some {| config := cfg;
                     mdCache := MetadataCache.NewMetadataCache;
                     dataCache := {| LRU.size := DataCacheItems cfg;
                                     LRU.items := [] |} |}, None),
            {| world := w'; logged := logged e |}))
  \/ (exists err w,
         NewClient (world e) = (Some err, w)
         /\ NewGCSDatastore cfg e
            = ((None, Some err),
               {| world := w;
                  logged := logged e ++
                    [{| format := "Failed to create GCS client: %v\n";
                        args := [LErr err] |}] |}))
  \/ (exists w,
         NewClient (world e) = (None, w)
         /\ DataCacheItems cfg <= 0
         /\ NewGCSDatastore cfg e
            = ((None, Some (Errorf "Must provide a positive size")),
               {| world := w;
                  logged := logged e ++
                    [{| format := "Failed to create LRU cache err: %v\n";
                        args := [LErr (Errorf "Must provide a positive size")]
                     |}] |}))
  \/ (exists err w w',
         NewClient (world e) = (None, w)
         /\ 0 < DataCacheItems cfg
         /\ BucketAttrs (Bucket cfg) w = (Some err, w')
         /\ NewGCSDatastore cfg e
            = ((None, Some err),
               {| world := w';
                  logged := logged e ++
                    [{| format := "Failed to get attributes for bucket %s. Missing credentials? %v";
                        args := [LStr (Bucket cfg); LErr err] |}] |})).
Proof.
  unfold NewGCSDatastore, CheckBucket, LRU.New. io_simpl.
  destruct (NewClient (world e)) as [[err|] w] eqn:Hclient.
  - right. left. by exists err, w.
  - destruct (DataCacheItems cfg <=? 0) eqn:Hsz.
    + right. right. left. exists w. split; [done|].
      split; [by apply Z.leb_le | reflexivity].
    + simpl. destruct (BucketAttrs (Bucket cfg) w) as [[err|] w'] eqn:Hb.
      * right. right. right. exists err, w, w'. split; [done|].
        split; [by apply Z.leb_gt|]. split; [done|]. reflexivity.
      * left. exists w, w'. split; [done|]. split; [by apply Z.leb_gt|].
        split; [done|]. reflexivity.
Qed.

End ConstructionProperties.

(** ** [gcsds.go]: reading *)

Section ReadingProperties.

Context {W : Type} `{Storage W}.

(** X7. A [Get] that misses the data cache and finds the object fetches
    it: it returns what the reader delivered, with a nil error even when
    the read itself ended in an error, leaves the index alone, and puts
    the bytes in the data cache, where the next [Get] finds them. *)
Theorem Get_miss_fetches_and_caches (gd : GCSDatastore) (k : DS.Key)
        (e : Env W) (w1 w2 : W) (rd : Reader) :
  LRU.Peek (dataCache gd) (DS.String k) = None ->
  0 < LRU.size (dataCache gd) ->
  ObjectProbe (Bucket (config gd)) (GCSPath gd (DS.String k)) (world e)
    = (None, w1) ->
  ObjectNewReader (Bucket (config gd)) (GCSPath gd (DS.String k)) w1
    = (inl rd, w2) ->
  exists gd',
    Get gd k e
    = ((content rd, None, gd'), {| world := w2; logged := logged e |})
    /\ mdCache gd' = mdCache gd
    /\ LRU.Peek (dataCache gd') (DS.String k) = Some (LRU.Bytes (content rd)).
Proof.
  intros Hmiss Hcap Hprobe Hread. unfold Get.
  rewrite Get_miss by done. rewrite set_dataCache_same.
  unfold Get_remote. io_simpl. rewrite Hprobe. simpl. rewrite Hread.
  eexists. split; [reflexivity|]. split; [reflexivity|].
  simpl. by apply Peek_Add.
Qed.

(** X8. A [Get] of a key whose bytes are in the data cache is answered
    from the cache: it returns them, whatever the remote store holds by
    now, and makes no remote call and no log entry; the index is left
    alone and the bytes stay cached. *)
Theorem Get_hit_is_local (gd : GCSDatastore) (k : DS.Key) (e : Env W)
        (b : bytes) :
  LRU.Peek (dataCache gd) (DS.String k) = Some (LRU.Bytes b) ->
  exists gd',
    Get gd k e = ((b, None, gd'), e)
    /\ mdCache gd' = mdCache gd
    /\ config gd' = config gd
    /\ LRU.Peek (dataCache gd') (DS.String k) = Some (LRU.Bytes b).
Proof.
  intros Hhit. unfold Get.
  rewrite (Get_hit _ _ _ Hhit). simpl.
  eexists. split; [reflexivity|]. split; [reflexivity|].
  split; [reflexivity|]. simpl. unfold LRU.Peek. simpl. apply find_head.
Qed.

(** X9. When [Get] misses the data cache, an error of the remote store
    other than "object does not exist" on the probe, and any error on
    opening the reader, is returned as it is, with no bytes; the adapter
    is exactly as before. In particular an object that disappears
    between the probe and the read surfaces as the storage error, not as
    [ds.ErrNotFound]. *)
Theorem Get_returns_remote_errors (gd : GCSDatastore) (k : DS.Key)
        (e : Env W) :
  LRU.Peek (dataCache gd) (DS.String k) = None ->
  (forall err w,
      ObjectProbe (Bucket (config gd)) (GCSPath gd (DS.String k)) (world e)
        = (Some err, w) ->
      err <> ErrObjectNotExist ->
      exists e', Get gd k e = (([], Some err, gd), e') /\ world e' = w)
  /\ (forall err w1 w2,
        ObjectProbe (Bucket (config gd)) (GCSPath gd (DS.String k)) (world e)
          = (None, w1) ->
        ObjectNewReader (Bucket (config gd)) (GCSPath gd (DS.String k)) w1
          = (inr err, w2) ->
        exists e', Get gd k e = (([], Some err, gd), e') /\ world e' = w2).
Proof.
  intros Hmiss. split.
  - intros err w Hprobe Hne. unfold Get.
    rewrite Get_miss by done. rewrite set_dataCache_same.
    unfold Get_remote. io_simpl. rewrite Hprobe.
    unfold err_is. rewrite bool_decide_eq_false_2 by congruence.
    eexists. split; reflexivity.
  - intros err w1 w2 Hprobe Hread. unfold Get.
    rewrite Get_miss by done. rewrite set_dataCache_same.
    unfold Get_remote. io_simpl. rewrite Hprobe. simpl. rewrite Hread.
    eexists. split; reflexivity.
Qed.

End ReadingProperties.

(** ** [gcsds.go]: what writing leaves alone *)

Section LRUBound.

Import LRU.

Lemma length_drop_le key l : (length (drop key l) <= length l)%nat.
Proof.
  unfold drop. induction l as [|[k v] l IH]; simpl; [done|].
  destruct (String.eqb k key); simpl; lia.
Qed.

Lemma length_drop_found key l v :
  find key l = Some v -> (length (drop key l) < length l)%nat.
Proof.
  unfold find, drop. induction l as [|[k v0] l IH]; simpl; [done|].
  destruct (String.eqb k key); simpl.
  - intros _. pose proof (length_drop_le key l) as Hle.
    unfold drop in Hle. lia.
  - intros Hf. apply IH in Hf. lia.
Qed.

Lemma length_removelast {A} (l : list A) :
  length (removelast l) = pred (length l).
Proof.
  induction l as [|x l IH]; [done|].
  destruct l as [|y l]; [done|].
  change (length (removelast (x :: y :: l)))
    with (S (length (removelast (y :: l)))).
  by rewrite IH.
Qed.

Lemma Add_bounded c key v :
  GoInt.len (items c) <= size c ->
  GoInt.len (items (fst (Add c key v))) <= size c.
Proof.
  unfold GoInt.len, Add. intros Hb.
  destruct (find key (items c)) eqn:Hf; cbn [fst items].
  - apply length_drop_found in Hf. simpl. lia.
  - destruct (size c <? _) eqn:Hlt.
    + rewrite length_removelast. simpl. lia.
    + apply Z.ltb_ge in Hlt. done.
Qed.

Lemma Get_bounded c key :
  GoInt.len (items c) <= size c ->
  GoInt.len (items (snd (Get c key))) <= size c.
Proof.
  unfold GoInt.len, Get. intros Hb.
  destruct (find key (items c)) eqn:Hf; cbn [snd items]; [|done].
  apply length_drop_found in Hf. simpl. lia.
Qed.

Lemma Remove_bounded c key :
  GoInt.len (items c) <= size c ->
  GoInt.len (items (fst (Remove c key))) <= size c.
Proof.
  unfold GoInt.len, Remove. intros Hb.
  destruct (find key (items c)) eqn:Hf; cbn [fst items]; [|done].
  pose proof (length_drop_le key (items c)). lia.
Qed.

End LRUBound.

Section WritingProperties.

Context {W : Type} `{Storage W}.

(** X10. [Put(k, v)] touches the index at [k] only: whether it succeeds or
    fails, every other key is indexed afterwards exactly as before (even
    when its bytes are evicted from the data cache), and the
    configuration is unchanged. *)
Theorem Put_leaves_other_keys (gd : GCSDatastore) (k : DS.Key) (v : bytes)
        (e : Env W) (key : string) :
  key <> DS.String k ->
  MetadataCache.cache (mdCache (snd (fst (Put gd k v e)))) !! key
  = MetadataCache.cache (mdCache gd) !! key
  /\ config (snd (fst (Put gd k v e))) = config gd.
Proof.
  intros Hne. rewrite Put_unfold.
  destruct (ObjectWrite _ _ _ _ _) as [[err|] w]; simpl; [done|].
  by rewrite lookup_insert_ne.
Qed.

(** X11. [Delete(k)] touches the adapter at [k] only: every other key is
    indexed afterwards as before, and what the data cache holds for it is
    unchanged. *)
Theorem Delete_leaves_other_keys (gd : GCSDatastore) (k : DS.Key)
        (e : Env W) (key : string) :
  key <> DS.String k ->
  MetadataCache.cache (mdCache (snd (fst (Delete gd k e)))) !! key
  = MetadataCache.cache (mdCache gd) !! key
  /\ LRU.Peek (dataCache (snd (fst (Delete gd k e)))) key
     = LRU.Peek (dataCache gd) key
  /\ config (snd (fst (Delete gd k e))) = config gd.
Proof.
  intros Hne. rewrite Delete_unfold.
  assert (LRU.Peek (fst (LRU.Remove (dataCache gd) (DS.String k))) key
          = LRU.Peek (dataCache gd) key) as Hpeek.
  { unfold LRU.Peek, LRU.Remove.
    destruct (LRU.find (DS.String k) (LRU.items (dataCache gd)));
      simpl; [|done].
    apply find_drop_ne. congruence. }
  destruct (ObjectDelete _ _ _) as [[[]|] w]; simpl; try done;
    by rewrite lookup_delete_ne.
Qed.

(** X12. The data cache never outgrows its capacity: when it holds no
    more items than its capacity, it still does after [Put], [Get] and
    [Delete], whatever the remote store answers. *)
Theorem cache_stays_bounded (gd : GCSDatastore) (k : DS.Key) (v : bytes)
        (e : Env W) :
  cache_bounded gd ->
  cache_bounded (snd (fst (Put gd k v e)))
  /\ cache_bounded (snd (fst (Get gd k e)))
  /\ cache_bounded (snd (fst (Delete gd k e))).
Proof.
  unfold cache_bounded. intros Hb. split; [|split].
  - rewrite Put_unfold.
    destruct (ObjectWrite _ _ _ _ _) as [[err|] w]; simpl; [done|].
    rewrite size_Add. by apply Add_bounded.
  - unfold Get.
    pose proof (Get_bounded (dataCache gd) (DS.String k) Hb) as Hg.
    pose proof (size_Get (dataCache gd) (DS.String k)) as Hs.
    destruct (LRU.Get (dataCache gd) (DS.String k)) as [[value ok] c].
    simpl in Hg, Hs.
    assert (forall e0 : Env W,
               GoInt.len (LRU.items (dataCache
                 (snd (fst (Get_remote (set_dataCache gd c) (DS.String k) e0)))))
               <= LRU.size (dataCache
                 (snd (fst (Get_remote (set_dataCache gd c) (DS.String k) e0)))))
      as Hremote.
    { intros e0. unfold Get_remote. io_simpl.
      destruct (ObjectProbe _ _ _) as [[err|] w]; simpl.
      - destruct (err_is (Some err) ErrObjectNotExist); simpl; lia.
      - destruct (ObjectNewReader _ _ _) as [[rd|err] w']; simpl; [|lia].
        rewrite size_Add. apply Add_bounded. lia. }
    destruct ok; [destruct value as [[b|tag]|]|]; io_simpl;
      try apply Hremote; lia.
  - rewrite Delete_unfold.
    destruct (ObjectDelete _ _ _) as [[[]|] w]; simpl; try done;
      rewrite size_Remove; by apply Remove_bounded.
Qed.

End WritingProperties.

(** ** [gcsds.go]: [LoadMetadata] *)

Section LoadingProperties.

Context {W : Type} `{Storage W}.

Lemma LoadMetadata_loop_app objs rest :
  forall gd listed (e : Env W),
    exists gd' listed',
      LoadMetadata_loop (inl <$> objs) gd listed e = ((None, gd', listed'), e)
      /\ LoadMetadata_loop ((inl <$> objs) ++ rest) gd listed e
         = LoadMetadata_loop rest gd' listed' e.
Proof.
  induction objs as [|a objs IH]; intros gd listed e.
  - by exists gd, listed.
  - simpl. apply IH.
Qed.

Lemma LoadMetadata_loop_has it :
  forall gd listed (e : Env W) key,
    MetadataCache.Has (mdCache gd) key = true ->
    MetadataCache.Has
      (mdCache (snd (fst (fst (LoadMetadata_loop it gd listed e))))) key
    = true.
Proof.
  induction it as [|x it IH]; intros gd listed e key Hhas; [done|].
  destruct x as [a|err]; simpl.
  - apply IH. unfold MetadataCache.Has in *. simpl.
    rewrite lookup_insert. by case_decide.
  - by destruct (err_is (Some err) IteratorDone).
Qed.

(** X13. When the listing fails part of the way, [LoadMetadata] returns
    the listing error, but the objects listed before it stay in the
    index: the load is not undone. The data cache is not touched. *)
Theorem LoadMetadata_fails_midway (gd : GCSDatastore) (e : Env W)
        (objs : list ObjectAttrs) (err : error)
        (rest : list (ObjectAttrs + error)) (w : W) :
  Objects (Bucket (config gd)) (Prefix (config gd)) (world e)
    = ((inl <$> objs) ++ inr err :: rest, w) ->
  err <> IteratorDone ->
  exists gd' e',
    LoadMetadata gd e = ((Some err, gd'), e')
    /\ world e' = w
    /\ dataCache gd' = dataCache gd
    /\ forall a, a ∈ objs ->
                 MetadataCache.Has (mdCache gd') (filed gd a) = true.
Proof.
  intros Hobj Hne. unfold LoadMetadata. io_simpl. rewrite Hobj.
  set (e0 := {| world := w; logged := logged e |}).
  destruct (LoadMetadata_loop_app objs (inr err :: rest) gd 0 e0)
    as (gd' & listed' & Hpre & Happ).
  unfold ret in *. rewrite Happ. simpl.
  unfold err_is. rewrite bool_decide_eq_false_2 by congruence.
  simpl. exists gd'. eexists. split; [reflexivity|]. split; [reflexivity|].
  split.
  - destruct (LoadMetadata_loop_stable objs gd 0 e0)
      as (gd1 & n1 & Hloop & _ & Hdc & _).
    unfold ret in Hloop. rewrite Hloop in Hpre. by injection Hpre as <- _.
  - intros a Ha.
    destruct (LoadMetadata_loop_records (inl <$> objs) gd 0 e0 a)
      as (gd1 & n1 & Hloop & _ & _ & [m Hm]).
    + apply Forall_fmap, Forall_forall. intros x _. by exists x.
    + apply list_elem_of_fmap. by exists a.
    + unfold ret in Hloop. rewrite Hloop in Hpre. injection Hpre as <- _.
      unfold MetadataCache.Has. unfold filed. by rewrite Hm.
Qed.

(** X14. When the listing goes through and no two listed objects have the
    same name after the prefix, [LoadMetadata] succeeds, files every
    listed object under its name without the prefix, with its size,
    leaves every other key of the index as it was, and does not touch the
    data cache. *)
Theorem LoadMetadata_indexes_listing (gd : GCSDatastore) (e : Env W)
        (objs : list ObjectAttrs) (w : W) :
  Objects (Bucket (config gd)) (Prefix (config gd)) (world e)
    = (inl <$> objs, w) ->
  NoDup (filed gd <$> objs) ->
  exists gd' e',
    LoadMetadata gd e = ((None, gd'), e')
    /\ world e' = w
    /\ dataCache gd' = dataCache gd
    /\ (forall a, a ∈ objs ->
                  MetadataCache.cache (mdCache gd') !! filed gd a
                  = Some {| Key := filed gd a; Size := ObjSize a |})
    /\ (forall key, key ∉ filed gd <$> objs ->
                    MetadataCache.cache (mdCache gd') !! key
                    = MetadataCache.cache (mdCache gd) !! key).
Proof.
  intros Hobj Hnd. unfold LoadMetadata. io_simpl. rewrite Hobj.
  set (e0 := {| world := w; logged := logged e |}).
  destruct (LoadMetadata_loop_stable objs gd 0 e0)
    as (gd' & n & Hloop & _ & Hdc & Hkeep).
  unfold ret in *. rewrite Hloop. simpl.
  exists gd'. eexists. split; [reflexivity|]. split; [reflexivity|].
  split; [exact Hdc|]. split; [|exact Hkeep].
  intros a Ha.
  destruct (LoadMetadata_loop_lookup objs gd 0 e0 a Hnd Ha)
    as (gd1 & n1 & Hloop1 & _ & _ & Hidx).
  unfold ret in Hloop1. rewrite Hloop1 in Hloop. by injection Hloop as <- _.
Qed.

(** X15. [LoadMetadata] only ever adds to the index: a key that was
    indexed before is still indexed afterwards, whatever the remote
    listing holds (even when the object is gone from the bucket) and
    whether the load succeeds or fails. *)
Theorem LoadMetadata_never_forgets (gd : GCSDatastore) (e : Env W)
        (key : string) :
  MetadataCache.Has (mdCache gd) key = true ->
  MetadataCache.Has (mdCache (snd (fst (LoadMetadata gd e)))) key = true.
Proof.
  intros Hhas. unfold LoadMetadata. io_simpl.
  destruct (Objects _ _ _) as [it w].
  pose proof (LoadMetadata_loop_has it gd 0
                {| world := w; logged := logged e |} key Hhas) as Hloop.
  destruct (LoadMetadata_loop it gd 0 _) as [[[err gd'] n] e'].
  simpl in Hloop. by destruct err.
Qed.

End LoadingProperties.

(** ** [gcsds.go]: [Query] *)

Section QueryProperties.

Context {W : Type} `{Storage W}.

(** X16. A keys-only query is answered from the index alone. [Query]
    makes no remote call and no log entry, and the results hold a
    snapshot: whatever happens to the adapter and the remote store
    between the query and the reading of the results, the reader gets one
    entry per record of the snapshot, in its order, with the key, the
    size and no value, then the end of the results; reading changes
    neither the adapter nor the remote store. *)
Theorem keys_only_query_is_a_snapshot (order : MetadataCache.traversal)
        (gd : GCSDatastore) (q : DSQ.Query) (e : Env W) :
  DSQ.Orders q = [] -> DSQ.Filters q = [] -> DSQ.KeysOnly q = true ->
  exists r,
    Query order gd q e = ((Some r, None, gd), e)
    /\ values (metadata r)
       = values (MetadataCache.Iterator order (mdCache gd)
                                        (DSQ.Prefix q) (DSQ.Limit q))
    /\ forall gd' (e' : Env W),
        exists r2,
          drain (S (length (values (metadata r)))) gd' r [] e'
          = ((Some (key_entry <$> values (metadata r),
                    {| DSQ.entry := DSQ.empty_entry;
                       DSQ.Error := Some ErrNotFound |}),
              r2, gd'), e').
Proof.
  intros Ho Hf Hkeys. unfold Query. rewrite Ho, Hf, Hkeys. simpl.
  eexists. split; [reflexivity|]. split; [reflexivity|].
  intros gd' e'. cbn [metadata].
  destruct (drain_keys_only
              q (values (MetadataCache.Iterator order (mdCache gd)
                                                (DSQ.Prefix q) (DSQ.Limit q)))
              (S (length (values (MetadataCache.Iterator
                                    order (mdCache gd)
                                    (DSQ.Prefix q) (DSQ.Limit q)))))
              Hkeys 0 gd' e' [] ltac:(lia)) as [r2 Hd].
  exists r2. rewrite drop_0 in Hd. exact Hd.
Qed.

Lemma nextValue_query q q' it gd (e : Env W) :
  DSQ.KeysOnly q = DSQ.KeysOnly q' ->
  nextValue gd {| query := q; metadata := it |} e
  = let '((res, ok, r', gd'), e') :=
      nextValue gd {| query := q'; metadata := it |} e in
    ((res, ok, {| query := q; metadata := metadata r' |}, gd'), e').
Proof.
  intros Hk. unfold nextValue. cbn [query metadata]. rewrite Hk.
  destruct (MetadataCache.next it) as [[v|] it']; [|reflexivity].
  destruct (DSQ.KeysOnly q'); simpl; [reflexivity|].
  unfold bind.
  destruct (Get gd (DS.NewKey (Key v)) e) as [[[value [er|]] gd'] e'];
    reflexivity.
Qed.

Lemma drain_query q q' fuel :
  DSQ.KeysOnly q = DSQ.KeysOnly q' ->
  forall it gd (e : Env W) es,
    drain fuel gd {| query := q; metadata := it |} es e
    = let '((res, r2, gd2), e2) :=
        drain fuel gd {| query := q'; metadata := it |} es e in
      ((res, {| query := q; metadata := metadata r2 |}, gd2), e2).
Proof.
  intros Hk. induction fuel as [|fuel IH]; intros it gd e es; [reflexivity|].
  rewrite !drain_S. rewrite (nextValue_query q q') by done.
  destruct (nextValue gd {| query := q'; metadata := it |} e)
    as [[[[res ok] [q0 it']] gd'] e'] eqn:Hnext.
  assert (q0 = q') as ->.
  { unfold nextValue in Hnext. cbn [query metadata] in Hnext.
    destruct (MetadataCache.next it) as [[v|] it0].
    - destruct (negb (DSQ.KeysOnly q')).
      + unfold bind in Hnext.
        destruct (Get gd (DS.NewKey (Key v)) e) as [[[value [er|]] g] e0];
          io_simpl; by injection Hnext as _ _ <- _ _ _.
      + io_simpl. by injection Hnext as _ _ <- _ _ _.
    - io_simpl. by injection Hnext as _ _ <- _ _ _. }
  cbn [metadata]. destruct ok; simpl; [|reflexivity].
  apply IH.
Qed.

(** X17. Of a request without orders and filters, [Query] looks at the
    prefix, the limit and [KeysOnly] only: two requests that agree on
    these produce the same entries, whatever their [Offset],
    [ReturnsSizes] and [ReturnExpirations] are. In particular an offset
    is not applied, and the sizes come whether asked for or not. *)
Theorem Query_ignores_offset (order : MetadataCache.traversal)
        (gd : GCSDatastore) (q q' : DSQ.Query) (e : Env W)
        (es : list DSQ.Entry) :
  DSQ.Orders q = [] -> DSQ.Filters q = [] ->
  DSQ.Orders q' = [] -> DSQ.Filters q' = [] ->
  DSQ.Prefix q = DSQ.Prefix q' ->
  DSQ.Limit q = DSQ.Limit q' ->
  DSQ.KeysOnly q = DSQ.KeysOnly q' ->
  produces order gd q e es -> produces order gd q' e es.
Proof.
  intros Ho Hf Ho' Hf' Hp Hl Hk.
  intros (r & gd1 & e1 & last & r2 & gd2 & e2 & HQ & Hd).
  assert (forall q0,
             DSQ.Orders q0 = [] -> DSQ.Filters q0 = [] ->
             Query order gd q0 e
             = ((Some {| query := q0;
                         metadata := MetadataCache.Iterator
                                       order (mdCache gd)
                                       (DSQ.Prefix q0) (DSQ.Limit q0) |},
                 None, gd),
                if negb (DSQ.KeysOnly q0)
                then {| world := world e;
                        logged := logged e ++
                          [{| format := "GCSDatastore: Requested all values for prefix '%v'. This could be expensive.";
                              args := [LStr (DSQ.Prefix q0)] |}] |}
                else e)) as HQuery.
  { intros q0 H1 H2. unfold Query. rewrite H1, H2. simpl.
    by destruct (DSQ.KeysOnly q0). }
  rewrite (HQuery q Ho Hf) in HQ. injection HQ as <- <- <-.
  cbn [metadata] in Hd.
  rewrite (drain_query q q' _ Hk) in Hd.
  destruct (drain _ gd {| query := q'; metadata := _ |} [] _)
    as [[[res r2'] gd2'] e2'] eqn:Hd'.
  injection Hd as -> _ _ _.
  eexists _, gd, _, last, r2', gd2', e2'.
  split; [apply (HQuery q' Ho' Hf')|].
  cbn [metadata]. rewrite <- Hp, <- Hl, <- Hk. exact Hd'.
Qed.

End QueryProperties.

(** ** [gcsds.go] over the bucket held in memory *)

Section RemoteRoundTrip.

Import MemGCS.

Lemma mem_read_found b o (w : World) objs data :
  buckets w !! b = Some objs ->
  objs !! o = Some data ->
  faults w = [] ->
  mem_ObjectProbe b o w = (None, w)
  /\ mem_ObjectNewReader b o w
     = (inl {| content := data; read_err := None |}, w).
Proof.
  intros Hb Ho Hf. unfold mem_ObjectProbe, mem_ObjectNewReader, next_fault.
  rewrite Hf, Hb, Ho. done.
Qed.

Lemma mem_write_stores b o ctype data (w : World) objs :
  buckets w !! b = Some objs ->
  faults w = [] ->
  mem_ObjectWrite b o ctype data w
  = (None, {| buckets := <[b := <[o := data]> objs]> (buckets w);
              faults := [] |}).
Proof.
  intros Hb Hf. unfold mem_ObjectWrite, next_fault, set_bucket.
  rewrite Hf, Hb. by rewrite Hf.
Qed.

(** X18. What one adapter puts, another one gets: after a [Put(k, v)]
    through an adapter, a [Get(k)] through any adapter of the same
    configuration whose data cache does not hold [k] (a new one, say)
    reads [v] back from the bucket, since both address the object by the
    same path. The bucket exists and no fault occurs. *)
Theorem remote_round_trip (gd1 gd2 : GCSDatastore) (k : DS.Key) (v : bytes)
        (w : World) (l : list LogLine) (objs : gmap string bytes) :
  buckets w !! Bucket (config gd1) = Some objs ->
  faults w = [] ->
  config gd2 = config gd1 ->
  LRU.Peek (dataCache gd2) (DS.String k) = None ->
  exists gd1' e1 gd2',
    Put gd1 k v {| world := w; logged := l |} = ((None, gd1'), e1)
    /\ Get gd2 k e1 = ((v, None, gd2'), e1).
Proof.
  intros Hb Hf Hcfg Hmiss.
  rewrite Put_unfold. cbn [world ObjectWrite storage].
  rewrite (mem_write_stores _ _ _ _ _ _ Hb Hf).
  do 3 eexists. split; [reflexivity|].
  unfold Get. rewrite Get_miss by done. rewrite set_dataCache_same.
  unfold Get_remote, GCSPath. rewrite Hcfg.
  unfold bind, remote. cbn [world ObjectProbe ObjectNewReader storage].
  destruct (mem_read_found
              (Bucket (config gd1))
              (Path.Join [Prefix (config gd1); DS.String k])
              {| buckets :=
                   <[Bucket (config gd1) :=
                       <[Path.Join [Prefix (config gd1); DS.String k] := v]>
                         objs]> (buckets w);
                 faults := [] |}
              (<[Path.Join [Prefix (config gd1); DS.String k] := v]> objs) v)
    as [Hprobe Hread].
  { apply lookup_insert_eq. }
  { apply lookup_insert_eq. }
  { reflexivity. }
  rewrite Hprobe. cbn [err_is]. simpl. rewrite Hread. reflexivity.
Qed.

End RemoteRoundTrip.


(** ** The plugin *)

Section PluginProperties.

Import Plugin.

Variable float64 : Type.
Variable int_of_float64 : float64 -> Z.

Abbreviation parse := (ConfigFromMap float64 int_of_float64).

(** X19. A configuration the parser accepts is usable: its bucket is the
    string of the map, its worker count and its cache size are positive
    (so that the adapter's constructor will not refuse the cache size),
    and each of prefix, workers and cache size that the map does not give
    has its default: ["ipfs/"], 100 and 40000. *)
Theorem parsed_config_is_valid (m : gmap string (value float64))
        (gc : GcsConfig) (log : list LogLine) :
  parse m = (Parsed float64 gc, log) ->
  m !! "bucket" = Some (VString float64 (Bucket (cfg gc)))
  /\ 0 < Workers (cfg gc)
  /\ 0 < DataCacheItems (cfg gc)
  /\ (m !! "prefix" = None -> Prefix (cfg gc) = defaultPrefix)
  /\ (forall s, m !! "prefix" = Some (VString float64 s) ->
                 Prefix (cfg gc) = s)
  /\ (m !! "workers" = None -> Workers (cfg gc) = defaultWorkers)
  /\ (m !! "cachesize" = None -> DataCacheItems (cfg gc) = defaultCacheSize).
Proof.
  unfold ConfigFromMap. intros Hparse.
  destruct (m !! "bucket") as [[bucket| | |]|]; try discriminate.
  destruct (m !! "prefix") as [[prefix| | |]|]; try discriminate;
    (destruct (m !! "workers") as [[|wf|wi|]|]; try discriminate;
     [destruct (int_of_float64 wf <=? 0) eqn:Hw; try discriminate
     |destruct (wi <=? 0) eqn:Hw; try discriminate
     |];
     (destruct (m !! "cachesize") as [[|cf|ci|]|]; try discriminate;
      [destruct (int_of_float64 cf <=? 0) eqn:Hc; try discriminate
      |destruct (ci <=? 0) eqn:Hc; try discriminate
      |]));
    injection Hparse as <- _; simpl;
    repeat match goal with
           | Hx : (_ <=? 0) = false |- _ => apply Z.leb_gt in Hx
           end;
    unfold defaultWorkers, defaultCacheSize;
    repeat split; try done; try lia; by intros s [= ->].
Qed.

(** X20. The bucket is looked at first: a map without a bucket, or with a
    bucket that is not a string, is refused with "no bucket specified"
    whatever else it holds, and nothing is logged. An empty string is a
    bucket for the parser. *)
Theorem bucket_is_required (m : gmap string (value float64)) :
  ((forall s, m !! "bucket" <> Some (VString float64 s)) ->
   parse m = (Rejected float64 "gcsds: no bucket specified" [], []))
  /\ (forall s, m !! "bucket" = Some (VString float64 s) ->
                 parse m <> (Rejected float64 "gcsds: no bucket specified" [],
                             [])).
Proof.
  unfold ConfigFromMap. split.
  - intros Hno. destruct (m !! "bucket") as [[bucket| | |]|]; try done.
    by destruct (Hno bucket).
  - intros s ->.
    destruct (m !! "prefix") as [[prefix| | |]|]; try discriminate;
      (destruct (m !! "workers") as [[|wf|wi|]|]; try discriminate;
       [destruct (int_of_float64 wf <=? 0); try discriminate
       |destruct (wi <=? 0); try discriminate
       |];
       (destruct (m !! "cachesize") as [[|cf|ci|]|]; try discriminate;
        [destruct (int_of_float64 cf <=? 0); discriminate
        |destruct (ci <=? 0); discriminate])).
Qed.

(** X21. A prefix that is not a string is not refused with an error: once
    the bucket is a string, the unchecked type assertion on the prefix
    panics, whatever the workers and the cache size are. *)
Theorem prefix_of_wrong_type_panics (m : gmap string (value float64))
        (bucket : string) (v : value float64) :
  m !! "bucket" = Some (VString float64 bucket) ->
  m !! "prefix" = Some v ->
  (forall s, v <> VString float64 s) ->
  parse m = (ConversionPanic float64, []).
Proof.
  intros Hb Hp Hv. unfold ConfigFromMap. rewrite Hb, Hp.
  destruct v as [s| | |]; try done. by destruct (Hv s).
Qed.

(** X22. The parser reads the four keys bucket, prefix, workers and
    cachesize and nothing else: two maps that agree on these are parsed
    alike, so that a further key (the "type" of the datastore, say) is
    ignored. *)
Theorem parser_reads_four_keys (m m' : gmap string (value float64)) :
  m !! "bucket" = m' !! "bucket" ->
  m !! "prefix" = m' !! "prefix" ->
  m !! "workers" = m' !! "workers" ->
  m !! "cachesize" = m' !! "cachesize" ->
  parse m = parse m'.
Proof.
  intros Hb Hp Hw Hc. unfold ConfigFromMap. by rewrite Hb, Hp, Hw, Hc.
Qed.

End PluginProperties.

Section CreateProperties.

Import Plugin.

Context {W : Type} `{Storage W}.

Lemma NewGCSDatastore_answers cfg0 (e : Env W) :
  (exists gd e1, NewGCSDatastore cfg0 e = ((Some gd, None), e1))
  \/ (exists err e1, NewGCSDatastore cfg0 e = ((None, Some err), e1)).
Proof.
  unfold NewGCSDatastore, CheckBucket. io_simpl.
  destruct (NewClient (world e)) as [[err|] w]; [right; by do 2 eexists|].
  destruct (LRU.New (DataCacheItems cfg0)) as [c|err];
    [|right; by do 2 eexists].
  simpl. destruct (BucketAttrs _ _) as [[err|] w'].
  - right. by do 2 eexists.
  - left. by do 2 eexists.
Qed.

Lemma Create_unfold gc path (e : Env W) :
  Create gc path e
  = let '((gd, err), e1) :=
      NewGCSDatastore
        (cfg gc)
        {| world := world e;
           logged := logged e ++
             [{| format := "Create() path: %s\n"; args := [LStr path] |}] |} in
    match gd, err with
    | _, Some err => ((None, Some err), e1)
    | None, None => ((None, None), e1)
    | Some gd, None =>
        let '((err', gd'), e2) := LoadMetadata gd e1 in
        match err' with
        | Some err' => ((None, Some err'), e2)
        | None => ((Some gd', None), e2)
        end
    end.
Proof.
  unfold Create, bind, Printf, ret.
  destruct (NewGCSDatastore _ _) as [[[gd|] [err|]] e1]; try reflexivity.
  by destruct (LoadMetadata gd e1) as [[[err'|] gd'] e2].
Qed.

(** X23. [Create] answers an adapter and no error, or an error and no
    adapter. It answers an adapter exactly when the constructor does and
    the bulk load of the new adapter then succeeds, and that adapter is
    the one the bulk load left; an error of the constructor comes back
    before any listing is tried. *)
Theorem Create_outcome (gc : GcsConfig) (path : string) (e : Env W) :
  let e0 := {| world := world e;
               logged := logged e ++
                 [{| format := "Create() path: %s\n";
                     args := [LStr path] |}] |} in
  (exists gd e1 gd' e2,
      NewGCSDatastore (cfg gc) e0 = ((Some gd, None), e1)
      /\ LoadMetadata gd e1 = ((None, gd'), e2)
      /\ Create gc path e = ((Some gd', None), e2))
  \/ (exists err e1,
         NewGCSDatastore (cfg gc) e0 = ((None, Some err), e1)
         /\ Create gc path e = ((None, Some err), e1))
  \/ (exists gd e1 err gd' e2,
         NewGCSDatastore (cfg gc) e0 = ((Some gd, None), e1)
         /\ LoadMetadata gd e1 = ((Some err, gd'), e2)
         /\ Create gc path e = ((None, Some err), e2)).
Proof.
  intros e0. rewrite Create_unfold. fold e0.
  destruct (NewGCSDatastore_answers (cfg gc) e0)
    as [(gd & e1 & Hnew) | (err & e1 & Hnew)]; rewrite Hnew.
  - destruct (LoadMetadata gd e1) as [[[err|] gd'] e2] eqn:Hload.
    + right. right. by exists gd, e1, err, gd', e2.
    + left. by exists gd, e1, gd', e2.
  - right. left. by exists err, e1.
Qed.

(** X24. With a configuration the parser accepted, [Create] does not
    stumble on the cache size: when the client can be created and the
    bucket answers the check, it comes to the bulk load of a new adapter
    with that configuration, and its answer is the one of the load. *)
Theorem Create_of_parsed_config (float64 : Type)
        (int_of_float64 : float64 -> Z) (m : gmap string (value float64))
        (gc : GcsConfig) (log : list LogLine) (path : string) (e : Env W)
        (w w' : W) :
  ConfigFromMap float64 int_of_float64 m = (Parsed float64 gc, log) ->
  NewClient (world e) = (None, w) ->
  BucketAttrs (Bucket (cfg gc)) w = (None, w') ->
  Create gc path e
  = let '((err, gd), e2) :=
      LoadMetadata
        {| config := cfg gc;
           mdCache := MetadataCache.NewMetadataCache;
           dataCache := {| LRU.size := DataCacheItems (cfg gc);
                           LRU.items := [] |} |}
        {| world := w';
           logged := logged e ++
             [{| format := "Create() path: %s\n"; args := [LStr path] |}] |} in
    match err with
    | Some err => ((None, Some err), e2)
    | None => ((Some gd, None), e2)
    end.
Proof.
  intros Hparse Hclient Hbucket. rewrite Create_unfold.
  assert (0 < DataCacheItems (cfg gc)) as Hsz.
  { revert Hparse. unfold ConfigFromMap.
    destruct (m !! "bucket") as [[bucket| | |]|]; try discriminate.
    destruct (m !! "prefix") as [[prefix| | |]|]; try discriminate;
      (destruct (m !! "workers") as [[|wf|wi|]|]; try discriminate;
       [destruct (int_of_float64 wf <=? 0); try discriminate
       |destruct (wi <=? 0); try discriminate
       |];
       (destruct (m !! "cachesize") as [[|cf|ci|]|]; try discriminate;
        [destruct (int_of_float64 cf <=? 0) eqn:Hc; try discriminate
        |destruct (ci <=? 0) eqn:Hc; try discriminate
        |]));
      intros [= <- _]; simpl; try (by apply Z.leb_gt); done. }
  unfold NewGCSDatastore, CheckBucket, LRU.New. io_simpl.
  rewrite Hclient.
  assert ((DataCacheItems (cfg gc) <=? 0) = false) as -> by by apply Z.leb_gt.
  simpl. rewrite Hbucket.
  by destruct (LoadMetadata _ _) as [[[err|] gd'] e2].
Qed.

End CreateProperties.


(** ** The container entry point *)

Section EntrypointProperties.

Import Entrypoint.

Lemma listBuckets_app names rest :
  forall acc,
    listBuckets ((inl <$> names) ++ rest) acc
    = listBuckets rest
        (acc ++ filter (fun b => is_artifact_bucket b = false) names).
Proof.
  induction names as [|b names IH]; intros acc; simpl.
  - by rewrite app_nil_r.
  - destruct (is_artifact_bucket b) eqn:Hb.
    + rewrite IH. by rewrite filter_cons_False by congruence.
    + rewrite IH. rewrite filter_cons_True by done.
      by rewrite <- app_assoc.
Qed.

(** X25. [listBuckets] returns the listed bucket names in the order of
    the listing, without the buckets of the container registry (named
    [artifacts.….a.appspot.com]). When the listing fails part of the
    way, it returns the error together with the names it got before
    it. *)
Theorem listBuckets_skips_artifacts (names : list string) (err : error)
        (rest : list (string + error)) :
  listBuckets (inl <$> names) []
  = (filter (fun b => is_artifact_bucket b = false) names, None)
  /\ (err <> IteratorDone ->
      listBuckets ((inl <$> names) ++ inr err :: rest) []
      = (filter (fun b => is_artifact_bucket b = false) names, Some err)).
Proof.
  split.
  - rewrite <- (app_nil_r (inl <$> names)). by rewrite listBuckets_app.
  - intros Hne. rewrite listBuckets_app. simpl.
    unfold err_is. by rewrite bool_decide_eq_false_2 by congruence.
Qed.

Lemma pick_existing_find objects buckets :
  (forall b, b ∈ buckets -> ~ listing_fails (objects b)) ->
  pick_existing objects buckets
  = Value (List.find (fun b => has_contents (objects b)) buckets).
Proof.
  induction buckets as [|b buckets IH]; intros Hok; [done|].
  simpl. unfold foundPrefixInGCS, has_contents.
  assert (~ listing_fails (objects b)) as Hb
      by (apply Hok; by apply elem_of_cons; left).
  destruct (objects b) as [|[a|err] it] eqn:Hobj.
  - apply IH. intros b' Hb'. apply Hok. by apply elem_of_cons; right.
  - done.
  - unfold err_is. case_bool_decide as Hd.
    + apply IH. intros b' Hb'. apply Hok. by apply elem_of_cons; right.
    + destruct Hb. exists err, it. split; [done|]. congruence.
Qed.

(** X26. [chooseBucket] returns the configured bucket when there is one,
    whatever the project holds and whether or not its listings fail.
    Otherwise it works on the names [listBuckets] returns, even when the
    listing ended in an error, which it drops: with no name it ends the
    process; with names, and when no listing of their contents fails, it
    returns the first bucket that holds an object under the prefix, and
    the first bucket of all when none does. *)
Theorem chooseBucket_choice (cfg : Config) (listing : list (string + error))
        (objects : string -> list (ObjectAttrs + error)) :
  (Bucket cfg <> "" -> chooseBucket cfg listing objects = Value (Bucket cfg))
  /\ (Bucket cfg = "" ->
      fst (listBuckets listing []) = [] ->
      chooseBucket cfg listing objects = Exited "No buckets found." [])
  /\ (Bucket cfg = "" ->
      (forall b, b ∈ fst (listBuckets listing []) ->
                 ~ listing_fails (objects b)) ->
      forall first rest,
        fst (listBuckets listing []) = first :: rest ->
        chooseBucket cfg listing objects
        = Value (default first
                         (List.find (fun b => has_contents (objects b))
                                    (first :: rest)))).
Proof.
  unfold chooseBucket. split; [|split].
  - intros Hb. apply String.eqb_neq in Hb. by rewrite Hb.
  - intros Hb Hnone. rewrite Hb. simpl.
    destruct (listBuckets listing []) as [buckets lerr]. simpl in *.
    by subst buckets.
  - intros Hb Hok first rest Hnames. rewrite Hb. simpl.
    destruct (listBuckets listing []) as [buckets lerr]. simpl in *.
    subst buckets.
    rewrite (pick_existing_find objects (first :: rest) Hok).
    change (if has_contents (objects first) then Some first
            else List.find (fun b => has_contents (objects b)) rest)
      with (List.find (fun b => has_contents (objects b)) (first :: rest)).
    by destruct (List.find _ (first :: rest)).
Qed.

End EntrypointProperties.

Section CheckBucketInMemory.

Import Entrypoint MemGCS.

Lemma mem_delete_found b o (w : World) objs data :
  buckets w !! b = Some objs ->
  objs !! o = Some data ->
  faults w = [] ->
  mem_ObjectDelete b o w
  = (None, {| buckets := <[b := delete o objs]> (buckets w);
              faults := [] |}).
Proof.
  intros Hb Ho Hf. unfold mem_ObjectDelete, next_fault, set_bucket.
  rewrite Hf, Hb, Ho. by rewrite Hf.
Qed.

(** X27. On a bucket that exists and answers without fault, [checkBucket]
    succeeds and leaves every object as it was, except the object named
    by the configured prefix followed by ["test"]: that one is gone
    afterwards, also when it held data before. The prefix it is called
    with plays no part. *)
Theorem checkBucket_removes_test_object (cfg : Config)
        (project bucket prefix : string) (w : World) (l : list LogLine)
        (objs : gmap string bytes) :
  buckets w !! bucket = Some objs ->
  faults w = [] ->
  checkBucket cfg project bucket prefix {| world := w; logged := l |}
  = (Value tt,
     {| world := {| buckets :=
                      <[bucket := delete (String.append (Prefix cfg) "test")
                                         objs]> (buckets w);
                    faults := [] |};
        logged := l |}).
Proof.
  intros Hb Hf. unfold checkBucket, bind, remote.
  cbn [world ObjectWrite ObjectDelete storage].
  rewrite (mem_write_stores _ _ _ _ _ _ Hb Hf).
  rewrite (mem_delete_found
             _ _ _ (<[String.append (Prefix cfg) "test" := []]> objs) []).
  - unfold ret. simpl. by rewrite insert_insert_eq, delete_insert_eq.
  - apply lookup_insert_eq.
  - apply lookup_insert_eq.
  - reflexivity.
Qed.

End CheckBucketInMemory.

(** ** The further properties at work *)

Section FurtherWitnesses.

Import Scenario Examples.


Lemma NewGCSDatastore_refuses_cache_size_witness :
  NewClient (world env0) = (None, world env0)
  /\ DataCacheItems zero_cache <= 0
  /\ NewGCSDatastore zero_cache env0
     = ((None, Some (Errorf "Must provide a positive size")),
        {| world := world env0;
           logged := logged env0 ++
             [{| format := "Failed to create LRU cache err: %v\n";
                 args := [LErr (Errorf "Must provide a positive size")] |}]
        |}).
Proof.
  assert (NewClient (world env0) = (None, world env0)) as H1 by reflexivity.
  assert (DataCacheItems zero_cache <= 0) as H2 by (vm_compute; discriminate).
  split; [exact H1|]. split; [exact H2|].
  exact (NewGCSDatastore_refuses_cache_size zero_cache env0 _ H1 H2).
Defined.

(** A new adapter reads an object that was written out of band. *)
Lemma Get_miss_witness :
  LRU.Peek (dataCache (blank (cfg "ipfs" 1000))) (DS.String k1) = None
  /\ 0 < LRU.size (dataCache (blank (cfg "ipfs" 1000)))
  /\ ObjectProbe (Bucket (config (blank (cfg "ipfs" 1000))))
                 (GCSPath (blank (cfg "ipfs" 1000)) (DS.String k1))
                 (world one_object)
     = (None, world one_object)
  /\ ObjectNewReader (Bucket (config (blank (cfg "ipfs" 1000))))
                     (GCSPath (blank (cfg "ipfs" 1000)) (DS.String k1))
                     (world one_object)
     = (inl {| content := hello; read_err := None |}, world one_object)
  /\ exists gd',
      Get (blank (cfg "ipfs" 1000)) k1 one_object
      = ((hello, None, gd'),
         {| world := world one_object; logged := logged one_object |})
      /\ mdCache gd' = mdCache (blank (cfg "ipfs" 1000))
      /\ LRU.Peek (dataCache gd') (DS.String k1) = Some (LRU.Bytes hello).
Proof.
  assert (LRU.Peek (dataCache (blank (cfg "ipfs" 1000))) (DS.String k1)
          = None) as H1 by reflexivity.
  assert (0 < LRU.size (dataCache (blank (cfg "ipfs" 1000)))) as H2
    by reflexivity.
  assert (ObjectProbe (Bucket (config (blank (cfg "ipfs" 1000))))
                      (GCSPath (blank (cfg "ipfs" 1000)) (DS.String k1))
                      (world one_object)
          = (None, world one_object)) as H3 by (vm_compute; reflexivity).
  assert (ObjectNewReader (Bucket (config (blank (cfg "ipfs" 1000))))
                          (GCSPath (blank (cfg "ipfs" 1000)) (DS.String k1))
                          (world one_object)
          = (inl {| content := hello; read_err := None |}, world one_object))
    as H4 by (vm_compute; reflexivity).
  split; [exact H1|]. split; [exact H2|]. split; [exact H3|].
  split; [exact H4|].
  exact (Get_miss_fetches_and_caches _ k1 one_object _ _ _ H1 H2 H3 H4).
Defined.

(** The key just put is read from the cache while the remote store is
    failing. *)
Lemma Get_hit_witness :
  LRU.Peek (dataCache (fst after_put)) (DS.String k1)
  = Some (LRU.Bytes hello)
  /\ exists gd',
      Get (fst after_put) k1 env_failing = ((hello, None, gd'), env_failing)
      /\ mdCache gd' = mdCache (fst after_put)
      /\ config gd' = config (fst after_put)
      /\ LRU.Peek (dataCache gd') (DS.String k1) = Some (LRU.Bytes hello).
Proof.
  assert (LRU.Peek (dataCache (fst after_put)) (DS.String k1)
          = Some (LRU.Bytes hello)) as H1 by (vm_compute; reflexivity).
  split; [exact H1|].
  exact (Get_hit_is_local (fst after_put) k1 env_failing hello H1).
Defined.

(** A transport error on the probe. *)
Lemma Get_remote_error_witness :
  LRU.Peek (dataCache (blank (cfg "ipfs" 1000))) (DS.String k1) = None
  /\ exists e',
      Get (blank (cfg "ipfs" 1000)) k1 env_failing
      = (([], Some (Errorf "connection reset"), blank (cfg "ipfs" 1000)), e')
      /\ world e' = world env0.
Proof.
  assert (LRU.Peek (dataCache (blank (cfg "ipfs" 1000))) (DS.String k1)
          = None) as H1 by reflexivity.
  split; [exact H1|].
  destruct (Get_returns_remote_errors (blank (cfg "ipfs" 1000)) k1
                                      env_failing H1) as [Hprobe _].
  apply (Hprobe (Errorf "connection reset") (world env0)).
  - vm_compute. reflexivity.
  - discriminate.
Defined.

Lemma Put_leaves_other_keys_witness :
  "/other" <> DS.String k1
  /\ MetadataCache.cache
       (mdCache (snd (fst (Put (fst after_put) k1 hello (snd after_put)))))
       !! "/other"
     = MetadataCache.cache (mdCache (fst after_put)) !! "/other"
  /\ config (snd (fst (Put (fst after_put) k1 hello (snd after_put))))
     = config (fst after_put).
Proof.
  assert ("/other" <> DS.String k1) as H1 by (vm_compute; discriminate).
  split; [exact H1|].
  exact (Put_leaves_other_keys (fst after_put) k1 hello (snd after_put)
                               "/other" H1).
Defined.

Lemma Delete_leaves_other_keys_witness :
  "/k1" <> DS.String (DS.NewKey "b")
  /\ MetadataCache.cache
       (mdCache (snd (fst (Delete (fst after_put) (DS.NewKey "b")
                                  (snd after_put)))))
       !! "/k1"
     = MetadataCache.cache (mdCache (fst after_put)) !! "/k1"
  /\ LRU.Peek
       (dataCache (snd (fst (Delete (fst after_put) (DS.NewKey "b")
                                    (snd after_put)))))
       "/k1"
     = LRU.Peek (dataCache (fst after_put)) "/k1"
  /\ config (snd (fst (Delete (fst after_put) (DS.NewKey "b")
                              (snd after_put))))
     = config (fst after_put).
Proof.
  assert ("/k1" <> DS.String (DS.NewKey "b")) as H1
    by (vm_compute; discriminate).
  split; [exact H1|].
  exact (Delete_leaves_other_keys (fst after_put) (DS.NewKey "b")
                                  (snd after_put) "/k1" H1).
Defined.

(** A cache of one item that is full. *)
Lemma cache_stays_bounded_witness :
  cache_bounded (fst after_two_puts)
  /\ cache_bounded (snd (fst (Put (fst after_two_puts) k1 hello
                                  (snd after_two_puts))))
  /\ cache_bounded (snd (fst (Get (fst after_two_puts) k1
                                  (snd after_two_puts))))
  /\ cache_bounded (snd (fst (Delete (fst after_two_puts) k1
                                     (snd after_two_puts)))).
Proof.
  assert (cache_bounded (fst after_two_puts)) as H1
    by (vm_compute; discriminate).
  split; [exact H1|].
  exact (cache_stays_bounded (fst after_two_puts) k1 hello
                             (snd after_two_puts) H1).
Defined.

(** A listing that breaks after its first object. *)
Lemma LoadMetadata_fails_midway_witness :
  @Objects _ scripted_storage
           (Bucket (config (blank (cfg "ipfs" 1000))))
           (Prefix (config (blank (cfg "ipfs" 1000)))) (world broken_env)
  = ((inl <$> [{| Name := "ipfs/k1"; ObjSize := 5 |}])
       ++ inr (Errorf "connection reset")
       :: [inl {| Name := "ipfs/k2"; ObjSize := 7 |}],
     broken_listing)
  /\ Errorf "connection reset" <> IteratorDone
  /\ exists gd' e',
      @LoadMetadata _ scripted_storage (blank (cfg "ipfs" 1000)) broken_env
      = ((Some (Errorf "connection reset"), gd'), e')
      /\ world e' = broken_listing
      /\ dataCache gd' = dataCache (blank (cfg "ipfs" 1000))
      /\ forall a, a ∈ [{| Name := "ipfs/k1"; ObjSize := 5 |}] ->
                   MetadataCache.Has (mdCache gd')
                                     (filed (blank (cfg "ipfs" 1000)) a)
                   = true.
Proof.
  assert (@Objects _ scripted_storage
                   (Bucket (config (blank (cfg "ipfs" 1000))))
                   (Prefix (config (blank (cfg "ipfs" 1000))))
                   (world broken_env)
          = ((inl <$> [{| Name := "ipfs/k1"; ObjSize := 5 |}])
               ++ inr (Errorf "connection reset")
               :: [inl {| Name := "ipfs/k2"; ObjSize := 7 |}],
             broken_listing)) as H1 by reflexivity.
  assert (Errorf "connection reset" <> IteratorDone) as H2 by discriminate.
  split; [exact H1|]. split; [exact H2|].
  exact (@LoadMetadata_fails_midway _ scripted_storage
           (blank (cfg "ipfs" 1000)) broken_env _ _ _ _ H1 H2).
Defined.

(** One object under the prefix. *)
Lemma LoadMetadata_indexes_listing_witness :
  Objects (Bucket (config (blank (cfg "ipfs" 1000))))
          (Prefix (config (blank (cfg "ipfs" 1000)))) (world one_object)
  = (inl <$> [{| Name := "ipfs/k1"; ObjSize := 5 |}], world one_object)
  /\ NoDup (filed (blank (cfg "ipfs" 1000))
              <$> [{| Name := "ipfs/k1"; ObjSize := 5 |}])
  /\ exists gd' e',
      LoadMetadata (blank (cfg "ipfs" 1000)) one_object = ((None, gd'), e')
      /\ world e' = world one_object
      /\ MetadataCache.cache (mdCache gd') !! "/k1"
         = Some {| Key := "/k1"; Size := 5 |}.
Proof.
  assert (Objects (Bucket (config (blank (cfg "ipfs" 1000))))
                  (Prefix (config (blank (cfg "ipfs" 1000))))
                  (world one_object)
          = (inl <$> [{| Name := "ipfs/k1"; ObjSize := 5 |}],
             world one_object)) as H1 by (vm_compute; reflexivity).
  assert (NoDup (filed (blank (cfg "ipfs" 1000))
                   <$> [{| Name := "ipfs/k1"; ObjSize := 5 |}])) as H2
    by (apply NoDup_singleton).
  split; [exact H1|]. split; [exact H2|].
  destruct (LoadMetadata_indexes_listing
              (blank (cfg "ipfs" 1000)) one_object _ _ H1 H2)
    as (gd' & e' & HL & Hw & _ & Hidx & _).
  exists gd', e'. split; [exact HL|]. split; [exact Hw|].
  apply (Hidx {| Name := "ipfs/k1"; ObjSize := 5 |}).
  apply list_elem_of_singleton. reflexivity.
Defined.

(** A key whose object is gone from the bucket survives a reload. *)
Lemma LoadMetadata_never_forgets_witness :
  MetadataCache.Has (mdCache stale) "/gone" = true
  /\ MetadataCache.Has (mdCache (snd (fst (LoadMetadata stale env0))))
                       "/gone"
     = true.
Proof.
  assert (MetadataCache.Has (mdCache stale) "/gone" = true) as H1
    by (vm_compute; reflexivity).
  split; [exact H1|].
  exact (LoadMetadata_never_forgets stale env0 "/gone" H1).
Defined.

Lemma keys_only_query_witness :
  DSQ.Orders (q_all true) = []
  /\ DSQ.Filters (q_all true) = []
  /\ DSQ.KeysOnly (q_all true) = true
  /\ exists r,
      Query in_order (fst after_two_puts) (q_all true) (snd after_two_puts)
      = ((Some r, None, fst after_two_puts), snd after_two_puts)
      /\ forall gd' (e' : Env MemGCS.World),
          exists r2,
            drain (S (length (values (metadata r)))) gd' r [] e'
            = ((Some (key_entry <$> values (metadata r),
                      {| DSQ.entry := DSQ.empty_entry;
                         DSQ.Error := Some ErrNotFound |}),
                r2, gd'), e').
Proof.
  split; [reflexivity|]. split; [reflexivity|]. split; [reflexivity|].
  destruct (keys_only_query_is_a_snapshot
              in_order (fst after_two_puts) (q_all true)
              (snd after_two_puts) eq_refl eq_refl eq_refl)
    as (r & HQ & _ & Hread).
  exists r. split; [exact HQ | exact Hread].
Defined.

(** The same keys with an offset of one and the sizes asked for. *)
Lemma Query_ignores_offset_witness :
  DSQ.Orders (q_all true) = [] /\ DSQ.Filters (q_all true) = []
  /\ DSQ.Orders q_offset = [] /\ DSQ.Filters q_offset = []
  /\ DSQ.Prefix (q_all true) = DSQ.Prefix q_offset
  /\ DSQ.Limit (q_all true) = DSQ.Limit q_offset
  /\ DSQ.KeysOnly (q_all true) = DSQ.KeysOnly q_offset
  /\ produces in_order (fst after_two_puts) (q_all true)
              (snd after_two_puts) two_entries
  /\ produces in_order (fst after_two_puts) q_offset
              (snd after_two_puts) two_entries.
Proof.
  assert (produces in_order (fst after_two_puts) (q_all true)
                   (snd after_two_puts) two_entries) as H1.
  { destruct (Query_accepts in_order (fst after_two_puts) (q_all true)
                           (snd after_two_puts) eq_refl eq_refl)
      as (e1 & HQ & _).
    destruct (drain_keys_only
                (q_all true)
                (values (MetadataCache.Iterator
                           in_order (mdCache (fst after_two_puts)) "/" 0))
                (S (length (values (MetadataCache.Iterator
                                      in_order
                                      (mdCache (fst after_two_puts))
                                      "/" 0))))
                eq_refl 0%nat (fst after_two_puts) e1 [] ltac:(lia))
      as [r2 Hd].
    rewrite drop_0 in Hd.
    do 7 eexists. split; [exact HQ | exact Hd]. }
  do 7 (split; [reflexivity|]). split; [exact H1|].
  exact (Query_ignores_offset in_order (fst after_two_puts) (q_all true)
                              q_offset (snd after_two_puts) two_entries
                              eq_refl eq_refl eq_refl eq_refl
                              eq_refl eq_refl eq_refl H1).
Defined.

(** [TestReload]: put through one adapter, read through a new one. *)
Lemma remote_round_trip_witness :
  MemGCS.buckets (world env0) !! Bucket (config (blank (cfg "ipfs" 1000)))
  = Some ∅
  /\ MemGCS.faults (world env0) = []
  /\ config (blank (cfg "ipfs" 1000)) = config (blank (cfg "ipfs" 1000))
  /\ LRU.Peek (dataCache (blank (cfg "ipfs" 1000))) (DS.String k1) = None
  /\ exists gd1' e1 gd2',
      Put (blank (cfg "ipfs" 1000)) k1 hello
          {| world := world env0; logged := [] |}
      = ((None, gd1'), e1)
      /\ Get (blank (cfg "ipfs" 1000)) k1 e1 = ((hello, None, gd2'), e1).
Proof.
  assert (MemGCS.buckets (world env0)
            !! Bucket (config (blank (cfg "ipfs" 1000))) = Some ∅) as H1
    by (vm_compute; reflexivity).
  split; [exact H1|]. split; [reflexivity|]. split; [reflexivity|].
  split; [reflexivity|].
  exact (remote_round_trip (blank (cfg "ipfs" 1000))
                           (blank (cfg "ipfs" 1000)) k1 hello
                           (world env0) [] ∅ H1 eq_refl eq_refl eq_refl).
Defined.

(** The map of the README. *)
Lemma parsed_config_witness :
  Plugin.ConfigFromMap Z (fun z => z) readme_map
  = (Plugin.Parsed Z readme_config,
     snd (Plugin.ConfigFromMap Z (fun z => z) readme_map))
  /\ readme_map !! "bucket"
     = Some (Plugin.VString Z (Bucket (Plugin.cfg readme_config)))
  /\ 0 < Workers (Plugin.cfg readme_config)
  /\ 0 < DataCacheItems (Plugin.cfg readme_config).
Proof.
  assert (Plugin.ConfigFromMap Z (fun z => z) readme_map
          = (Plugin.Parsed Z readme_config,
             snd (Plugin.ConfigFromMap Z (fun z => z) readme_map))) as H1
    by (vm_compute; reflexivity).
  split; [exact H1|].
  destruct (parsed_config_is_valid Z (fun z => z) readme_map readme_config
                                   _ H1) as (Hb & Hw & Hc & _).
  split; [exact Hb|]. split; [exact Hw | exact Hc].
Defined.

Lemma prefix_of_wrong_type_witness :
  bad_prefix_map !! "bucket" = Some (Plugin.VString Z "MYBUCKET")
  /\ bad_prefix_map !! "prefix" = Some (Plugin.VInt Z 7)
  /\ (forall s, Plugin.VInt Z 7 <> Plugin.VString Z s)
  /\ Plugin.ConfigFromMap Z (fun z => z) bad_prefix_map
     = (Plugin.ConversionPanic Z, []).
Proof.
  assert (bad_prefix_map !! "bucket" = Some (Plugin.VString Z "MYBUCKET"))
    as H1 by (vm_compute; reflexivity).
  assert (bad_prefix_map !! "prefix" = Some (Plugin.VInt Z 7)) as H2
    by (vm_compute; reflexivity).
  assert (forall s, Plugin.VInt Z 7 <> Plugin.VString Z s) as H3
    by (intros s; discriminate).
  split; [exact H1|]. split; [exact H2|]. split; [exact H3|].
  exact (prefix_of_wrong_type_panics Z (fun z => z) bad_prefix_map
                                     "MYBUCKET" _ H1 H2 H3).
Defined.

(** The map of the README with and without its "type". *)
Lemma parser_reads_four_keys_witness :
  readme_map !! "bucket" = delete "type" readme_map !! "bucket"
  /\ readme_map !! "prefix" = delete "type" readme_map !! "prefix"
  /\ readme_map !! "workers" = delete "type" readme_map !! "workers"
  /\ readme_map !! "cachesize" = delete "type" readme_map !! "cachesize"
  /\ Plugin.ConfigFromMap Z (fun z => z) readme_map
     = Plugin.ConfigFromMap Z (fun z => z) (delete "type" readme_map).
Proof.
  assert (readme_map !! "bucket" = delete "type" readme_map !! "bucket")
    as H1 by (vm_compute; reflexivity).
  assert (readme_map !! "prefix" = delete "type" readme_map !! "prefix")
    as H2 by (vm_compute; reflexivity).
  assert (readme_map !! "workers" = delete "type" readme_map !! "workers")
    as H3 by (vm_compute; reflexivity).
  assert (readme_map !! "cachesize"
          = delete "type" readme_map !! "cachesize")
    as H4 by (vm_compute; reflexivity).
  split; [exact H1|]. split; [exact H2|]. split; [exact H3|].
  split; [exact H4|].
  exact (parser_reads_four_keys Z (fun z => z) readme_map
                                (delete "type" readme_map) H1 H2 H3 H4).
Defined.

(** [Create] with the configuration of the README on its empty bucket. *)
Lemma Create_of_parsed_config_witness :
  Plugin.ConfigFromMap Z (fun z => z) readme_map
  = (Plugin.Parsed Z readme_config,
     snd (Plugin.ConfigFromMap Z (fun z => z) readme_map))
  /\ NewClient (world readme_env) = (None, world readme_env)
  /\ BucketAttrs (Bucket (Plugin.cfg readme_config)) (world readme_env)
     = (None, world readme_env)
  /\ exists gd e',
      Plugin.Create readme_config "/repo" readme_env = ((Some gd, None), e')
      /\ config gd = Plugin.cfg readme_config.
Proof.
  assert (Plugin.ConfigFromMap Z (fun z => z) readme_map
          = (Plugin.Parsed Z readme_config,
             snd (Plugin.ConfigFromMap Z (fun z => z) readme_map))) as H1
    by (vm_compute; reflexivity).
  assert (NewClient (world readme_env) = (None, world readme_env)) as H2
    by reflexivity.
  assert (BucketAttrs (Bucket (Plugin.cfg readme_config)) (world readme_env)
          = (None, world readme_env)) as H3 by (vm_compute; reflexivity).
  split; [exact H1|]. split; [exact H2|]. split; [exact H3|].
  rewrite (Create_of_parsed_config Z (fun z => z) readme_map readme_config
                                   _ "/repo" readme_env _ _ H1 H2 H3).
  do 2 eexists. split; vm_compute; reflexivity.
Defined.

(** No bucket configured: the registry bucket is skipped, [b1] is empty,
    [b2] holds data and is chosen. *)
Lemma chooseBucket_witness :
  Entrypoint.Bucket entry_cfg = ""
  /\ (forall b, b ∈ fst (Entrypoint.listBuckets project_buckets []) ->
                ~ listing_fails (bucket_objects b))
  /\ fst (Entrypoint.listBuckets project_buckets []) = ["b1"; "b2"]
  /\ Entrypoint.chooseBucket entry_cfg project_buckets bucket_objects
     = Entrypoint.Value "b2".
Proof.
  assert (forall b, b ∈ fst (Entrypoint.listBuckets project_buckets []) ->
                    ~ listing_fails (bucket_objects b)) as H1.
  { intros b _ (err & rest & Hobj & _). unfold bucket_objects in Hobj.
    destruct (String.eqb b "b2"); discriminate. }
  assert (fst (Entrypoint.listBuckets project_buckets []) = ["b1"; "b2"])
    as H2 by (vm_compute; reflexivity).
  split; [reflexivity|]. split; [exact H1|]. split; [exact H2|].
  rewrite (proj2 (proj2 (chooseBucket_choice entry_cfg project_buckets
                                             bucket_objects))
                 eq_refl H1 "b1" ["b2"] H2).
  vm_compute. reflexivity.
Defined.

(** The check on a bucket that holds a block under the name of the test
    object. *)
Lemma checkBucket_witness :
  MemGCS.buckets (world test_object_env) !! bucket
  = Some {[ "ipfs/test" := hello ]}
  /\ MemGCS.faults (world test_object_env) = []
  /\ Entrypoint.checkBucket entry_cfg "p" bucket "ipfs/"
                            {| world := world test_object_env; logged := [] |}
     = (Entrypoint.Value tt,
        {| world := {| MemGCS.buckets :=
                         <[bucket := delete "ipfs/test"
                                            {[ "ipfs/test" := hello ]}]>
                           (MemGCS.buckets (world test_object_env));
                       MemGCS.faults := [] |};
           logged := [] |}).
Proof.
  assert (MemGCS.buckets (world test_object_env) !! bucket
          = Some {[ "ipfs/test" := hello ]}) as H1
    by (vm_compute; reflexivity).
  split; [exact H1|]. split; [reflexivity|].
  exact (checkBucket_removes_test_object
           entry_cfg "p" bucket "ipfs/" (world test_object_env) []
           {[ "ipfs/test" := hello ]} H1 eq_refl).
Defined.

End FurtherWitnesses.
